(** * DiaryForTwo: the pages' handlers over the Supabase schema

    A shallow embedding of the React pages of the repository (Timeline,
    Diary, MoodTracker, MemoryLane, Playlist, Quotes, Photos, Chat), of the
    session provider (AuthContext), of the navigation (App, Layout) and of
    the row-level-security schema of
    supabase/migrations/20251021144512_create_initial_schema.sql.

    A handler is a computation over the backend (the world) and the page's
    React state; [throw], [try ... catch] and [finally] are those of the
    source.  The definitions come first, the lemmas about them after. *)

From Stdlib Require Import ZArith QArith Qpower Lia Lqa.
From Stdlib Require Ascii String DecimalString SpecFloat.
From stdpp Require Import base option list sorting gmap strings.

Local Open Scope Z_scope.

(** ** JavaScript values *)

Module Js.

(** A JavaScript string is a sequence of UTF-16 code units. *)
Definition JsString := list N.

Definition of_ascii (s : string) : JsString :=
  fmap Ascii.N_of_ascii (String.list_ascii_of_string s).

(** WhiteSpace and LineTerminator code points of ECMA-262 (all lie in the
    basic plane): what [String.prototype.trim] strips. *)
Definition isWhiteSpace (c : N) : bool :=
  ((c =? 9) || (c =? 10) || (c =? 11) || (c =? 12) || (c =? 13) || (c =? 32)
   || (c =? 160) || (c =? 5760) || ((8192 <=? c) && (c <=? 8202))
   || (c =? 8232) || (c =? 8233) || (c =? 8239) || (c =? 8287)
   || (c =? 12288) || (c =? 65279))%N.

Fixpoint trimStart (s : JsString) : JsString :=
  match s with
  | c :: s' => if isWhiteSpace c then trimStart s' else s
  | [] => []
  end.

Definition trimEnd (s : JsString) : JsString := reverse (trimStart (reverse s)).

Definition trim (s : JsString) : JsString := trimEnd (trimStart s).

(** ToBoolean of a string: the empty string is the only falsy one. *)
Definition truthy (s : JsString) : bool :=
  match s with [] => false | _ => true end.

(** [s || null]: an empty string becomes null. *)
Definition or_null (s : JsString) : option JsString :=
  if truthy s then Some s else None.

(** [Array.prototype.sort(cmp)]: the sort is stable, and with a consistent
    comparator its result is the one of insertion from the right, where an
    element goes before the first element that does not compare below it. *)
Fixpoint sort_insert {A} (cmp : A → A → Z) (x : A) (l : list A) : list A :=
  match l with
  | [] => [x]
  | y :: l' => if cmp x y <=? 0 then x :: l else y :: sort_insert cmp x l'
  end.

Fixpoint sort {A} (cmp : A → A → Z) (l : list A) : list A :=
  match l with
  | [] => []
  | x :: l' => sort_insert cmp x (sort cmp l')
  end.

(** *** Dates (ECMA-262, 21.4.1): a time value is a number of milliseconds
    since the epoch, a day number is a number of days since it. *)

Definition msPerDay : Z := 86400000.

Definition Day (t : Z) : Z := t `div` msPerDay.

Definition TimeWithinDay (t : Z) : Z := t `mod` msPerDay.

Definition isLeapYear (y : Z) : bool :=
  ((y `mod` 4 =? 0) && negb (y `mod` 100 =? 0)) || (y `mod` 400 =? 0).

Definition DaysInYear (y : Z) : Z := if isLeapYear y then 366 else 365.

Definition DayFromYear (y : Z) : Z :=
  365 * (y - 1970) + (y - 1969) `div` 4 - (y - 1901) `div` 100
  + (y - 1601) `div` 400.

(** Months are numbered from 0 (January) to 11 (December). *)
Definition DaysInMonth (y m : Z) : Z :=
  if m =? 1 then (if isLeapYear y then 29 else 28)
  else if (m =? 3) || (m =? 5) || (m =? 8) || (m =? 10) then 30
  else 31.

(** The day within the year on which month [m] starts. *)
Definition DayWithinYearOfMonth (y m : Z) : Z :=
  let leap := if isLeapYear y then 1 else 0 in
  if m =? 0 then 0 else if m =? 1 then 31 else if m =? 2 then 59 + leap
  else if m =? 3 then 90 + leap else if m =? 4 then 120 + leap
  else if m =? 5 then 151 + leap else if m =? 6 then 181 + leap
  else if m =? 7 then 212 + leap else if m =? 8 then 243 + leap
  else if m =? 9 then 273 + leap else if m =? 10 then 304 + leap
  else 334 + leap.

(** [MakeDay(year, month, date)]: the month may lie outside 0..11 and the
    date outside the month; both roll over. *)
Definition MakeDay (year month date : Z) : Z :=
  let ym := year + month `div` 12 in
  let mn := month `mod` 12 in
  DayFromYear ym + DayWithinYearOfMonth ym mn + date - 1.

Definition MakeDate (day time : Z) : Z := day * msPerDay + time.

(** The fields of a [Date] in local time: what [getFullYear], [getMonth],
    [getDate] and the time within the day read. *)
Record LocalFields := {
  year : Z;
  month : Z;
  date : Z;
  timeInDay : Z;
}.

Definition valid_fields (f : LocalFields) : bool :=
  (0 <=? month f) && (month f <=? 11) && (1 <=? date f)
  && (date f <=? DaysInMonth (year f) (month f))
  && (0 <=? timeInDay f) && (timeInDay f <? msPerDay).

(** The local time value of the fields:
    [MakeDate(MakeDay(year, month, date), time)]. *)
Definition LocalTime (f : LocalFields) : Z :=
  MakeDate (MakeDay (year f) (month f) (date f)) (timeInDay f).

(** The time value of local fields where the offset of local time from UTC
    is [tza]. *)
Definition UTC (tza : Z) (f : LocalFields) : Z :=
  MakeDate (MakeDay (year f) (month f) (date f)) (timeInDay f) - tza.

(** The time value of a [Date] that was set to the fields [f]:
    [UTC(t) = t - LocalTZA(t, false)], with [zone] the offset that the host
    gives for a local time value; under daylight saving it is not the same
    all year. *)
Definition TimeValue (zone : Z → Z) (f : LocalFields) : Z :=
  UTC (zone (LocalTime f)) f.

(** [d.setMonth(m)]: the month field is replaced, the rest kept;
    [MakeDay] rolls an overflow over when the time value is read. *)
Definition setMonth (m : Z) (f : LocalFields) : LocalFields :=
  {| year := year f; month := m; date := date f; timeInDay := timeInDay f |}.

(** [d.setDate(n)]: the date field is replaced, the rest kept. *)
Definition setDate (n : Z) (f : LocalFields) : LocalFields :=
  {| year := year f; month := month f; date := n; timeInDay := timeInDay f |}.


(** Number::toString of an integer, as a template literal prints it: its
    decimal digits, after a minus sign when it is negative. *)
Definition toString (n : Z) : JsString :=
  of_ascii (DecimalString.NilZero.string_of_int (Z.to_int n)).

(** *** Numbers (ECMA-262, 6.1.6.1): the double-precision values of IEEE
    754, with the operations that the Standard Library specifies for
    binary floating-point numbers, at a precision of 53 bits with the
    exponent of the infinities at 1024; each operation rounds its exact
    result to the nearest number, to the one with the even mantissa of two
    that are as near. *)

Definition Number : Type := SpecFloat.spec_float.

Definition prec : Z := 53.
Definition emax : Z := 1024.

(** The Number for an integer: the integer itself up to [2^53]. *)
Definition ofZ (n : Z) : Number := SpecFloat.binary_normalize prec emax n 0 false.

(** [x / y] and [x * y] *)
Definition divide (x y : Number) : Number := SpecFloat.SFdiv prec emax x y.

Definition multiply (x y : Number) : Number := SpecFloat.SFmul prec emax x y.

End Js.

(** ** Moods *)

(** The values of the mood columns: the keys of [moodEmojis] that the pages
    write.  None is an array index or a member of [Object.prototype], so as
    keys of an object they enumerate in insertion order. *)
Inductive Mood := happy | sad | love | excited | peaceful | missing | tired.

#[global] Instance Mood_eq_dec : EqDecision Mood.
Proof. solve_decision. Defined.

(** ** MoodTracker.tsx *)

Module MoodTracker.

Record MoodStats := {
  mood : Mood;
  count : nat;
  percentage : Js.Number;
}.

(** [moodCounts[mood] = (moodCounts[mood] || 0) + 1] on the object's own
    entries, kept in insertion order: a key seen before has its count raised
    in place, a new key is added at the end with count 1. *)
Fixpoint bump (m : Mood) (moodCounts : list (Mood * nat)) : list (Mood * nat) :=
  match moodCounts with
  | [] => [(m, 1%nat)]
  | (m', c) :: rest =>
      if decide (m' = m) then (m', (c + 1)%nat) :: rest
      else (m', c) :: bump m rest
  end.

Definition tally (moods : list Mood) : list (Mood * nat) :=
  foldl (λ moodCounts m, bump m moodCounts) [] moods.

(** [total > 0 ? (count / total) * 100 : 0], in double precision: the
    quotient is rounded, and its product by 100 is rounded again.  [count]
    and [total] are a count of elements and the length of an array; as
    Numbers they are the integers themselves. *)
Definition percent (count total : nat) : Js.Number :=
  if (0 <? total)%nat
  then Js.multiply
         (Js.divide (Js.ofZ (Z.of_nat count)) (Js.ofZ (Z.of_nat total)))
         (Js.ofZ 100)
  else Js.ofZ 0.

Definition calculateMoodStats (moods : list Mood) : list MoodStats :=
  let moodCounts := tally moods in
  let total := length moods in
  let stats :=
    Js.sort (λ a b, Z.of_nat (count b) - Z.of_nat (count a))
      (fmap (λ '(mood, count),
              {| mood := mood; count := count;
                 percentage := percent count total |})
           moodCounts) in
  stats.

End MoodTracker.


(** ** The schema: supabase/migrations/20251021144512_create_initial_schema.sql *)

(** Row and user identifiers (uuid) are opaque; instants (timestamptz) are
    milliseconds since the epoch and calendar days (date) are day numbers. *)
Definition uuid := nat.
Bind Scope nat_scope with uuid.

Module Profile.
Record t := {
  id : uuid;
  name : Js.JsString;
  partner_id : option uuid;
  created_at : Z;
}.
End Profile.

Module Post.
Record t := {
  id : uuid;
  user_id : uuid;
  content : Js.JsString;
  mood : Mood;
  image_url : option Js.JsString;
  song_link : option Js.JsString;
  is_miss_you : bool;
  created_at : Z;
}.
End Post.

Module Reaction.
(** [CHECK (reaction_type IN ('love', 'hug', 'smile'))] *)
Inductive kind := love | hug | smile.

Record t := {
  id : uuid;
  post_id : uuid;
  user_id : uuid;
  reaction_type : kind;
  created_at : Z;
}.
End Reaction.

#[global] Instance Reaction_kind_eq_dec : EqDecision Reaction.kind.
Proof. solve_decision. Defined.

Module Photo.
Record t := {
  id : uuid;
  user_id : uuid;
  photo_url : Js.JsString;
  caption : option Js.JsString;
  uploaded_at : Z;
}.
End Photo.

Module PlaylistItem.
Record t := {
  id : uuid;
  user_id : uuid;
  song_title : Js.JsString;
  song_url : Js.JsString;
  added_at : Z;
}.
End PlaylistItem.

Module DailyDiary.
Record t := {
  id : uuid;
  user_id : uuid;
  date : Z;
  content : Js.JsString;
  mood : Mood;
  created_at : Z;
}.
End DailyDiary.

Module Quote.
Record t := {
  id : uuid;
  user_id : uuid;
  quote_text : Js.JsString;
  is_read : bool;
  created_at : Z;
}.
End Quote.

Module ChatMessage.
Record t := {
  id : uuid;
  sender_id : uuid;
  message : Js.JsString;
  is_read : bool;
  sent_at : Z;
}.
End ChatMessage.

Module Db.

Record Database := {
  profiles : list Profile.t;
  posts : list Post.t;
  reactions : list Reaction.t;
  photos : list Photo.t;
  playlist : list PlaylistItem.t;
  daily_diaries : list DailyDiary.t;
  quotes : list Quote.t;
  chat_messages : list ChatMessage.t;
}.

(** The relations the migration creates. *)
Definition relations : list string :=
  ["profiles"; "posts"; "reactions"; "photos"; "playlist"; "daily_diaries";
   "quotes"; "chat_messages"].

Inductive PgError :=
  | RlsViolation          (* new row violates row-level security policy *)
  | UniqueViolation       (* PRIMARY KEY or UNIQUE *)
  | ForeignKeyViolation   (* REFERENCES *)
  | UndefinedTable        (* the relation is not in the schema *)
  | MultipleRows          (* maybeSingle() on more than one row *)
  | FetchFailed.          (* the request did not reach the backend *)

(** [DEFAULT gen_random_uuid()]: an identifier no row of the table has. *)
Definition gen_random_uuid (used : list uuid) : uuid := S (max_list used).

(** [SELECT partner_id FROM profiles WHERE id = auth.uid()]; the caller's
    own profile row is visible to the caller, and a null is in no [IN]. *)
Definition partner_ids (d : Database) (uid : uuid) : list uuid :=
  omap (λ p, if decide (Profile.id p = uid) then Profile.partner_id p else None)
       (profiles d).

(** Every policy is [TO authenticated]: a request without a session sees
    and changes no row. *)
Definition authenticated (session : option uuid) (policy : uuid → bool) : bool :=
  match session with
  | Some uid => policy uid
  | None => false
  end.

(** [user_id = auth.uid()] *)
Definition own (owner : uuid) : uuid → bool :=
  λ uid, bool_decide (owner = uid).

(** [user_id IN (SELECT partner_id FROM profiles WHERE id = auth.uid())] *)
Definition of_partner (d : Database) (owner : uuid) : uuid → bool :=
  λ uid, bool_decide (owner ∈ partner_ids d uid).

(** [user_id = auth.uid() OR user_id IN (SELECT partner_id ...)] *)
Definition own_or_partner (d : Database) (owner : uuid) : uuid → bool :=
  λ uid, own owner uid || of_partner d owner uid.

Section Rows.
Context {Row : Type}.

(** SELECT: the rows the SELECT policy shows among those the query asks for. *)
Definition select (visible q : Row → bool) (rows : list Row) : list Row :=
  filter (λ r, visible r && q r) rows.

(** An UPDATE or DELETE with a WHERE clause reads the rows, so the SELECT
    policy applies besides the command's own USING policy ([permit]). *)
Definition targeted (visible permit q : Row → bool) (r : Row) : bool :=
  visible r && permit r && q r.

(** UPDATE: the targeted rows are replaced; a new row that fails WITH CHECK
    aborts the statement. *)
Definition update (visible permit check q : Row → bool) (f : Row → Row)
    (rows : list Row) : PgError + list Row :=
  if forallb (λ r, if targeted visible permit q r then check (f r) else true) rows
  then inr (fmap (λ r, if targeted visible permit q r then f r else r) rows)
  else inl RlsViolation.

Definition delete (visible permit q : Row → bool) (rows : list Row) : list Row :=
  filter (λ r, negb (targeted visible permit q r)) rows.

(** [.maybeSingle()] *)
Definition maybeSingle (rows : list Row) : PgError + option Row :=
  match rows with
  | [] => inr None
  | [r] => inr (Some r)
  | _ => inl MultipleRows
  end.

(** [.limit(n)] *)
Definition limit (n : option nat) (rows : list Row) : list Row :=
  match n with
  | Some n => take n rows
  | None => rows
  end.

(** [.order(col, { ascending })] on an integer column; rows that tie stay
    in the table's order (the backend leaves their order open). *)
Definition order (ascending : bool) (col : Row → Z) (rows : list Row) : list Row :=
  Js.sort (λ a b, if ascending then col a - col b else col b - col a) rows.

End Rows.

(** An INSERT checks the policy's WITH CHECK first, then the constraints. *)
Definition checked (policy : bool) (foreign_keys : bool) (unique : bool)
    {A} (done : A) : PgError + A :=
  if negb policy then inl RlsViolation
  else if negb foreign_keys then inl ForeignKeyViolation
  else if negb unique then inl UniqueViolation
  else inr done.

Definition has_profile (d : Database) (u : uuid) : bool :=
  bool_decide (u ∈ fmap Profile.id (profiles d)).

Definition has_post (d : Database) (p : uuid) : bool :=
  bool_decide (p ∈ fmap Post.id (posts d)).

(** *** posts *)

Inductive OwnerFilter :=
  | NoOwnerFilter                 (* the query names no owner *)
  | OwnerEq (u : uuid)            (* [.eq('user_id', u)] *)
  | OwnerIn (us : list uuid).     (* [.in('user_id', us)] *)

Definition owner_matches (f : OwnerFilter) (owner : uuid) : bool :=
  match f with
  | NoOwnerFilter => true
  | OwnerEq u => bool_decide (owner = u)
  | OwnerIn us => bool_decide (owner ∈ us)
  end.

Record PostsQuery := {
  owner : OwnerFilter;
  created_gte : option Z;         (* [.gte('created_at', t)] *)
  created_lte : option Z;         (* [.lte('created_at', t)] *)
  mood_in : option (list Mood);   (* [.in('mood', ms)] *)
  row_limit : option nat;         (* [.limit(n)] *)
}.

Definition post_visible (d : Database) (session : option uuid) (r : Post.t) : bool :=
  authenticated session (own_or_partner d (Post.user_id r)).

Definition post_matches (q : PostsQuery) (r : Post.t) : bool :=
  owner_matches (owner q) (Post.user_id r)
  && from_option (λ t, t <=? Post.created_at r) true (created_gte q)
  && from_option (λ t, Post.created_at r <=? t) true (created_lte q)
  && from_option (λ ms, bool_decide (Post.mood r ∈ ms)) true (mood_in q).

(** [.from('posts').select('*, profiles(id, name)')
     .order('created_at', { ascending: false })] with the query's filters
    and limit.  The profile embedded in each row only labels the post on
    the page and is left out. *)
Definition select_posts (session : option uuid) (q : PostsQuery) (d : Database)
    : PgError + (Database * list Post.t) :=
  inr (d, limit (row_limit q)
            (order false Post.created_at
               (select (post_visible d session) (post_matches q) (posts d)))).

Definition with_posts (d : Database) (rows : list Post.t) : Database :=
  {| profiles := profiles d; posts := rows; reactions := reactions d;
     photos := photos d; playlist := playlist d;
     daily_diaries := daily_diaries d; quotes := quotes d;
     chat_messages := chat_messages d |}.

Definition insert_post (session : option uuid) (now : Z) (user_id : uuid)
    (content : Js.JsString) (mood : Mood) (image_url song_link : option Js.JsString)
    (is_miss_you : bool) (d : Database) : PgError + (Database * unit) :=
  checked (authenticated session (own user_id)) (has_profile d user_id) true
    (with_posts d
       (posts d ++
        [{| Post.id := gen_random_uuid (fmap Post.id (posts d));
            Post.user_id := user_id; Post.content := content; Post.mood := mood;
            Post.image_url := image_url; Post.song_link := song_link;
            Post.is_miss_you := is_miss_you; Post.created_at := now |}]),
     ()).

(** *** reactions *)

(** [post_id IN (SELECT id FROM posts WHERE user_id = auth.uid() OR ...)] *)
Definition reaction_visible (d : Database) (session : option uuid)
    (r : Reaction.t) : bool :=
  bool_decide (Reaction.post_id r ∈
               fmap Post.id (filter (λ p, post_visible d session p) (posts d))).

Definition reaction_own (session : option uuid) (r : Reaction.t) : bool :=
  authenticated session (own (Reaction.user_id r)).

Definition with_reactions (d : Database) (rows : list Reaction.t) : Database :=
  {| profiles := profiles d; posts := posts d; reactions := rows;
     photos := photos d; playlist := playlist d;
     daily_diaries := daily_diaries d; quotes := quotes d;
     chat_messages := chat_messages d |}.

(** [.from('reactions').select('*').in('post_id', postIds)] *)
Definition select_reactions (session : option uuid) (postIds : list uuid)
    (d : Database) : PgError + (Database * list Reaction.t) :=
  inr (d, select (reaction_visible d session)
            (λ r, bool_decide (Reaction.post_id r ∈ postIds)) (reactions d)).

(** [UNIQUE(post_id, user_id)] *)
Definition reaction_key (r : Reaction.t) : uuid * uuid :=
  (Reaction.post_id r, Reaction.user_id r).

Definition insert_reaction (session : option uuid) (now : Z)
    (post_id user_id : uuid) (reaction_type : Reaction.kind) (d : Database)
    : PgError + (Database * unit) :=
  checked (authenticated session (own user_id))
    (has_post d post_id && has_profile d user_id)
    (bool_decide ((post_id, user_id) ∉ fmap reaction_key (reactions d)))
    (with_reactions d
       (reactions d ++
        [{| Reaction.id := gen_random_uuid (fmap Reaction.id (reactions d));
            Reaction.post_id := post_id; Reaction.user_id := user_id;
            Reaction.reaction_type := reaction_type;
            Reaction.created_at := now |}]),
     ()).

Definition set_reaction_type (k : Reaction.kind) (r : Reaction.t) : Reaction.t :=
  {| Reaction.id := Reaction.id r; Reaction.post_id := Reaction.post_id r;
     Reaction.user_id := Reaction.user_id r; Reaction.reaction_type := k;
     Reaction.created_at := Reaction.created_at r |}.

(** [.from('reactions').update({ reaction_type }).eq('id', id)] *)
Definition update_reaction (session : option uuid) (id : uuid)
    (reaction_type : Reaction.kind) (d : Database) : PgError + (Database * unit) :=
  match update (reaction_visible d session) (reaction_own session)
          (reaction_own session) (λ r, bool_decide (Reaction.id r = id))
          (set_reaction_type reaction_type) (reactions d) with
  | inl e => inl e
  | inr rows => inr (with_reactions d rows, ())
  end.

(** [.from('reactions').delete().eq('id', id)] *)
Definition delete_reaction (session : option uuid) (id : uuid) (d : Database)
    : PgError + (Database * unit) :=
  inr (with_reactions d
         (delete (reaction_visible d session) (reaction_own session)
            (λ r, bool_decide (Reaction.id r = id)) (reactions d)),
       ()).

(** *** photos *)

Definition photo_visible (d : Database) (session : option uuid) (r : Photo.t) : bool :=
  authenticated session (own_or_partner d (Photo.user_id r)).

Definition photo_own (session : option uuid) (r : Photo.t) : bool :=
  authenticated session (own (Photo.user_id r)).

Definition with_photos (d : Database) (rows : list Photo.t) : Database :=
  {| profiles := profiles d; posts := posts d; reactions := reactions d;
     photos := rows; playlist := playlist d;
     daily_diaries := daily_diaries d; quotes := quotes d;
     chat_messages := chat_messages d |}.

(** [.from('photos').select(...).order('uploaded_at', { ascending: false })] *)
Definition select_photos (session : option uuid) (d : Database)
    : PgError + (Database * list Photo.t) :=
  inr (d, order false Photo.uploaded_at
            (select (photo_visible d session) (λ _, true) (photos d))).

Definition insert_photo (session : option uuid) (now : Z) (user_id : uuid)
    (photo_url : Js.JsString) (caption : option Js.JsString) (d : Database)
    : PgError + (Database * unit) :=
  checked (authenticated session (own user_id)) (has_profile d user_id) true
    (with_photos d
       (photos d ++
        [{| Photo.id := gen_random_uuid (fmap Photo.id (photos d));
            Photo.user_id := user_id; Photo.photo_url := photo_url;
            Photo.caption := caption; Photo.uploaded_at := now |}]),
     ()).

(** [.from('photos').delete().eq('id', id)] *)
Definition delete_photo (session : option uuid) (id : uuid) (d : Database)
    : PgError + (Database * unit) :=
  inr (with_photos d
         (delete (photo_visible d session) (photo_own session)
            (λ r, bool_decide (Photo.id r = id)) (photos d)),
       ()).

(** *** playlist *)

Definition song_visible (d : Database) (session : option uuid)
    (r : PlaylistItem.t) : bool :=
  authenticated session (own_or_partner d (PlaylistItem.user_id r)).

Definition song_own (session : option uuid) (r : PlaylistItem.t) : bool :=
  authenticated session (own (PlaylistItem.user_id r)).

Definition with_playlist (d : Database) (rows : list PlaylistItem.t) : Database :=
  {| profiles := profiles d; posts := posts d; reactions := reactions d;
     photos := photos d; playlist := rows;
     daily_diaries := daily_diaries d; quotes := quotes d;
     chat_messages := chat_messages d |}.

(** [.from('playlist').select(...).order('added_at', { ascending: false })] *)
Definition select_playlist (session : option uuid) (d : Database)
    : PgError + (Database * list PlaylistItem.t) :=
  inr (d, order false PlaylistItem.added_at
            (select (song_visible d session) (λ _, true) (playlist d))).

Definition insert_song (session : option uuid) (now : Z) (user_id : uuid)
    (song_title song_url : Js.JsString) (d : Database)
    : PgError + (Database * unit) :=
  checked (authenticated session (own user_id)) (has_profile d user_id) true
    (with_playlist d
       (playlist d ++
        [{| PlaylistItem.id := gen_random_uuid (fmap PlaylistItem.id (playlist d));
            PlaylistItem.user_id := user_id;
            PlaylistItem.song_title := song_title;
            PlaylistItem.song_url := song_url;
            PlaylistItem.added_at := now |}]),
     ()).

(** [.from('playlist').delete().eq('id', id)] *)
Definition delete_song (session : option uuid) (id : uuid) (d : Database)
    : PgError + (Database * unit) :=
  inr (with_playlist d
         (delete (song_visible d session) (song_own session)
            (λ r, bool_decide (PlaylistItem.id r = id)) (playlist d)),
       ()).

(** *** daily_diaries *)

Definition diary_visible (d : Database) (session : option uuid)
    (r : DailyDiary.t) : bool :=
  authenticated session (own_or_partner d (DailyDiary.user_id r)).

Definition diary_own (session : option uuid) (r : DailyDiary.t) : bool :=
  authenticated session (own (DailyDiary.user_id r)).

Definition with_daily_diaries (d : Database) (rows : list DailyDiary.t) : Database :=
  {| profiles := profiles d; posts := posts d; reactions := reactions d;
     photos := photos d; playlist := playlist d;
     daily_diaries := rows; quotes := quotes d;
     chat_messages := chat_messages d |}.

(** [.select('*').eq('user_id', u).eq('date', day).maybeSingle()] *)
Definition select_diary_of_day (session : option uuid) (u : uuid) (day : Z)
    (d : Database) : PgError + (Database * option DailyDiary.t) :=
  match maybeSingle
          (select (diary_visible d session)
             (λ r, bool_decide (DailyDiary.user_id r = u)
                   && bool_decide (DailyDiary.date r = day))
             (daily_diaries d)) with
  | inl e => inl e
  | inr row => inr (d, row)
  end.

(** [.select(...).order('date', { ascending: false }).limit(10)] with the
    owner filter. *)
Definition select_diaries (session : option uuid) (f : OwnerFilter) (d : Database)
    : PgError + (Database * list DailyDiary.t) :=
  inr (d, limit (Some 10%nat)
            (order false DailyDiary.date
               (select (diary_visible d session)
                  (λ r, owner_matches f (DailyDiary.user_id r))
                  (daily_diaries d)))).

(** [UNIQUE(user_id, date)] *)
Definition diary_key (r : DailyDiary.t) : uuid * Z :=
  (DailyDiary.user_id r, DailyDiary.date r).

Definition insert_diary (session : option uuid) (now : Z) (user_id : uuid)
    (date : Z) (content : Js.JsString) (mood : Mood) (d : Database)
    : PgError + (Database * unit) :=
  checked (authenticated session (own user_id)) (has_profile d user_id)
    (bool_decide ((user_id, date) ∉ fmap diary_key (daily_diaries d)))
    (with_daily_diaries d
       (daily_diaries d ++
        [{| DailyDiary.id := gen_random_uuid (fmap DailyDiary.id (daily_diaries d));
            DailyDiary.user_id := user_id; DailyDiary.date := date;
            DailyDiary.content := content; DailyDiary.mood := mood;
            DailyDiary.created_at := now |}]),
     ()).

Definition set_diary (content : Js.JsString) (mood : Mood) (r : DailyDiary.t)
    : DailyDiary.t :=
  {| DailyDiary.id := DailyDiary.id r; DailyDiary.user_id := DailyDiary.user_id r;
     DailyDiary.date := DailyDiary.date r; DailyDiary.content := content;
     DailyDiary.mood := mood; DailyDiary.created_at := DailyDiary.created_at r |}.

(** [.update({ content, mood }).eq('id', id)] *)
Definition update_diary (session : option uuid) (id : uuid)
    (content : Js.JsString) (mood : Mood) (d : Database)
    : PgError + (Database * unit) :=
  match update (diary_visible d session) (diary_own session) (diary_own session)
          (λ r, bool_decide (DailyDiary.id r = id)) (set_diary content mood)
          (daily_diaries d) with
  | inl e => inl e
  | inr rows => inr (with_daily_diaries d rows, ())
  end.

(** *** quotes *)

Definition with_quotes (d : Database) (rows : list Quote.t) : Database :=
  {| profiles := profiles d; posts := posts d; reactions := reactions d;
     photos := photos d; playlist := playlist d;
     daily_diaries := daily_diaries d; quotes := rows;
     chat_messages := chat_messages d |}.

(** Policy "Users can create quotes for partner":
    [WITH CHECK (user_id IN (SELECT partner_id FROM profiles
                             WHERE id = auth.uid()))]. *)
Definition quote_insert_check (d : Database) (session : option uuid)
    (user_id : uuid) : bool :=
  authenticated session (of_partner d user_id).

Definition insert_quote (session : option uuid) (now : Z) (user_id : uuid)
    (quote_text : Js.JsString) (d : Database) : PgError + (Database * unit) :=
  checked (quote_insert_check d session user_id) (has_profile d user_id) true
    (with_quotes d
       (quotes d ++
        [{| Quote.id := gen_random_uuid (fmap Quote.id (quotes d));
            Quote.user_id := user_id; Quote.quote_text := quote_text;
            Quote.is_read := false; Quote.created_at := now |}]),
     ()).

(** *** chat_messages *)

Definition with_chat_messages (d : Database) (rows : list ChatMessage.t) : Database :=
  {| profiles := profiles d; posts := posts d; reactions := reactions d;
     photos := photos d; playlist := playlist d;
     daily_diaries := daily_diaries d; quotes := quotes d;
     chat_messages := rows |}.

Definition insert_chat_message (session : option uuid) (now : Z)
    (sender_id : uuid) (message : Js.JsString) (d : Database)
    : PgError + (Database * unit) :=
  checked (authenticated session (own sender_id)) (has_profile d sender_id) true
    (with_chat_messages d
       (chat_messages d ++
        [{| ChatMessage.id := gen_random_uuid (fmap ChatMessage.id (chat_messages d));
            ChatMessage.sender_id := sender_id; ChatMessage.message := message;
            ChatMessage.is_read := false; ChatMessage.sent_at := now |}]),
     ()).

(** Policy "Users can view messages they sent or received". *)
Definition chat_visible (d : Database) (session : option uuid)
    (r : ChatMessage.t) : bool :=
  authenticated session (own_or_partner d (ChatMessage.sender_id r)).

(** Policy "Users can update messages sent to them", USING and WITH CHECK:
    [sender_id IN (SELECT partner_id FROM profiles WHERE id = auth.uid())]. *)
Definition chat_received (d : Database) (session : option uuid)
    (r : ChatMessage.t) : bool :=
  authenticated session (of_partner d (ChatMessage.sender_id r)).

(** [.from('chat_messages').select(...).order('sent_at', { ascending: true })] *)
Definition select_chat_messages (session : option uuid) (d : Database)
    : PgError + (Database * list ChatMessage.t) :=
  inr (d, order true ChatMessage.sent_at
            (select (chat_visible d session) (λ _, true) (chat_messages d))).

Definition set_message_read (r : ChatMessage.t) : ChatMessage.t :=
  {| ChatMessage.id := ChatMessage.id r;
     ChatMessage.sender_id := ChatMessage.sender_id r;
     ChatMessage.message := ChatMessage.message r;
     ChatMessage.is_read := true; ChatMessage.sent_at := ChatMessage.sent_at r |}.

(** [.from('chat_messages').update({ is_read: true }).in('id', ids)] *)
Definition mark_messages_read (session : option uuid) (ids : list uuid)
    (d : Database) : PgError + (Database * unit) :=
  match update (chat_visible d session) (chat_received d session)
          (chat_received d session) (λ r, bool_decide (ChatMessage.id r ∈ ids))
          set_message_read (chat_messages d) with
  | inl e => inl e
  | inr rows => inr (with_chat_messages d rows, ())
  end.

(** *** quotes, read and marked *)

(** Policies "Users can view quotes sent to them" and "Users can update
    quotes sent to them": the same expression as the insert policy, on the
    row's [user_id]. *)
Definition quote_visible (d : Database) (session : option uuid)
    (r : Quote.t) : bool :=
  quote_insert_check d session (Quote.user_id r).

(** [.from('quotes').select(...).order('created_at', { ascending: false })] *)
Definition select_quotes (session : option uuid) (d : Database)
    : PgError + (Database * list Quote.t) :=
  inr (d, order false Quote.created_at
            (select (quote_visible d session) (λ _, true) (quotes d))).

Definition set_quote_read (r : Quote.t) : Quote.t :=
  {| Quote.id := Quote.id r; Quote.user_id := Quote.user_id r;
     Quote.quote_text := Quote.quote_text r; Quote.is_read := true;
     Quote.created_at := Quote.created_at r |}.

(** [.from('quotes').update({ is_read: true }).in('id', ids)] *)
Definition mark_quotes_read (session : option uuid) (ids : list uuid)
    (d : Database) : PgError + (Database * unit) :=
  match update (quote_visible d session) (quote_visible d session)
          (quote_visible d session) (λ r, bool_decide (Quote.id r ∈ ids))
          set_quote_read (quotes d) with
  | inl e => inl e
  | inr rows => inr (with_quotes d rows, ())
  end.

(** *** profiles *)

(** Policy "Users can view own profile and partner profile":
    [USING (auth.uid() = id OR auth.uid() = partner_id)]. *)
Definition profile_visible (d : Database) (session : option uuid)
    (r : Profile.t) : bool :=
  authenticated session
    (λ uid, bool_decide (uid = Profile.id r)
            || bool_decide (Some uid = Profile.partner_id r)).

(** [.from('profiles').select('*').eq('id', id).maybeSingle()] *)
Definition select_profile (session : option uuid) (id : uuid) (d : Database)
    : PgError + (Database * option Profile.t) :=
  match maybeSingle
          (select (profile_visible d session)
             (λ r, bool_decide (Profile.id r = id)) (profiles d)) with
  | inl e => inl e
  | inr row => inr (d, row)
  end.

Definition with_profiles (d : Database) (rows : list Profile.t) : Database :=
  {| profiles := rows; posts := posts d; reactions := reactions d;
     photos := photos d; playlist := playlist d;
     daily_diaries := daily_diaries d; quotes := quotes d;
     chat_messages := chat_messages d |}.

(** [.from('profiles').insert([{ id, name }])].  Row-level security is
    enabled on [profiles] and the migration creates policies for SELECT and
    for UPDATE only: with no policy for INSERT, no new row passes.  (The
    [auth.users] row that [id] references is the one the sign-up made.) *)
Definition insert_profile (session : option uuid) (now : Z) (id : uuid)
    (name : Js.JsString) (d : Database) : PgError + (Database * unit) :=
  checked false true (bool_decide (id ∉ fmap Profile.id (profiles d)))
    (with_profiles d
       (profiles d ++
        [{| Profile.id := id; Profile.name := name;
            Profile.partner_id := None; Profile.created_at := now |}]),
     ()).

(** *** the moods of a user's rows *)

(** [.from('posts').select('mood').eq('user_id', u).gte('created_at', since)];
    the query asks for no order, and the rows come in the table's. *)
Definition select_post_moods (session : option uuid) (u : uuid) (since : Z)
    (d : Database) : PgError + (Database * list Mood) :=
  inr (d, fmap Post.mood
            (select (post_visible d session)
               (post_matches
                  {| owner := OwnerEq u; created_gte := Some since;
                     created_lte := None; mood_in := None; row_limit := None |})
               (posts d))).

(** [.select('mood').eq('user_id', u).gte('created_at', since)] on diary
    entries. *)
Definition select_diary_moods (session : option uuid) (u : uuid) (since : Z)
    (d : Database) : PgError + (Database * list Mood) :=
  inr (d, fmap DailyDiary.mood
            (select (diary_visible d session)
               (λ r, bool_decide (DailyDiary.user_id r = u)
                     && (since <=? DailyDiary.created_at r))
               (daily_diaries d))).

End Db.

(** ** The world outside a page, and a handler's effects *)

Inductive Verb := SELECT | INSERT | UPDATE | DELETE.

Record Request := {
  verb : Verb;
  relation : string;
}.

(** The backend's rows, the current time as its local fields with the
    offset of local time from UTC in effect now, the offset the zone has at
    another local time ([LocalTZA(t, false)], which daylight saving makes
    differ from the one of now), whether requests reach the backend, and
    what the page has emitted so far: the requests sent and the lines
    written by [console.error]. *)
Record World := {
  db : Db.Database;
  now : Js.LocalFields;
  tza : Z;
  zone : Z → Z;
  network_up : bool;
  requests : list Request;
  console : list string;
}.

(** The current time value: [new Date().getTime()], and the backend's
    [now()]. *)
Definition clock (w : World) : Z := Js.UTC (tza w) (now w).

(** [useAuth()]: the signed-in user's id (null when signed out), the
    user's profile and the partner's profile when one was loaded. *)
Record AuthContext := {
  user : option uuid;
  profile : option Profile.t;
  partnerProfile : option Profile.t;
}.

Inductive Outcome (A : Type) :=
  | Returned (a : A)
  | Thrown (e : Db.PgError).
Arguments Returned {A} a.
Arguments Thrown {A} e.

(** A computation of a handler over the world and the page's state [S]. *)
Definition Eff (S A : Type) : Type := World → S → World * S * Outcome A.

Definition ret {S A} (a : A) : Eff S A := λ w s, (w, s, Returned a).

Definition bind {S A B} (m : Eff S A) (k : A → Eff S B) : Eff S B :=
  λ w s,
    match m w s with
    | (w', s', Returned a) => k a w' s'
    | (w', s', Thrown e) => (w', s', Thrown e)
    end.

Declare Scope eff_scope.
Delimit Scope eff_scope with eff.
Bind Scope eff_scope with Eff.
Notation "'let*' x ':=' m 'in' k" := (bind m (λ x, k))
  (at level 10, x pattern, m at level 100, k at level 200) : eff_scope.
Notation "m ';;' k" := (bind m (λ _, k))
  (at level 100, k at level 200, right associativity) : eff_scope.

Definition throw {S A} (e : Db.PgError) : Eff S A := λ w s, (w, s, Thrown e).

(** [try { body } catch (error) { handler }] *)
Definition try_catch {S A} (body : Eff S A) (handler : Db.PgError → Eff S A)
    : Eff S A :=
  λ w s,
    match body w s with
    | (w', s', Thrown e) => handler e w' s'
    | r => r
    end.

(** [try { body } finally { cleanup }] *)
Definition finally {S A} (body : Eff S A) (cleanup : Eff S unit) : Eff S A :=
  λ w s,
    match body w s with
    | (w', s', o) =>
        match cleanup w' s' with
        | (w'', s'', Returned _) => (w'', s'', o)
        | (w'', s'', Thrown e) => (w'', s'', Thrown e)
        end
    end.

(** A handler that calls an async function without awaiting it returns
    with that call started and left running: the handler's result is the
    task that is left, and what the task does to the backend and to the
    page comes after the handler's return.  [settled m] is [m] followed by
    the task it left, run to its end with nothing else in between. *)
Definition settled {S} (m : Eff S (Eff S unit)) : Eff S unit :=
  bind m (λ task, task).

(** The page's state as the handler reads it. *)
Definition get {S} : Eff S S := λ w s, (w, s, Returned s).

(** A [useState] setter. *)
Definition modify {S} (f : S → S) : Eff S unit := λ w s, (w, f s, Returned ()).

(** [new Date()], as its local fields, and the host's time zone:
    [LocalTZA(t, false)] as a function of the local time value [t]. *)
Definition new_Date {S} : Eff S Js.LocalFields := λ w s, (w, s, Returned (now w)).

Definition LocalTZA {S} : Eff S (Z → Z) := λ w s, (w, s, Returned (zone w)).

Definition log_error (label : string) (w : World) : World :=
  {| db := db w; now := now w; tza := tza w; zone := zone w;
     network_up := network_up w;
     requests := requests w; console := console w ++ [label] |}.

(** [console.error(label, error)] *)
Definition console_error {S} (label : string) : Eff S unit :=
  λ w s, (log_error label w, s, Returned ()).

(** The world once a request has been sent, and once the backend holds
    the rows [d]. *)
Definition send (v : Verb) (rel : string) (w : World) : World :=
  {| db := db w; now := now w; tza := tza w; zone := zone w;
     network_up := network_up w;
     requests := requests w ++ [{| verb := v; relation := rel |}];
     console := console w |}.

Definition with_db (d : Db.Database) (w : World) : World :=
  {| db := d; now := now w; tza := tza w; zone := zone w;
     network_up := network_up w;
     requests := requests w; console := console w |}.

(** One request [supabase.from(rel)...], awaited: it is sent, and it
    resolves to [{ data, error }] and never throws.  It fails when it does
    not reach the backend ([reached] tells) or when the backend has no
    relation of that name, and otherwise does what the statement [run] does
    on the rows. *)
Definition request {S A} (reached : bool) (v : Verb) (rel : string)
    (run : Z → Db.Database → Db.PgError + (Db.Database * A))
    : Eff S (Db.PgError + A) :=
  λ w s,
    let w' := send v rel w in
    if negb reached then (w', s, Returned (inl Db.FetchFailed))
    else if negb (bool_decide (rel ∈ Db.relations))
    then (w', s, Returned (inl Db.UndefinedTable))
    else
      match run (clock w) (db w) with
      | inl error => (w', s, Returned (inl error))
      | inr (d, data) => (with_db d w', s, Returned (inr data))
      end.

(** [await supabase.from(rel)...] while the network stays as it is: the
    request reaches the backend when the network is up. *)
Definition await {S A} (v : Verb) (rel : string)
    (run : Z → Db.Database → Db.PgError + (Db.Database * A))
    : Eff S (Db.PgError + A) :=
  λ w s, request (network_up w) v rel run w s.

(** [if (error) throw error] *)
Definition throw_if_error {S A} (r : Db.PgError + A) : Eff S A :=
  match r with
  | inl error => throw error
  | inr data => ret data
  end.

(** [!text.trim()], the guard of every form's required text: the trimmed
    text is the empty string. *)
Definition blank (s : Js.JsString) : bool := negb (Js.truthy (Js.trim s)).

(** ** Timeline.tsx *)

Module Timeline.

Inductive Filter := all | mine | theirs.

Record State := {
  posts : list Post.t;
  filter : Filter;
  newPost : Js.JsString;
  selectedMood : Mood;
  imageUrl : Js.JsString;
  songLink : Js.JsString;
  showPostForm : bool;
  loading : bool;
  reactions : gmap uuid (list Reaction.t);
}.

Definition setPosts (v : list Post.t) (s : State) : State :=
  {| posts := v; filter := filter s; newPost := newPost s;
     selectedMood := selectedMood s; imageUrl := imageUrl s;
     songLink := songLink s; showPostForm := showPostForm s;
     loading := loading s; reactions := reactions s |}.

Definition setReactions (v : gmap uuid (list Reaction.t)) (s : State) : State :=
  {| posts := posts s; filter := filter s; newPost := newPost s;
     selectedMood := selectedMood s; imageUrl := imageUrl s;
     songLink := songLink s; showPostForm := showPostForm s;
     loading := loading s; reactions := v |}.

Definition setLoading (v : bool) (s : State) : State :=
  {| posts := posts s; filter := filter s; newPost := newPost s;
     selectedMood := selectedMood s; imageUrl := imageUrl s;
     songLink := songLink s; showPostForm := showPostForm s;
     loading := v; reactions := reactions s |}.

(** [setNewPost(''); setImageUrl(''); setSongLink(''); setShowPostForm(false)] *)
Definition resetForm (s : State) : State :=
  {| posts := posts s; filter := filter s; newPost := [];
     selectedMood := selectedMood s; imageUrl := [];
     songLink := []; showPostForm := false;
     loading := loading s; reactions := reactions s |}.

(** The owner filter [loadPosts] puts on the query:
    [if (filter === 'mine' && user) .eq('user_id', user.id)
     else if (filter === 'theirs' && partnerProfile) .eq(..., partnerProfile.id)
     else if (user && partnerProfile) .in(..., [user.id, partnerProfile.id])],
    and none at all otherwise. *)
Definition ownerFilter (f : Filter) (auth : AuthContext) : Db.OwnerFilter :=
  match f, user auth, partnerProfile auth with
  | mine, Some u, _ => Db.OwnerEq u
  | theirs, _, Some p => Db.OwnerEq (Profile.id p)
  | _, Some u, Some p => Db.OwnerIn [u; Profile.id p]
  | _, _, _ => Db.NoOwnerFilter
  end.

(** The object [reactionsByPost] that [loadPosts] builds: each reaction is
    pushed onto the array under its post's id. *)
Definition reactionsByPost (reactionsData : list Reaction.t)
    : gmap uuid (list Reaction.t) :=
  foldl (λ byPost reaction,
           <[Reaction.post_id reaction :=
               default [] (byPost !! Reaction.post_id reaction) ++ [reaction]]>
             byPost)
        ∅ reactionsData.

(** [loadPosts], with for each of its two requests whether it reaches the
    backend: the network may come and go between the two. *)
Definition loadPostsWhen (posts_reached reactions_reached : bool)
    (auth : AuthContext) : Eff State unit :=
  (finally
     (try_catch
        (let* s := get in
         let* r := request posts_reached SELECT "posts"
                     (λ _, Db.select_posts (user auth)
                        {| Db.owner := ownerFilter (filter s) auth;
                           Db.created_gte := None; Db.created_lte := None;
                           Db.mood_in := None; Db.row_limit := None |}) in
         let* data := throw_if_error r in
         modify (setPosts data);;
         let* rr := request reactions_reached SELECT "reactions"
                      (λ _, Db.select_reactions (user auth) (fmap Post.id data)) in
         let reactionsData := match rr with inr l => l | inl _ => [] end in
         modify (setReactions (reactionsByPost reactionsData)))
        (λ error, console_error "Error loading posts:"))
     (modify (setLoading false)))%eff.

(** [loadPosts] while the network stays as it is. *)
Definition loadPosts (auth : AuthContext) : Eff State unit :=
  λ w s, loadPostsWhen (network_up w) (network_up w) auth w s.

Definition handleSubmitPost (auth : AuthContext) : Eff State unit :=
  (let* s := get in
   match user auth with
   | Some u =>
       if blank (newPost s) then ret ()
       else
         try_catch
           (let* r := await INSERT "posts"
                        (λ now, Db.insert_post (user auth) now u (newPost s)
                                  (selectedMood s) (Js.or_null (imageUrl s))
                                  (Js.or_null (songLink s)) false) in
            throw_if_error r;;
            modify resetForm)
           (λ error, console_error "Error creating post:")
   | None => ret ()
   end)%eff.

(** [reactions[postId]?.find(r => r.user_id === user.id)] *)
Definition existingReaction (s : State) (postId u : uuid) : option Reaction.t :=
  reactions s !! postId ≫= λ rs, head (base.filter (λ r, Reaction.user_id r = u) rs).

(** [handleReaction]: the statement is awaited and its result dropped;
    the last statement of the [try] block, [loadPosts()], is not awaited,
    so the handler returns with the reload started and left running (its
    result here), and the reload runs outside the handler's [try]. *)
Definition handleReaction (auth : AuthContext) (postId : uuid)
    (reactionType : Reaction.kind) : Eff State (Eff State unit) :=
  (let* s := get in
   match user auth with
   | None => ret (ret ())
   | Some u =>
       try_catch
         (match existingReaction s postId u with
          | Some existing =>
              if decide (Reaction.reaction_type existing = reactionType)
              then
                let* _ := await DELETE "reactions"
                            (λ _, Db.delete_reaction (user auth)
                                    (Reaction.id existing)) in
                ret ()
              else
                let* _ := await UPDATE "reactions"
                            (λ _, Db.update_reaction (user auth)
                                    (Reaction.id existing) reactionType) in
                ret ()
          | None =>
              let* _ := await INSERT "reactions"
                          (λ now, Db.insert_reaction (user auth) now postId u
                                    reactionType) in
              ret ()
          end;;
          ret (loadPosts auth))
         (λ error, console_error "Error handling reaction:";; ret (ret ()))
   end)%eff.

(** [handleMissYou]: the post's text is a template literal around the
    profile's name and the current time as [toLocaleTimeString] prints it
    for the host's locale data (a parameter here); its last three code
    units are a space and the heart U+2764 U+FE0F.  The columns the row
    leaves out, [image_url] and [song_link], are null. *)
Definition handleMissYou (toLocaleTimeString : Js.LocalFields → Js.JsString)
    (auth : AuthContext) : Eff State unit :=
  (match user auth, profile auth with
   | Some u, Some profile =>
       let* now := new_Date in
       let timeStr := toLocaleTimeString now in
       try_catch
         (let* r := await INSERT "posts"
                      (λ t, Db.insert_post (user auth) t u
                              (Profile.name profile
                               ++ Js.of_ascii " was missing you at "
                               ++ timeStr ++ [32; 10084; 65039]%N)
                              missing None None true) in
          throw_if_error r)
         (λ error, console_error "Error sending miss you:")
   | _, _ => ret ()
   end)%eff.

(** [formatTimestamp(timestamp)], with [now] the time value of
    [new Date()]: both are milliseconds since the epoch, and [Math.floor]
    of a quotient is the floored division. *)
Definition formatTimestamp (now timestamp : Z) : Js.JsString :=
  let diff := now - timestamp in
  let hours := diff `div` (1000 * 60 * 60) in
  let days := hours `div` 24 in
  if 0 <? days then Js.toString days ++ Js.of_ascii "d ago"
  else if 0 <? hours then Js.toString hours ++ Js.of_ascii "h ago"
  else Js.of_ascii "Just now".

End Timeline.

(** ** Diary.tsx *)

Module Diary.

Record State := {
  entries : list DailyDiary.t;
  todayEntry : option DailyDiary.t;
  content : Js.JsString;
  selectedMood : Mood;
  loading : bool;
  saving : bool;
}.

Definition setEntries (v : list DailyDiary.t) (s : State) : State :=
  {| entries := v; todayEntry := todayEntry s; content := content s;
     selectedMood := selectedMood s; loading := loading s; saving := saving s |}.

(** [setTodayEntry(todayData); if (todayData) { setContent(todayData.content);
    setSelectedMood(todayData.mood) }] *)
Definition setTodayEntry (v : option DailyDiary.t) (s : State) : State :=
  {| entries := entries s; todayEntry := v;
     content := from_option DailyDiary.content (content s) v;
     selectedMood := from_option DailyDiary.mood (selectedMood s) v;
     loading := loading s; saving := saving s |}.

Definition setLoading (v : bool) (s : State) : State :=
  {| entries := entries s; todayEntry := todayEntry s; content := content s;
     selectedMood := selectedMood s; loading := v; saving := saving s |}.

(** The text area's [onChange] and the mood buttons' [onClick]. *)
Definition setContent (v : Js.JsString) (s : State) : State :=
  {| entries := entries s; todayEntry := todayEntry s; content := v;
     selectedMood := selectedMood s; loading := loading s; saving := saving s |}.

Definition setSelectedMood (v : Mood) (s : State) : State :=
  {| entries := entries s; todayEntry := todayEntry s; content := content s;
     selectedMood := v; loading := loading s; saving := saving s |}.

Definition setSaving (v : bool) (s : State) : State :=
  {| entries := entries s; todayEntry := todayEntry s; content := content s;
     selectedMood := selectedMood s; loading := loading s; saving := v |}.

(** The relation every query of the page names. *)
Definition table : string := "daily_diary".

(** [new Date().toISOString().split('T')[0]]: the current UTC day. *)
Definition today {S} : Eff S Z := λ w s, (w, s, Returned (Js.Day (clock w))).

Definition ownerFilter (auth : AuthContext) : Db.OwnerFilter :=
  match user auth, partnerProfile auth with
  | Some u, Some p => Db.OwnerIn [u; Profile.id p]
  | Some u, None => Db.OwnerEq u
  | None, _ => Db.NoOwnerFilter
  end.

(** The two handlers, with the relation name that their queries share as a
    parameter [rel]; the page's own are the instances at [table]. *)
Definition loadDiaryEntriesFrom (rel : string) (auth : AuthContext)
    : Eff State unit :=
  (match user auth with
   | None => ret ()
   | Some u =>
       finally
         (try_catch
            (let* day := today in
             let* r := await SELECT rel
                         (λ _, Db.select_diary_of_day (user auth) u day) in
             let todayData := match r with inr row => row | inl _ => None end in
             modify (setTodayEntry todayData);;
             let* r := await SELECT rel
                         (λ _, Db.select_diaries (user auth) (ownerFilter auth)) in
             let* data := throw_if_error r in
             modify (setEntries data))
            (λ error, console_error "Error loading diary:"))
         (modify (setLoading false))
   end)%eff.

Definition handleSaveTo (rel : string) (auth : AuthContext) : Eff State unit :=
  (let* s := get in
   match user auth with
   | None => ret ()
   | Some u =>
       if blank (content s) then ret ()
       else
         modify (setSaving true);;
         finally
           (try_catch
              (let* day := today in
               match todayEntry s with
               | Some entry =>
                   let* r := await UPDATE rel
                               (λ _, Db.update_diary (user auth)
                                       (DailyDiary.id entry) (content s)
                                       (selectedMood s)) in
                   throw_if_error r
               | None =>
                   let* r := await INSERT rel
                               (λ now, Db.insert_diary (user auth) now u day
                                         (content s) (selectedMood s)) in
                   throw_if_error r
               end;;
               loadDiaryEntriesFrom rel auth)
              (λ error, console_error "Error saving diary:"))
           (modify (setSaving false))
   end)%eff.


Definition handleSave : AuthContext → Eff State unit := handleSaveTo table.



End Diary.

(** ** MemoryLane.tsx *)

Module MemoryLane.

Inductive Filter := all | month | happiest.

Record State := {
  memories : list Post.t;
  loading : bool;
  filter : Filter;
}.

Definition setMemories (v : list Post.t) (s : State) : State :=
  {| memories := v; loading := loading s; filter := filter s |}.

Definition setLoading (v : bool) (s : State) : State :=
  {| memories := memories s; loading := v; filter := filter s |}.

Definition ownerFilter (auth : AuthContext) : Db.OwnerFilter :=
  match user auth, partnerProfile auth with
  | Some u, Some p => Db.OwnerIn [u; Profile.id p]
  | _, _ => Db.NoOwnerFilter
  end.

(** [oneMonthAgo.setMonth(oneMonthAgo.getMonth() - 1);
     oneMonthAgo.toISOString().split('T')[0]]: the UTC day of the date so
    moved, as a day number. *)
Definition oneMonthAgoDay (tz : Z → Z) (today : Js.LocalFields) : Z :=
  Js.Day (Js.TimeValue tz (Js.setMonth (Js.month today - 1) today)).

(** The instants that [day + 'T00:00:00'] and [day + 'T23:59:59'] name
    (the backend reads them in UTC). *)
Definition startOfDay (day : Z) : Z := Js.MakeDate day 0.
Definition lastSecondOfDay (day : Z) : Z :=
  Js.MakeDate day ((23 * 3600 + 59 * 60 + 59) * 1000).

Definition query (f : Filter) (auth : AuthContext) (tz : Z → Z)
    (today : Js.LocalFields) : Db.PostsQuery :=
  match f with
  | month =>
      let oneMonthAgo := oneMonthAgoDay tz today in
      {| Db.owner := ownerFilter auth;
         Db.created_gte := Some (startOfDay oneMonthAgo);
         Db.created_lte := Some (lastSecondOfDay oneMonthAgo);
         Db.mood_in := None; Db.row_limit := None |}
  | happiest =>
      {| Db.owner := ownerFilter auth;
         Db.created_gte := None; Db.created_lte := None;
         Db.mood_in := Some [happy; love; excited];
         Db.row_limit := Some 20%nat |}
  | all =>
      {| Db.owner := ownerFilter auth;
         Db.created_gte := None; Db.created_lte := None;
         Db.mood_in := None; Db.row_limit := Some 50%nat |}
  end.

Definition loadMemories (auth : AuthContext) : Eff State unit :=
  (match user auth with
   | None => ret ()
   | Some _ =>
       finally
         (try_catch
            (let* s := get in
             let* d := new_Date in
             let* tz := LocalTZA in
             let* r := await SELECT "posts"
                         (λ _, Db.select_posts (user auth)
                                 (query (filter s) auth tz d)) in
             let* data := throw_if_error r in
             modify (setMemories data))
            (λ error, console_error "Error loading memories:"))
         (modify (setLoading false))
   end)%eff.

(** [`${n} unit${n > 1 ? 's' : ''} ago`] *)
Definition ago (n : Z) (unit : string) : Js.JsString :=
  Js.toString n ++ Js.of_ascii " " ++ Js.of_ascii unit
  ++ (if 1 <? n then Js.of_ascii "s" else []) ++ Js.of_ascii " ago".

(** [getTimeAgo(timestamp)], with [now] the time value of [new Date()]. *)
Definition getTimeAgo (now timestamp : Z) : Js.JsString :=
  let diffMs := now - timestamp in
  let diffDays := diffMs `div` (1000 * 60 * 60 * 24) in
  let diffMonths := diffDays `div` 30 in
  let diffYears := diffDays `div` 365 in
  if 0 <? diffYears then ago diffYears "year"
  else if 0 <? diffMonths then ago diffMonths "month"
  else if 0 <? diffDays then ago diffDays "day"
  else Js.of_ascii "Today".

End MemoryLane.

(** ** Playlist.tsx *)

Module Playlist.

Record State := {
  songs : list PlaylistItem.t;
  loading : bool;
  showAddForm : bool;
  songTitle : Js.JsString;
  songUrl : Js.JsString;
  saving : bool;
}.

Definition setSongs (v : list PlaylistItem.t) (s : State) : State :=
  {| songs := v; loading := loading s; showAddForm := showAddForm s;
     songTitle := songTitle s; songUrl := songUrl s; saving := saving s |}.

Definition setLoading (v : bool) (s : State) : State :=
  {| songs := songs s; loading := v; showAddForm := showAddForm s;
     songTitle := songTitle s; songUrl := songUrl s; saving := saving s |}.

Definition setSaving (v : bool) (s : State) : State :=
  {| songs := songs s; loading := loading s; showAddForm := showAddForm s;
     songTitle := songTitle s; songUrl := songUrl s; saving := v |}.

(** [setSongTitle(''); setSongUrl(''); setShowAddForm(false)] *)
Definition resetForm (s : State) : State :=
  {| songs := songs s; loading := loading s; showAddForm := false;
     songTitle := []; songUrl := []; saving := saving s |}.

Definition loadPlaylist (auth : AuthContext) : Eff State unit :=
  (finally
     (try_catch
        (let* r := await SELECT "playlist" (λ _, Db.select_playlist (user auth)) in
         let* data := throw_if_error r in
         modify (setSongs data))
        (λ error, console_error "Error loading playlist:"))
     (modify (setLoading false)))%eff.

Definition handleAddSong (auth : AuthContext) : Eff State unit :=
  (let* s := get in
   match user auth with
   | None => ret ()
   | Some u =>
       if blank (songTitle s) || blank (songUrl s) then ret ()
       else
         modify (setSaving true);;
         finally
           (try_catch
              (let* r := await INSERT "playlist"
                           (λ now, Db.insert_song (user auth) now u
                                     (songTitle s) (songUrl s)) in
               throw_if_error r;;
               modify resetForm)
              (λ error, console_error "Error adding song:"))
           (modify (setSaving false))
   end)%eff.

Definition handleDeleteSong (auth : AuthContext) (songId songUserId : uuid)
    : Eff State unit :=
  (if decide (user auth = Some songUserId)
   then
     try_catch
       (let* r := await DELETE "playlist"
                    (λ _, Db.delete_song (user auth) songId) in
        throw_if_error r)
       (λ error, console_error "Error deleting song:")
   else ret ())%eff.

End Playlist.

(** ** Photos.tsx *)

Module Photos.

Record State := {
  photos : list Photo.t;
  loading : bool;
  showAddForm : bool;
  photoUrl : Js.JsString;
  caption : Js.JsString;
  saving : bool;
  selectedPhoto : option Photo.t;
}.

Definition setPhotos (v : list Photo.t) (s : State) : State :=
  {| photos := v; loading := loading s; showAddForm := showAddForm s;
     photoUrl := photoUrl s; caption := caption s; saving := saving s;
     selectedPhoto := selectedPhoto s |}.

Definition setLoading (v : bool) (s : State) : State :=
  {| photos := photos s; loading := v; showAddForm := showAddForm s;
     photoUrl := photoUrl s; caption := caption s; saving := saving s;
     selectedPhoto := selectedPhoto s |}.

Definition setSaving (v : bool) (s : State) : State :=
  {| photos := photos s; loading := loading s; showAddForm := showAddForm s;
     photoUrl := photoUrl s; caption := caption s; saving := v;
     selectedPhoto := selectedPhoto s |}.

(** [setPhotoUrl(''); setCaption(''); setShowAddForm(false)] *)
Definition resetForm (s : State) : State :=
  {| photos := photos s; loading := loading s; showAddForm := false;
     photoUrl := []; caption := []; saving := saving s;
     selectedPhoto := selectedPhoto s |}.

Definition loadPhotos (auth : AuthContext) : Eff State unit :=
  (finally
     (try_catch
        (let* r := await SELECT "photos" (λ _, Db.select_photos (user auth)) in
         let* data := throw_if_error r in
         modify (setPhotos data))
        (λ error, console_error "Error loading photos:"))
     (modify (setLoading false)))%eff.

Definition handleAddPhoto (auth : AuthContext) : Eff State unit :=
  (let* s := get in
   match user auth with
   | None => ret ()
   | Some u =>
       if blank (photoUrl s) then ret ()
       else
         modify (setSaving true);;
         finally
           (try_catch
              (let* r := await INSERT "photos"
                           (λ now, Db.insert_photo (user auth) now u
                                     (photoUrl s) (Js.or_null (caption s))) in
               throw_if_error r;;
               modify resetForm;;
               loadPhotos auth)
              (λ error, console_error "Error adding photo:"))
           (modify (setSaving false))
   end)%eff.

(** [if (user?.id !== photoUserId) return;] and then the delete. *)
Definition handleDeletePhoto (auth : AuthContext) (photoId photoUserId : uuid)
    : Eff State unit :=
  (if decide (user auth = Some photoUserId)
   then
     try_catch
       (let* r := await DELETE "photos"
                    (λ _, Db.delete_photo (user auth) photoId) in
        throw_if_error r;;
        loadPhotos auth)
       (λ error, console_error "Error deleting photo:")
   else ret ())%eff.

End Photos.

(** ** Quotes.tsx *)

Module Quotes.

Record State := {
  quotes : list Quote.t;
  loading : bool;
  showAddForm : bool;
  quoteText : Js.JsString;
  saving : bool;
}.

Definition setSaving (v : bool) (s : State) : State :=
  {| quotes := quotes s; loading := loading s; showAddForm := showAddForm s;
     quoteText := quoteText s; saving := v |}.

Definition setQuotes (v : list Quote.t) (s : State) : State :=
  {| quotes := v; loading := loading s; showAddForm := showAddForm s;
     quoteText := quoteText s; saving := saving s |}.

Definition setLoading (v : bool) (s : State) : State :=
  {| quotes := quotes s; loading := v; showAddForm := showAddForm s;
     quoteText := quoteText s; saving := saving s |}.

(** [setQuoteText(''); setShowAddForm(false)] *)
Definition resetForm (s : State) : State :=
  {| quotes := quotes s; loading := loading s; showAddForm := false;
     quoteText := []; saving := saving s |}.

Definition handleAddQuote (auth : AuthContext) : Eff State unit :=
  (let* s := get in
   match user auth with
   | None => ret ()
   | Some u =>
       if blank (quoteText s) then ret ()
       else
         modify (setSaving true);;
         finally
           (try_catch
              (let* r := await INSERT "quotes"
                           (λ now, Db.insert_quote (user auth) now u
                                     (quoteText s)) in
               throw_if_error r;;
               modify resetForm)
              (λ error, console_error "Error adding quote:"))
           (modify (setSaving false))
   end)%eff.

(** The ids of the quotes of [data] that another user wrote and that are
    not read yet. *)
Definition unreadIds (u : uuid) (data : list Quote.t) : list uuid :=
  Quote.id <$>
    base.filter (λ quote, Quote.user_id quote ≠ u ∧ Quote.is_read quote = false) data.

Definition loadQuotes (auth : AuthContext) : Eff State unit :=
  (finally
     (try_catch
        (let* r := await SELECT "quotes" (λ _, Db.select_quotes (user auth)) in
         let* data := throw_if_error r in
         modify (setQuotes data);;
         match user auth with
         | Some u =>
             if bool_decide (0 < length (unreadIds u data))%nat
             then
               let* _ := await UPDATE "quotes"
                           (λ _, Db.mark_quotes_read (user auth) (unreadIds u data)) in
               ret ()
             else ret ()
         | None => ret ()
         end)
        (λ error, console_error "Error loading quotes:"))
     (modify (setLoading false)))%eff.

End Quotes.

(** ** Chat.tsx *)

Module Chat.

Record State := {
  messages : list ChatMessage.t;
  newMessage : Js.JsString;
  loading : bool;
}.

Definition setNewMessage (v : Js.JsString) (s : State) : State :=
  {| messages := messages s; newMessage := v; loading := loading s |}.

Definition setMessages (v : list ChatMessage.t) (s : State) : State :=
  {| messages := v; newMessage := newMessage s; loading := loading s |}.

Definition setLoading (v : bool) (s : State) : State :=
  {| messages := messages s; newMessage := newMessage s; loading := v |}.

Definition handleSendMessage (auth : AuthContext) : Eff State unit :=
  (let* s := get in
   match user auth with
   | None => ret ()
   | Some u =>
       if blank (newMessage s) then ret ()
       else
         try_catch
           (let* r := await INSERT "chat_messages"
                        (λ now, Db.insert_chat_message (user auth) now u
                                  (newMessage s)) in
            throw_if_error r;;
            modify (setNewMessage []))
           (λ error, console_error "Error sending message:")
   end)%eff.

(** The ids of the messages of [data] that another user sent and that are
    not read yet. *)
Definition unreadIds (u : uuid) (data : list ChatMessage.t) : list uuid :=
  ChatMessage.id <$>
    base.filter (λ msg, ChatMessage.sender_id msg ≠ u ∧ ChatMessage.is_read msg = false)
      data.

Definition loadMessages (auth : AuthContext) : Eff State unit :=
  (finally
     (try_catch
        (let* r := await SELECT "chat_messages"
                     (λ _, Db.select_chat_messages (user auth)) in
         let* data := throw_if_error r in
         modify (setMessages data);;
         match user auth with
         | Some u =>
             if bool_decide (0 < length (unreadIds u data))%nat
             then
               let* _ := await UPDATE "chat_messages"
                           (λ _, Db.mark_messages_read (user auth)
                                   (unreadIds u data)) in
               ret ()
             else ret ()
         | None => ret ()
         end)
        (λ error, console_error "Error loading messages:"))
     (modify (setLoading false)))%eff.

End Chat.

(** ** MoodTracker.tsx: the page's state and its loader *)

Module MoodTrackerPage.

Inductive TimeRange := week | month.

Record State := {
  myMoods : list MoodTracker.MoodStats;
  partnerMoods : list MoodTracker.MoodStats;
  loading : bool;
  timeRange : TimeRange;
}.

Definition setMyMoods (v : list MoodTracker.MoodStats) (s : State) : State :=
  {| myMoods := v; partnerMoods := partnerMoods s; loading := loading s;
     timeRange := timeRange s |}.

Definition setPartnerMoods (v : list MoodTracker.MoodStats) (s : State) : State :=
  {| myMoods := myMoods s; partnerMoods := v; loading := loading s;
     timeRange := timeRange s |}.

Definition setLoading (v : bool) (s : State) : State :=
  {| myMoods := myMoods s; partnerMoods := partnerMoods s; loading := v;
     timeRange := timeRange s |}.

(** [res.data || []] *)
Definition data_or_empty {A} (res : Db.PgError + list A) : list A :=
  match res with
  | inr data => data
  | inl _ => []
  end.

(** The moods of the posts and of the diary entries of user [who] since
    [startDate]: the two queries go out together ([Promise.all]), the one
    for the posts first, and neither throws. *)
Definition allMoods (auth : AuthContext) (who : uuid) (startDate : Z)
    : Eff State (list Mood) :=
  (let* postsRes := await SELECT "posts"
                      (λ _, Db.select_post_moods (user auth) who startDate) in
   let* diaryRes := await SELECT "daily_diary"
                      (λ _, Db.select_diary_moods (user auth) who startDate) in
   ret (data_or_empty postsRes ++ data_or_empty diaryRes))%eff.

Definition loadMoodData (auth : AuthContext) : Eff State unit :=
  (match user auth with
   | None => ret ()
   | Some u =>
       finally
         (try_catch
            (let* s := get in
             let daysAgo := match timeRange s with week => 7 | month => 30 end in
             let* d := new_Date in
             let* tz := LocalTZA in
             let startDate :=
               Js.TimeValue tz (Js.setDate (Js.date d - daysAgo) d) in
             let* myAllMoods := allMoods auth u startDate in
             modify (setMyMoods (MoodTracker.calculateMoodStats myAllMoods));;
             match partnerProfile auth with
             | Some p =>
                 let* partnerAllMoods := allMoods auth (Profile.id p) startDate in
                 modify (setPartnerMoods
                           (MoodTracker.calculateMoodStats partnerAllMoods))
             | None => ret ()
             end)
            (λ error, console_error "Error loading mood data:"))
         (modify (setLoading false))
   end)%eff.

End MoodTrackerPage.

(** ** AuthContext.tsx *)

Module AuthProvider.

Record State := {
  user : option uuid;
  profile : option Profile.t;
  partnerProfile : option Profile.t;
  loading : bool;
}.

Definition setProfile (v : option Profile.t) (s : State) : State :=
  {| user := user s; profile := v; partnerProfile := partnerProfile s;
     loading := loading s |}.

Definition setPartnerProfile (v : option Profile.t) (s : State) : State :=
  {| user := user s; profile := profile s; partnerProfile := v;
     loading := loading s |}.

Definition setLoading (v : bool) (s : State) : State :=
  {| user := user s; profile := profile s; partnerProfile := partnerProfile s;
     loading := v |}.

(** [loadProfile(userId)], sent under the session [session] that the
    client holds (the provider calls it with the session's own user). *)
Definition loadProfile (session : option uuid) (userId : uuid) : Eff State unit :=
  (finally
     (try_catch
        (let* r := await SELECT "profiles"
                     (λ _, Db.select_profile session userId) in
         let* profileData := throw_if_error r in
         modify (setProfile profileData);;
         match profileData ≫= Profile.partner_id with
         | Some partner_id =>
             let* r := await SELECT "profiles"
                         (λ _, Db.select_profile session partner_id) in
             let partnerData := match r with inr row => row | inl _ => None end in
             modify (setPartnerProfile partnerData)
         | None => ret ()
         end)
        (λ error, console_error "Error loading profile:"))
     (modify (setLoading false)))%eff.

(** [signUp], from the answer [dataUser] of [supabase.auth.signUp] on (an
    answer with an error has been thrown before):
    [if (data.user) { insert the profile; if (profileError) throw profileError }]. *)
Definition signUpProfile (session : option uuid) (dataUser : option uuid)
    (name : Js.JsString) : Eff State unit :=
  (match dataUser with
   | Some id =>
       let* r := await INSERT "profiles"
                   (λ now, Db.insert_profile session now id name) in
       throw_if_error r
   | None => ret ()
   end)%eff.

End AuthProvider.

(** ** App.tsx and Layout.tsx: navigation *)

Module App.

(** The page components of [src/pages]. *)
Inductive Page :=
  | ShowTimeline | ShowDiary | ShowMoodTracker | ShowMemoryLane
  | ShowPlaylist | ShowChat | ShowPhotos | ShowQuotes.

(** [renderPage()]: a [switch] on [currentPage]. *)
Definition renderPage (currentPage : string) : Page :=
  if String.eqb currentPage "timeline" then ShowTimeline
  else if String.eqb currentPage "diary" then ShowDiary
  else if String.eqb currentPage "mood" then ShowMoodTracker
  else if String.eqb currentPage "memory" then ShowMemoryLane
  else if String.eqb currentPage "playlist" then ShowPlaylist
  else if String.eqb currentPage "chat" then ShowChat
  else if String.eqb currentPage "photos" then ShowPhotos
  else ShowTimeline.

End App.

Module Layout.

(** The [id] and the [label] of the entries of [navItems]; a click on an
    entry navigates to its [id]. *)
Definition navItems : list (string * string) :=
  [("timeline", "Timeline"); ("diary", "Diary"); ("mood", "Mood");
   ("memory", "Memory"); ("playlist", "Playlist"); ("chat", "Chat");
   ("photos", "Photos")].

End Layout.

(** ** Notions the statements use *)

(** [x] stands before [y] in an array sorted by [cmp]: the comparator puts
    it first, or it ties and [x] stood first in the array that was sorted. *)
Definition sorted_before {A} (cmp : A → A → Z) (before : A → A → Prop)
    (x y : A) : Prop :=
  cmp x y < 0 ∨ (cmp x y = 0 ∧ before x y).

(** Position of the first occurrence of [x] in [l] ([length l] when there
    is none). *)
Fixpoint first_index `{EqDecision A} (x : A) (l : list A) : nat :=
  match l with
  | [] => 0%nat
  | y :: l' => if decide (y = x) then 0%nat else S (first_index x l')
  end.

(** How often [x] occurs in [l]. *)
Definition occurrences `{EqDecision A} (x : A) (l : list A) : nat :=
  length (filter (eq x) l).

Fixpoint sumQ (l : list Q) : Q :=
  match l with
  | [] => 0%Q
  | q :: l' => (q + sumQ l')%Q
  end.

(** The real number that a finite Number is: its mantissa times two to its
    exponent, with its sign (and 0 for what is not a finite number). *)
Definition value (x : Js.Number) : Q :=
  match x with
  | SpecFloat.S754_finite s m e =>
      ((if s then inject_Z (Z.neg m) else inject_Z (Z.pos m)) * 2 ^ e)%Q
  | _ => 0%Q
  end.

(** The exact share [count / total * 100]. *)
Definition share (count total : nat) : Q :=
  (inject_Z (Z.of_nat count) / inject_Z (Z.of_nat total) * 100)%Q.

(** [v] is away from [X] by at most the part [ε] of [X]. *)
Definition within (ε X v : Q) : Prop := (X * (1 - ε) <= v <= X * (1 + ε))%Q.

(** What two roundings to 53 bits in a row may add up to: with
    [u = 2^-53], the part [(1 + u)^2 - 1 = 2^-52 + 2^-106]. *)
Definition rounding : Q := (1 # 2 ^ 52) + (1 # 2 ^ 106).

(** The mantissa [m] of a number being shifted to the right, with its
    round and sticky bits, locates the fraction [a / b] that the number
    stands for: [m ≤ a / b < m + 1], the round bit tells whether the rest
    is a half or more, and the sticky bit whether it is neither nothing nor
    a half. *)
Definition located (mrs : SpecFloat.shr_record) (a b : Z) : Prop :=
  let m := SpecFloat.shr_m mrs in
  0 ≤ m ∧ 0 < b ∧ m * b ≤ a < (m + 1) * b
  ∧ (SpecFloat.shr_r mrs = true ↔ b ≤ 2 * (a - m * b))
  ∧ (SpecFloat.shr_s mrs = true ↔ a - m * b ≠ 0 ∧ 2 * (a - m * b) ≠ b).

(** [t] holds the tally of [l]: one entry per mood of [l], with the number
    of its occurrences, in the order in which the moods first occur. *)
Definition tally_of (l : list Mood) (t : list (Mood * nat)) : Prop :=
  NoDup t.*1
  ∧ (∀ m c, (m, c) ∈ t → c = occurrences m l ∧ m ∈ l)
  ∧ (∀ m, m ∈ l → m ∈ t.*1)
  ∧ StronglySorted (λ a b, (first_index a.1 l < first_index b.1 l)%nat) t.

(** What a handler leaves behind when run in world [w] on the page state
    [s]. *)
Definition world_after {S A} (m : Eff S A) (w : World) (s : S) : World :=
  (m w s).1.1.

Definition state_after {S A} (m : Eff S A) (w : World) (s : S) : S :=
  (m w s).1.2.

Definition outcome_of {S A} (m : Eff S A) (w : World) (s : S) : Outcome A :=
  (m w s).2.

(** A handler as a step from a world and a page to the next. *)
Definition step {S A} (m : Eff S A) (ws : World * S) : World * S := (m ws.1 ws.2).1.

(** The rows the two queries of [loadPosts] resolve to on the rows [d], and
    the page once both have resolved. *)
Definition loadedPosts (auth : AuthContext) (f : Timeline.Filter)
    (d : Db.Database) : list Post.t :=
  Db.order false Post.created_at
    (Db.select (Db.post_visible d (user auth))
       (Db.post_matches
          {| Db.owner := Timeline.ownerFilter f auth;
             Db.created_gte := None; Db.created_lte := None;
             Db.mood_in := None; Db.row_limit := None |})
       (Db.posts d)).

Definition loadedReactions (auth : AuthContext) (postIds : list uuid)
    (d : Db.Database) : list Reaction.t :=
  Db.select (Db.reaction_visible d (user auth))
    (λ r, bool_decide (Reaction.post_id r ∈ postIds)) (Db.reactions d).

Definition loaded (auth : AuthContext) (d : Db.Database) (s : Timeline.State)
    : Timeline.State :=
  let data := loadedPosts auth (Timeline.filter s) d in
  Timeline.setLoading false
    (Timeline.setReactions
       (Timeline.reactionsByPost (loadedReactions auth (Post.id <$> data) d))
       (Timeline.setPosts data s)).

(** The timeline shows what the backend holds: loading again would change
    nothing on the page. *)
Definition current (auth : AuthContext) (w : World) (s : Timeline.State) : Prop :=
  loaded auth (db w) s = s.

(** The reactions of user [c] on post [p]. *)
Definition reactionsOf (p c : uuid) (d : Db.Database) : list Reaction.t :=
  filter (λ r, Db.reaction_key r = (p, c)) (Db.reactions d).

(** The rows after the one statement [handleReaction] sends, given the
    reaction it found on the page; a statement that fails changes nothing. *)
Definition reactionStatement (session : option uuid) (now : Z)
    (existing : option Reaction.t) (p c : uuid) (k : Reaction.kind)
    (d : Db.Database) : Db.Database :=
  let result :=
    match existing with
    | Some e =>
        if decide (Reaction.reaction_type e = k)
        then Db.delete_reaction session (Reaction.id e) d
        else Db.update_reaction session (Reaction.id e) k d
    | None => Db.insert_reaction session now p c k d
    end in
  match result with
  | inr (d', _) => d'
  | inl _ => d
  end.

(** What a toggle of kind [k] by user [c] on post [p] is to leave of [c]'s
    reactions on [p]: a new reaction of kind [k] when there was none, none
    when there was one of kind [k], and the same reaction with kind [k]
    when there was one of another kind. *)
Definition toggled (p c : uuid) (k : Reaction.kind) (w : World) : list Reaction.t :=
  match reactionsOf p c (db w) with
  | [] =>
      [{| Reaction.id := Db.gen_random_uuid (Reaction.id <$> Db.reactions (db w));
          Reaction.post_id := p; Reaction.user_id := c;
          Reaction.reaction_type := k; Reaction.created_at := clock w |}]
  | e :: _ =>
      if decide (Reaction.reaction_type e = k) then []
      else [Db.set_reaction_type k e]
  end.

(** User [c] is signed in and has a profile, the backend is in reach and
    its reactions satisfy the table's PRIMARY KEY and UNIQUE constraints,
    and the timeline is current and shows post [p]. *)
Definition on_page (auth : AuthContext) (c p : uuid) (ws : World * Timeline.State)
    : Prop :=
  user auth = Some c
  ∧ network_up ws.1 = true
  ∧ c ∈ Profile.id <$> Db.profiles (db ws.1)
  ∧ NoDup (Reaction.id <$> Db.reactions (db ws.1))
  ∧ NoDup (Db.reaction_key <$> Db.reactions (db ws.1))
  ∧ current auth ws.1 ws.2
  ∧ p ∈ Post.id <$> Timeline.posts ws.2.

(** The diary entries of user [u] for the day [day]. *)
Definition entriesOf (u : uuid) (day : Z) (d : Db.Database) : list DailyDiary.t :=
  filter (λ r, Db.diary_key r = (u, day)) (Db.daily_diaries d).

(** The user writes and saves one entry after the other, the handlers
    naming the relation [rel]: each input is typed into the form and
    saved. *)
Definition savesTo (rel : string) (auth : AuthContext)
    (inputs : list (Js.JsString * Mood)) (ws : World * Diary.State)
    : World * Diary.State :=
  foldl (λ ws i,
           step (Diary.handleSaveTo rel auth)
             (ws.1, Diary.setSelectedMood i.2 (Diary.setContent i.1 ws.2)))
        ws inputs.

(** User [u] is signed in and has a profile, the backend is in reach and
    its diary entries satisfy the table's PRIMARY KEY and UNIQUE
    constraints, and the page holds today's entry as the backend has it. *)
Definition diary_ready (auth : AuthContext) (u : uuid)
    (ws : World * Diary.State) : Prop :=
  user auth = Some u
  ∧ network_up ws.1 = true
  ∧ u ∈ Profile.id <$> Db.profiles (db ws.1)
  ∧ NoDup (DailyDiary.id <$> Db.daily_diaries (db ws.1))
  ∧ NoDup (Db.diary_key <$> Db.daily_diaries (db ws.1))
  ∧ Diary.todayEntry ws.2 = head (entriesOf u (Js.Day (clock ws.1)) (db ws.1)).

(** The month before the one of [f], with its year. *)
Definition previousMonth (f : Js.LocalFields) : Z * Z :=
  if Js.month f =? 0 then (Js.year f - 1, 11) else (Js.year f, Js.month f - 1).

(** By how many days the UTC day of a wall-clock time [t] (milliseconds
    into the local day) under the offset [z'] lies after its UTC day under
    the offset [z]. *)
Definition dayShift (t z z' : Z) : Z :=
  (t - z') `div` Js.msPerDay - (t - z) `div` Js.msPerDay.

(** The ids of the rows of [data] that another user than [u] owns and that
    are not read yet: what the chat and the quotes mark when they load. *)
Definition unreadOf {Row} (id owner : Row → uuid) (is_read : Row → bool)
    (u : uuid) (data : list Row) : list uuid :=
  id <$> filter (λ r, owner r ≠ u ∧ is_read r = false) data.

(** The row [r] once user [u], whose partners are [partners], has loaded
    the page: read, when it is a partner's row and not [u]'s own. *)
Definition markRead {Row} (owner : Row → uuid) (set_read : Row → Row)
    (partners : list uuid) (u : uuid) (r : Row) : Row :=
  if decide (owner r ∈ partners ∧ owner r ≠ u) then set_read r else r.

(** The chat message [r] once user [u] has loaded the chat on the rows [d]:
    read, when [u]'s partner sent it. *)
Definition receivedRead (d : Db.Database) (u : uuid) : ChatMessage.t → ChatMessage.t :=
  markRead ChatMessage.sender_id Db.set_message_read (Db.partner_ids d u) u.

(** The quote [r] once user [u] has loaded the quotes on the rows [d]:
    read, when it carries the id of [u]'s partner. *)
Definition quoteRead (d : Db.Database) (u : uuid) : Quote.t → Quote.t :=
  markRead Quote.user_id Db.set_quote_read (Db.partner_ids d u) u.

(** The profile row of user [x], if the backend has one. *)
Definition profileOf (d : Db.Database) (x : uuid) : option Profile.t :=
  head (filter (λ r, Profile.id r = x) (Db.profiles d)).

(** ** A couple, for the examples *)

Module Example.

(** Alice (1) and Bob (2) are linked to each other; Carol (3) has no
    partner. *)
Definition alice : Profile.t :=
  {| Profile.id := 1; Profile.name := Js.of_ascii "Alice";
     Profile.partner_id := Some 2%nat; Profile.created_at := 0 |}.

Definition bob : Profile.t :=
  {| Profile.id := 2; Profile.name := Js.of_ascii "Bob";
     Profile.partner_id := Some 1%nat; Profile.created_at := 0 |}.

Definition carol : Profile.t :=
  {| Profile.id := 3; Profile.name := Js.of_ascii "Carol";
     Profile.partner_id := None; Profile.created_at := 0 |}.

(** 15 March 2025, noon. *)
Definition noon_15_march_2025 : Js.LocalFields :=
  {| Js.year := 2025; Js.month := 2; Js.date := 15; Js.timeInDay := 43200000 |}.

Definition post (id user_id : uuid) (text : string) (created_at : Z) : Post.t :=
  {| Post.id := id; Post.user_id := user_id; Post.content := Js.of_ascii text;
     Post.mood := happy; Post.image_url := None; Post.song_link := None;
     Post.is_miss_you := false; Post.created_at := created_at |}.

(** Bob posted on 13 February (at 1739448000000), on 15 February (at
    1739620800000) and on 14 March 2025; Carol on 14 March. *)
Definition database : Db.Database :=
  {| Db.profiles := [alice; bob; carol];
     Db.posts := [post 10 2 "snow" 1739448000000;
                  post 11 2 "thaw" 1739620800000;
                  post 12 2 "spring" 1741953600000;
                  post 13 3 "alone" 1741953600000];
     Db.reactions := [];
     Db.photos :=
       [{| Photo.id := 20; Photo.user_id := 2;
           Photo.photo_url := Js.of_ascii "https://example.org/b.jpg";
           Photo.caption := None; Photo.uploaded_at := 1741953600000 |}];
     Db.playlist :=
       [{| PlaylistItem.id := 30; PlaylistItem.user_id := 2;
           PlaylistItem.song_title := Js.of_ascii "Song";
           PlaylistItem.song_url := Js.of_ascii "https://example.org/s";
           PlaylistItem.added_at := 1741953600000 |}];
     Db.daily_diaries := []; Db.quotes := []; Db.chat_messages := [] |}.

Definition world : World :=
  {| db := database; now := noon_15_march_2025; tza := 0; zone := λ _, 0;
     network_up := true; requests := []; console := [] |}.

Definition offline : World :=
  {| db := database; now := noon_15_march_2025; tza := 0; zone := λ _, 0;
     network_up := false; requests := []; console := [] |}.

Definition as_alice : AuthContext :=
  {| user := Some 1%nat; profile := Some alice; partnerProfile := Some bob |}.

Definition as_carol : AuthContext :=
  {| user := Some 3%nat; profile := Some carol; partnerProfile := None |}.

(** A timeline that has loaded nothing yet, with [text] typed into the
    post form. *)
Definition timeline (f : Timeline.Filter) (text : string) : Timeline.State :=
  {| Timeline.posts := []; Timeline.filter := f;
     Timeline.newPost := Js.of_ascii text; Timeline.selectedMood := happy;
     Timeline.imageUrl := []; Timeline.songLink := [];
     Timeline.showPostForm := true; Timeline.loading := true;
     Timeline.reactions := ∅ |}.

Definition playlistPage (title url : string) : Playlist.State :=
  {| Playlist.songs := []; Playlist.loading := false;
     Playlist.showAddForm := true; Playlist.songTitle := Js.of_ascii title;
     Playlist.songUrl := Js.of_ascii url; Playlist.saving := false |}.

Definition photosPage (url : string) : Photos.State :=
  {| Photos.photos := []; Photos.loading := false; Photos.showAddForm := true;
     Photos.photoUrl := Js.of_ascii url; Photos.caption := [];
     Photos.saving := false; Photos.selectedPhoto := None |}.

Definition quotesPage (text : string) : Quotes.State :=
  {| Quotes.quotes := []; Quotes.loading := false; Quotes.showAddForm := true;
     Quotes.quoteText := Js.of_ascii text; Quotes.saving := false |}.

Definition chatPage (text : string) : Chat.State :=
  {| Chat.messages := []; Chat.newMessage := Js.of_ascii text;
     Chat.loading := false |}.

Definition diaryPage (text : string) : Diary.State :=
  {| Diary.entries := []; Diary.todayEntry := None;
     Diary.content := Js.of_ascii text; Diary.selectedMood := happy;
     Diary.loading := false; Diary.saving := false |}.

Definition memoryLane (f : MemoryLane.Filter) : MemoryLane.State :=
  {| MemoryLane.memories := []; MemoryLane.loading := true;
     MemoryLane.filter := f |}.

Definition as_bob : AuthContext :=
  {| user := Some 2%nat; profile := Some bob; partnerProfile := Some alice |}.

Definition message (id sender_id : uuid) (text : string) (sent_at : Z)
    : ChatMessage.t :=
  {| ChatMessage.id := id; ChatMessage.sender_id := sender_id;
     ChatMessage.message := Js.of_ascii text; ChatMessage.is_read := false;
     ChatMessage.sent_at := sent_at |}.

Definition quote (id user_id : uuid) (text : string) (created_at : Z) : Quote.t :=
  {| Quote.id := id; Quote.user_id := user_id;
     Quote.quote_text := Js.of_ascii text; Quote.is_read := false;
     Quote.created_at := created_at |}.

(** The couple has exchanged two messages, and there is a quote under each
    one's id; nothing has been read. *)
Definition writing : World :=
  with_db
    (Db.with_quotes
       (Db.with_chat_messages database
          [message 40 2 "hi" 1741953600000; message 41 1 "hello" 1741953700000])
       [quote 50 2 "xo" 1741953600000; quote 51 1 "ox" 1741953700000])
    world.


(** The offset of New York's local time in the first half of 2025: five
    hours behind UTC until 9 March, 02:00 local time (the local time value
    1741485600000), four hours from then on. *)
Definition eastern (t : Z) : Z :=
  if t <? 1741485600000 then -18000000 else -14400000.

(** New York on 15 March 2025 at 19:30, which is 23:30 UTC. *)
Definition newYork : World :=
  {| db := database;
     now := {| Js.year := 2025; Js.month := 2; Js.date := 15;
               Js.timeInDay := 70200000 |};
     tza := -14400000; zone := eastern; network_up := true; requests := [];
     console := [] |}.

Definition chat : Chat.State :=
  {| Chat.messages := []; Chat.newMessage := []; Chat.loading := true |}.

Definition moods (r : MoodTrackerPage.TimeRange) : MoodTrackerPage.State :=
  {| MoodTrackerPage.myMoods := []; MoodTrackerPage.partnerMoods := [];
     MoodTrackerPage.loading := true; MoodTrackerPage.timeRange := r |}.

Definition provider : AuthProvider.State :=
  {| AuthProvider.user := Some 1%nat; AuthProvider.profile := None;
     AuthProvider.partnerProfile := None; AuthProvider.loading := true |}.

End Example.

(** * Lemmas *)

(** ** [Array.prototype.sort] *)

Lemma sort_insert_perm {A} (cmp : A → A → Z) x l :
  Js.sort_insert cmp x l ≡ₚ x :: l.
Proof.
  induction l as [|y l IH]; simpl; [done|].
  destruct (cmp x y <=? 0); [done|].
  rewrite IH. apply Permutation_swap.
Qed.

Lemma sort_perm {A} (cmp : A → A → Z) l : Js.sort cmp l ≡ₚ l.
Proof.
  induction l as [|x l IH]; simpl; [done|].
  by rewrite sort_insert_perm, IH.
Qed.

Lemma sort_elem_of {A} (cmp : A → A → Z) l x : x ∈ Js.sort cmp l ↔ x ∈ l.
Proof. by rewrite sort_perm. Qed.

Section sort_stable.
Context {A : Type} (cmp : A → A → Z) (before : A → A → Prop).
Hypothesis cmp_anti : ∀ x y, cmp y x = - cmp x y.
Hypothesis cmp_trans : ∀ x y z, cmp x y ≤ 0 → cmp y z ≤ 0 → cmp x z ≤ 0.

Lemma sort_insert_stable x l :
  StronglySorted (sorted_before cmp before) l →
  Forall (before x) l →
  StronglySorted (sorted_before cmp before) (Js.sort_insert cmp x l).
Proof using cmp_anti cmp_trans.
  induction 1 as [|y l Hl IH Hy]; intros Hx; simpl.
  { repeat constructor. }
  apply Forall_cons in Hx as [Hxy Hxl].
  destruct (Z.leb_spec (cmp x y) 0) as [Hle|Hgt].
  - constructor; [by constructor|].
    constructor.
    + unfold sorted_before. destruct (decide (cmp x y = 0)); [by right|left; lia].
    + rewrite Forall_forall in Hy, Hxl |- *. intros z Hz.
      assert (cmp x z ≤ 0) as Hxz.
      { apply cmp_trans with y; [done|].
        destruct (Hy z Hz) as [?|[? _]]; lia. }
      unfold sorted_before.
      destruct (decide (cmp x z = 0)); [right; split; [done|by apply Hxl]|left; lia].
  - constructor; [by apply IH|].
    rewrite sort_insert_perm. constructor; [|done].
    left. rewrite cmp_anti. lia.
Qed.

Lemma sort_stable l :
  StronglySorted before l → StronglySorted (sorted_before cmp before) (Js.sort cmp l).
Proof using cmp_anti cmp_trans.
  induction 1 as [|x l Hl IH Hx]; simpl; [constructor|].
  apply sort_insert_stable; [done|].
  by rewrite sort_perm.
Qed.
End sort_stable.

(** ** The tally of [calculateMoodStats] *)

Lemma first_index_app_l `{EqDecision A} (x : A) l k :
  x ∈ l → first_index x (l ++ k) = first_index x l.
Proof.
  induction l as [|y l IH]; simpl; [by intros ?%elem_of_nil|].
  intros Hx. destruct (decide (y = x)); [done|].
  f_equal. apply IH. apply elem_of_cons in Hx as [->|]; done.
Qed.

Lemma first_index_lt `{EqDecision A} (x : A) l :
  x ∈ l → (first_index x l < length l)%nat.
Proof.
  induction l as [|y l IH]; simpl; [by intros ?%elem_of_nil|].
  intros Hx. destruct (decide (y = x)); [lia|].
  apply elem_of_cons in Hx as [->|Hx]; [done|]. specialize (IH Hx). lia.
Qed.

Lemma first_index_snoc_new `{EqDecision A} (x : A) l :
  x ∉ l → first_index x (l ++ [x]) = length l.
Proof.
  induction l as [|y l IH]; simpl; intros Hx.
  - by rewrite decide_True.
  - apply not_elem_of_cons in Hx as [? ?]. rewrite decide_False by done.
    f_equal. by apply IH.
Qed.

Lemma occurrences_snoc `{EqDecision A} (x y : A) l :
  occurrences x (l ++ [y]) =
  (occurrences x l + if decide (x = y) then 1 else 0)%nat.
Proof.
  unfold occurrences. rewrite filter_app, length_app. f_equal.
  rewrite filter_cons, filter_nil. by destruct (decide (x = y)).
Qed.

Lemma occurrences_notin `{EqDecision A} (x : A) l :
  x ∉ l → occurrences x l = 0%nat.
Proof.
  unfold occurrences. induction l as [|y l IH]; [done|].
  intros [? ?]%not_elem_of_cons. rewrite filter_cons, decide_False by done.
  by apply IH.
Qed.

Lemma StronglySorted_impl_elem_of {A} (R R' : A → A → Prop) l :
  (∀ x y, x ∈ l → y ∈ l → R x y → R' x y) →
  StronglySorted R l → StronglySorted R' l.
Proof.
  intros HR Hl. induction Hl as [|x l Hl IH Hx]; constructor.
  - apply IH. intros y z Hy Hz. apply HR; by right.
  - rewrite Forall_forall in Hx |- *. intros y Hy.
    apply HR; [by left|by right|by apply Hx].
Qed.

Lemma bump_new m t :
  m ∉ t.*1 → MoodTracker.bump m t = t ++ [(m, 1%nat)].
Proof.
  induction t as [|[m' c] t IH]; csimpl; [done|].
  intros [? ?]%not_elem_of_cons.
  rewrite decide_False by done. f_equal. by apply IH.
Qed.

Lemma bump_seen m t :
  NoDup t.*1 → m ∈ t.*1 →
  MoodTracker.bump m t =
  (λ e, if decide (e.1 = m) then (e.1, (e.2 + 1)%nat) else e) <$> t.
Proof.
  induction t as [|[m' c] t IH]; csimpl; [by intros _ ?%elem_of_nil|].
  intros [Hm' Ht]%NoDup_cons Hm. destruct (decide (m' = m)) as [->|Hne].
  - f_equal. clear IH Hm Ht. induction t as [|[m'' c''] t IH]; [done|].
    apply not_elem_of_cons in Hm' as [? ?]. csimpl.
    rewrite decide_False by done. f_equal. by apply IH.
  - f_equal. apply IH; [done|]. by apply elem_of_cons in Hm as [->|].
Qed.

Lemma tally_of_nil : tally_of [] [].
Proof.
  unfold tally_of. csimpl. split_and!; [constructor| |done|constructor].
  by intros m c ?%elem_of_nil.
Qed.

Lemma tally_of_snoc l t m :
  tally_of l t → tally_of (l ++ [m]) (MoodTracker.bump m t).
Proof.
  intros (Hnd & Hcount & Hcover & Hsorted).
  assert (∀ m', m' ∈ t.*1 → m' ∈ l) as Hkeys.
  { intros m' ([m'' c] & -> & Hin)%list_elem_of_fmap. by apply Hcount in Hin as [_ ?]. }
  destruct (decide (m ∈ t.*1)) as [Hm|Hm].
  - rewrite (bump_seen m t Hnd Hm).
    assert (((λ e : Mood * nat, if decide (e.1 = m) then (e.1, (e.2 + 1)%nat) else e)
               <$> t).*1 = t.*1) as Hfst.
    { rewrite <-list_fmap_compose. apply list_fmap_ext.
      intros _ [m' c] _. simpl. by destruct (decide (m' = m)). }
    split_and!.
    + by rewrite Hfst.
    + intros m' c' ([m'' c] & Heq & Hin)%list_elem_of_fmap.
      destruct (Hcount _ _ Hin) as [-> Hl]. simpl in Heq.
      rewrite occurrences_snoc.
      destruct (decide (m'' = m)) as [->|Hne]; simplify_eq.
      * rewrite decide_True by done. split; [done|]. apply elem_of_app; by left.
      * rewrite decide_False by done. split; [lia|]. apply elem_of_app; by left.
    + rewrite Hfst. intros m' [?| ->%list_elem_of_singleton]%elem_of_app; auto.
    + apply (StronglySorted_fmap _
               (λ a b, (first_index a.1 (l ++ [m]) < first_index b.1 (l ++ [m]))%nat)).
      { intros [m1 c1] [m2 c2]. simpl.
        by destruct (decide (m1 = m)), (decide (m2 = m)). }
      eapply StronglySorted_impl_elem_of; [|exact Hsorted].
      intros [m1 c1] [m2 c2] H1 H2. simpl.
      assert (m1 ∈ l) by (by apply Hcount in H1 as [_ ?]).
      assert (m2 ∈ l) by (by apply Hcount in H2 as [_ ?]).
      by rewrite !first_index_app_l.
  - assert (m ∉ l) as Hml by (intros ?; by apply Hm, Hcover).
    rewrite (bump_new m t Hm). split_and!.
    + rewrite fmap_app. apply NoDup_app. split_and!; [done| |apply NoDup_singleton].
      intros m' Hin ->%list_elem_of_singleton. done.
    + intros m' c [Hin|Heq%list_elem_of_singleton]%elem_of_app.
      * destruct (Hcount _ _ Hin) as [-> Hl]. rewrite occurrences_snoc.
        rewrite decide_False by (by intros ->). split; [lia|].
        apply elem_of_app; by left.
      * simplify_eq. rewrite occurrences_snoc, decide_True by done.
        rewrite occurrences_notin by done. split; [done|].
        apply elem_of_app; right; by apply list_elem_of_singleton.
    + rewrite fmap_app. intros m' [?| ->%list_elem_of_singleton]%elem_of_app.
      * apply elem_of_app; left; auto.
      * apply elem_of_app; right. by apply list_elem_of_singleton.
    + apply StronglySorted_app_2.
      * intros [m1 c1] e H1 ->%list_elem_of_singleton. simpl.
        assert (m1 ∈ l) by (by apply Hcount in H1 as [_ ?]).
        rewrite first_index_app_l, first_index_snoc_new by done.
        by apply first_index_lt.
      * eapply StronglySorted_impl_elem_of; [|exact Hsorted].
        intros [m1 c1] [m2 c2] H1 H2. simpl.
        assert (m1 ∈ l) by (by apply Hcount in H1 as [_ ?]).
        assert (m2 ∈ l) by (by apply Hcount in H2 as [_ ?]).
        by rewrite !first_index_app_l.
      * repeat constructor.
Qed.

Lemma tally_spec moods : tally_of moods (MoodTracker.tally moods).
Proof.
  unfold MoodTracker.tally.
  induction moods as [|m l IH] using rev_ind; [apply tally_of_nil|].
  rewrite foldl_snoc. by apply tally_of_snoc.
Qed.

Lemma bump_sum m t :
  sum_list (MoodTracker.bump m t).*2 = S (sum_list t.*2).
Proof.
  induction t as [|[m' c] t IH]; csimpl; [done|].
  destruct (decide (m' = m)); csimpl; [lia|]. rewrite IH. lia.
Qed.

Lemma tally_sum moods : sum_list (MoodTracker.tally moods).*2 = length moods.
Proof.
  unfold MoodTracker.tally.
  induction moods as [|m l IH] using rev_ind; [done|].
  rewrite foldl_snoc, bump_sum, IH, length_app. simpl. lia.
Qed.

Lemma occurrences_pos `{EqDecision A} (x : A) l :
  x ∈ l → (0 < occurrences x l)%nat.
Proof.
  unfold occurrences. induction 1 as [x l|x y l _ IH]; rewrite filter_cons.
  - rewrite decide_True by done. simpl. lia.
  - destruct (decide (x = y)); simpl; lia.
Qed.

Lemma occurrences_le `{EqDecision A} (x : A) l :
  (occurrences x l ≤ length l)%nat.
Proof. unfold occurrences. apply length_filter. Qed.

Lemma sumQ_perm l k : l ≡ₚ k → (sumQ l == sumQ k)%Q.
Proof.
  induction 1 as [|x l k _ IH|x y l|l k j _ IH1 _ IH2]; simpl.
  - reflexivity.
  - by rewrite IH.
  - ring.
  - by rewrite IH1.
Qed.

(** The records before sorting: one per entry of the tally. *)
Lemma calculateMoodStats_perm moods :
  MoodTracker.calculateMoodStats moods ≡ₚ
  (λ e, {| MoodTracker.mood := e.1; MoodTracker.count := e.2;
           MoodTracker.percentage := MoodTracker.percent e.2 (length moods) |})
    <$> MoodTracker.tally moods.
Proof.
  unfold MoodTracker.calculateMoodStats. rewrite sort_perm.
  erewrite list_fmap_ext; [done|]. by intros _ [m c] _.
Qed.

(** ** Numbers *)

Lemma digits2_pos_bounds p :
  2 ^ (Z.pos (SpecFloat.digits2_pos p) - 1) ≤ Z.pos p
  < 2 ^ Z.pos (SpecFloat.digits2_pos p).
Proof.
  induction p as [p IH|p IH|]; simpl SpecFloat.digits2_pos.
  - rewrite Pos2Z.inj_succ.
    replace (Z.succ (Z.pos (SpecFloat.digits2_pos p)) - 1)
      with (Z.succ (Z.pos (SpecFloat.digits2_pos p) - 1)) by lia.
    rewrite !Z.pow_succ_r by lia. lia.
  - rewrite Pos2Z.inj_succ.
    replace (Z.succ (Z.pos (SpecFloat.digits2_pos p)) - 1)
      with (Z.succ (Z.pos (SpecFloat.digits2_pos p) - 1)) by lia.
    rewrite !Z.pow_succ_r by lia. lia.
  - simpl. lia.
Qed.

(** The number of binary digits of [p] is the one [d] with
    [2^(d-1) ≤ p < 2^d]. *)
Lemma digits2_pos_unique p d :
  2 ^ (d - 1) ≤ Z.pos p < 2 ^ d → Z.pos (SpecFloat.digits2_pos p) = d.
Proof.
  intros [Hlo Hhi]. pose proof (digits2_pos_bounds p) as [Hlo' Hhi'].
  assert (0 ≤ d).
  { destruct (Z.lt_ge_cases d 0) as [Hneg|]; [|done].
    rewrite Z.pow_neg_r in Hhi by done. lia. }
  destruct (Z.lt_trichotomy (Z.pos (SpecFloat.digits2_pos p)) d) as [Hlt|[->|Hgt]];
    [|done|].
  - assert (2 ^ Z.pos (SpecFloat.digits2_pos p) ≤ 2 ^ (d - 1))
      by (apply Z.pow_le_mono_r; lia).
    lia.
  - assert (2 ^ d ≤ 2 ^ (Z.pos (SpecFloat.digits2_pos p) - 1))
      by (apply Z.pow_le_mono_r; lia).
    lia.
Qed.

(** One shift to the right halves the fraction. *)
Lemma shr_1_located mrs a b :
  located mrs a b →
  located (SpecFloat.shr_1 mrs) a (2 * b)
  ∧ SpecFloat.shr_m (SpecFloat.shr_1 mrs) = SpecFloat.shr_m mrs `div` 2.
Proof.
  destruct mrs as [m r s]. unfold located. simpl.
  intros (Hm & Hb & Ha & Hr & Hs).
  destruct m as [|[p|p|]|p]; [| | | |lia]; simpl.
  - split; [|reflexivity].
    split_and!; try lia; try (split; [done|intros; lia]);
      rewrite orb_true_iff, Hr, Hs; lia.
  - change (Z.pos p~1) with (2 * Z.pos p + 1) in *.
    split; [|Z.div_mod_to_equations; lia].
    split_and!; try lia; try (split; [done|intros; lia]);
      rewrite orb_true_iff, Hr, Hs; lia.
  - change (Z.pos p~0) with (2 * Z.pos p) in *.
    split; [|Z.div_mod_to_equations; lia].
    split_and!; try lia; try (split; [done|intros; lia]);
      rewrite orb_true_iff, Hr, Hs; lia.
  - split; [|reflexivity].
    split_and!; try lia; try (split; [done|intros; lia]);
      rewrite orb_true_iff, Hr, Hs; lia.
Qed.

(** And [n] shifts divide it by [2^n]. *)
Lemma iter_shr_1_located p : ∀ mrs a b,
  located mrs a b →
  located (SpecFloat.iter_pos SpecFloat.shr_1 p mrs) a (2 ^ Z.pos p * b)
  ∧ SpecFloat.shr_m (SpecFloat.iter_pos SpecFloat.shr_1 p mrs)
    = SpecFloat.shr_m mrs `div` 2 ^ Z.pos p.
Proof.
  induction p as [p IH|p IH|]; intros mrs a b Hloc; simpl SpecFloat.iter_pos.
  - destruct (shr_1_located mrs a b Hloc) as [H1 E1].
    destruct (IH _ _ _ H1) as [H2 E2].
    destruct (IH _ _ _ H2) as [H3 E3].
    assert (2 ^ Z.pos p~1 = 2 ^ Z.pos p * (2 ^ Z.pos p * 2)) as ->.
    { rewrite (Pos2Z.inj_xI p).
      replace (2 * Z.pos p + 1) with (Z.pos p + (Z.pos p + 1)) by lia.
      rewrite !Z.pow_add_r by lia. lia. }
    rewrite <-!Z.mul_assoc. split; [done|].
    rewrite E3, E2, E1, !Z.div_div by lia. f_equal. lia.
  - destruct (IH _ _ _ Hloc) as [H2 E2].
    destruct (IH _ _ _ H2) as [H3 E3].
    assert (2 ^ Z.pos p~0 = 2 ^ Z.pos p * 2 ^ Z.pos p) as ->.
    { rewrite (Pos2Z.inj_xO p).
      replace (2 * Z.pos p) with (Z.pos p + Z.pos p) by lia.
      rewrite Z.pow_add_r by lia. done. }
    rewrite <-!Z.mul_assoc. split; [done|].
    rewrite E3, E2, !Z.div_div by lia. done.
  - destruct (shr_1_located mrs a b Hloc) as [H1 E1]. done.
Qed.

Lemma shr_located mrs a b e n :
  located mrs a b → 0 ≤ n →
  (SpecFloat.shr mrs e n).2 = e + n
  ∧ located (SpecFloat.shr mrs e n).1 a (2 ^ n * b)
  ∧ SpecFloat.shr_m (SpecFloat.shr mrs e n).1 = SpecFloat.shr_m mrs `div` 2 ^ n.
Proof.
  intros Hloc Hn. destruct n as [|p|p]; [| |lia]; simpl.
  - split; [lia|]. rewrite Z.pow_0_r, Z.div_1_r, Z.mul_1_l. done.
  - split; [done|]. by apply iter_shr_1_located.
Qed.

(** Rounding to the nearest integer, to the even one of two that are as
    near: the result is at most a half away from the fraction. *)
Lemma round_nearest_even_located mrs a b :
  located mrs a b →
  let m := SpecFloat.round_nearest_even (SpecFloat.shr_m mrs)
             (SpecFloat.loc_of_shr_record mrs) in
  SpecFloat.shr_m mrs ≤ m ≤ SpecFloat.shr_m mrs + 1
  ∧ - b ≤ 2 * (m * b - a) ≤ b.
Proof.
  destruct mrs as [m r s]. unfold located. simpl.
  intros (Hm & Hb & Ha & Hr & Hs).
  destruct r, s; simpl.
  - assert (b ≤ 2 * (a - m * b)) by (by apply Hr).
    assert (2 * (a - m * b) ≠ b) by (by apply Hs). lia.
  - assert (b ≤ 2 * (a - m * b)) by (by apply Hr).
    assert (¬ (a - m * b ≠ 0 ∧ 2 * (a - m * b) ≠ b)) by (rewrite <-Hs; done).
    destruct (Z.even m); lia.
  - assert (¬ b ≤ 2 * (a - m * b)) by (rewrite <-Hr; done). lia.
  - assert (¬ b ≤ 2 * (a - m * b)) by (rewrite <-Hr; done). lia.
Qed.

Lemma Zdigits2_unique m d :
  2 ^ (d - 1) ≤ m < 2 ^ d → 0 < m → SpecFloat.Zdigits2 m = d.
Proof.
  intros Hm Hpos. destruct m as [|p|p]; [lia| |lia].
  simpl. by apply digits2_pos_unique.
Qed.

Lemma Zdigits2_bounds m :
  0 < m → 2 ^ (SpecFloat.Zdigits2 m - 1) ≤ m < 2 ^ SpecFloat.Zdigits2 m.
Proof.
  intros Hpos. destruct m as [|p|p]; [lia| |lia].
  simpl. apply digits2_pos_bounds.
Qed.

(** Rounding in the range of the normal numbers: a mantissa [mx] of at
    least 53 digits that, with the location [lx], stands for the positive
    fraction [a / b] is rounded to a mantissa of 53 digits, and the result
    is away from the fraction by at most [2^-53] of it. *)
Lemma binary_round_aux_normal mx ex lx a b :
  0 < mx →
  let d := SpecFloat.Zdigits2 mx in
  53 ≤ d →
  -1021 ≤ d + ex ≤ 1023 →
  located (SpecFloat.shr_record_of_loc mx lx) a b →
  ∃ m e,
    SpecFloat.binary_round_aux Js.prec Js.emax false mx ex lx
    = SpecFloat.S754_finite false m e
    ∧ 2 ^ 52 ≤ Z.pos m < 2 ^ 53
    ∧ d + ex - 53 ≤ e ≤ d + ex - 52
    ∧ - a ≤ 2 ^ 53 * (Z.pos m * 2 ^ (e - ex) * b - a) ≤ a.
Proof.
  intros Hpos d Hd Hex Hloc.
  pose proof (Zdigits2_bounds mx Hpos) as Hdigits. fold d in Hdigits.
  set (n := d - 53).
  assert (0 ≤ n) as Hn by (unfold n; lia).
  assert (SpecFloat.shr_m (SpecFloat.shr_record_of_loc mx lx) = mx) as Hm0.
  { by destruct lx as [|[]]. }
  unfold SpecFloat.binary_round_aux.
  assert (SpecFloat.shr_fexp Js.prec Js.emax mx ex lx
          = SpecFloat.shr (SpecFloat.shr_record_of_loc mx lx) ex n) as ->.
  { unfold SpecFloat.shr_fexp. f_equal. fold d.
    unfold SpecFloat.fexp, SpecFloat.emin, Js.prec, Js.emax, n. lia. }
  destruct (shr_located _ a b ex n Hloc Hn) as (He1 & Hloc1 & Hm1).
  destruct (SpecFloat.shr (SpecFloat.shr_record_of_loc mx lx) ex n)
    as [mrs1 e1]. simpl in He1, Hloc1, Hm1. subst e1.
  rewrite Hm0 in Hm1.
  assert (2 ^ d = 2 ^ 53 * 2 ^ n) as Hpow.
  { unfold n. rewrite <-Z.pow_add_r by lia. f_equal. lia. }
  assert (2 ^ (d - 1) = 2 ^ 52 * 2 ^ n) as Hpow'.
  { unfold n. rewrite <-Z.pow_add_r by lia. f_equal. lia. }
  assert (0 < 2 ^ n) as Hpn by (apply Z.pow_pos_nonneg; lia).
  assert (2 ^ 52 ≤ SpecFloat.shr_m mrs1 < 2 ^ 53) as Hm1'.
  { rewrite Hm1. split.
    - apply Z.div_le_lower_bound; lia.
    - apply Z.div_lt_upper_bound; lia. }
  destruct (round_nearest_even_located mrs1 a (2 ^ n * b) Hloc1) as [Hm2 Herr].
  set (m2 := SpecFloat.round_nearest_even (SpecFloat.shr_m mrs1)
               (SpecFloat.loc_of_shr_record mrs1)) in *.
  destruct Hloc1 as (_ & Hb1 & Ha1 & _).
  assert (0 < b) as Hb by nia.
  assert (2 ^ 52 * (2 ^ n * b) ≤ a) as Hmag by nia.
  destruct (decide (m2 < 2 ^ 53)) as [Hsmall|Hbig].
  - (* no carry *)
    assert (SpecFloat.Zdigits2 m2 = 53) as Hd2.
    { apply Zdigits2_unique; lia. }
    assert (SpecFloat.shr_fexp Js.prec Js.emax m2 (ex + n) SpecFloat.loc_Exact
            = ({| SpecFloat.shr_m := m2; SpecFloat.shr_r := false;
                  SpecFloat.shr_s := false |}, ex + n)) as ->.
    { unfold SpecFloat.shr_fexp. rewrite Hd2.
      replace (SpecFloat.fexp Js.prec Js.emax (53 + (ex + n)) - (ex + n)) with 0.
      - done.
      - unfold SpecFloat.fexp, SpecFloat.emin, Js.prec, Js.emax, n. lia. }
    simpl. destruct m2 as [|p2|p2] eqn:Hp2; [lia| |lia].
    assert ((ex + n <=? Js.emax - Js.prec) = true) as ->.
    { apply Z.leb_le. unfold Js.emax, Js.prec, n. lia. }
    exists p2, (ex + n). split; [done|]. split; [lia|]. split; [unfold n; lia|].
    replace (ex + n - ex) with n by lia. nia.
  - (* the mantissa was rounded up to [2^53] *)
    assert (m2 = 2 ^ 53) as Hm2' by lia.
    rewrite Hm2'.
    assert (SpecFloat.shr_fexp Js.prec Js.emax (2 ^ 53) (ex + n) SpecFloat.loc_Exact
            = ({| SpecFloat.shr_m := 2 ^ 52; SpecFloat.shr_r := false;
                  SpecFloat.shr_s := false |}, ex + n + 1)) as ->.
    { unfold SpecFloat.shr_fexp.
      change (SpecFloat.Zdigits2 (2 ^ 53)) with 54.
      replace (SpecFloat.fexp Js.prec Js.emax (54 + (ex + n)) - (ex + n)) with 1.
      - done.
      - unfold SpecFloat.fexp, SpecFloat.emin, Js.prec, Js.emax, n. lia. }
    simpl.
    assert ((ex + n + 1 <=? Js.emax - Js.prec) = true) as ->.
    { apply Z.leb_le. unfold Js.emax, Js.prec, n. lia. }
    eexists _, (ex + n + 1). split; [reflexivity|].
    split; [lia|]. split; [unfold n; lia|].
    replace (ex + n + 1 - ex) with (n + 1) by lia.
    rewrite Z.pow_add_r, Z.pow_1_r by lia.
    rewrite Hm2' in Herr. nia.
Qed.

(** A mantissa of 53 digits with an exponent in range is a number as it
    stands. *)
Lemma binary_round_aux_exact (m : positive) e :
  2 ^ 52 ≤ Z.pos m < 2 ^ 53 → -1074 ≤ e ≤ 971 →
  SpecFloat.binary_round_aux Js.prec Js.emax false (Z.pos m) e SpecFloat.loc_Exact
  = SpecFloat.S754_finite false m e.
Proof.
  intros Hm He.
  assert (SpecFloat.shr_fexp Js.prec Js.emax (Z.pos m) e SpecFloat.loc_Exact
          = ({| SpecFloat.shr_m := Z.pos m; SpecFloat.shr_r := false;
                SpecFloat.shr_s := false |}, e)) as Hshr.
  { unfold SpecFloat.shr_fexp.
    rewrite (Zdigits2_unique (Z.pos m) 53) by lia.
    replace (SpecFloat.fexp Js.prec Js.emax (53 + e) - e) with 0; [done|].
    unfold SpecFloat.fexp, SpecFloat.emin, Js.prec, Js.emax. lia. }
  unfold SpecFloat.binary_round_aux. rewrite Hshr. simpl. rewrite Hshr. simpl.
  assert ((e <=? Js.emax - Js.prec) = true) as ->; [|done].
  apply Z.leb_le. unfold Js.emax, Js.prec. lia.
Qed.

Lemma iter_xO p k : Z.pos (Pos.iter xO p k) = Z.pos p * 2 ^ Z.pos k.
Proof.
  induction k as [|k IH] using Pos.peano_ind.
  - simpl. lia.
  - rewrite Pos.iter_succ, Pos2Z.inj_succ, Z.pow_succ_r by lia.
    rewrite Pos2Z.inj_xO, IH. lia.
Qed.

(** The number for an integer below [2^53] is the integer itself, with a
    mantissa of 53 digits. *)
Lemma ofZ_exact n :
  0 < n < 2 ^ 53 →
  ∃ m e, Js.ofZ n = SpecFloat.S754_finite false m e
         ∧ 2 ^ 52 ≤ Z.pos m < 2 ^ 53 ∧ -52 ≤ e ≤ 0
         ∧ Z.pos m = n * 2 ^ (- e).
Proof.
  intros Hn. destruct n as [|p|p]; [lia| |lia].
  unfold Js.ofZ, SpecFloat.binary_normalize, SpecFloat.binary_round.
  pose proof (digits2_pos_bounds p) as Hd.
  set (d := Z.pos (SpecFloat.digits2_pos p)) in *.
  assert (1 ≤ d ≤ 53) as Hd'.
  { split; [unfold d; lia|].
    destruct (Z.le_gt_cases d 53) as [|Hgt]; [done|].
    assert (2 ^ 53 ≤ 2 ^ (d - 1)) by (apply Z.pow_le_mono_r; lia). lia. }
  replace (SpecFloat.fexp Js.prec Js.emax (d + 0)) with (d - 53).
  2:{ unfold SpecFloat.fexp, SpecFloat.emin, Js.prec, Js.emax. lia. }
  unfold SpecFloat.shl_align.
  destruct (d - 53 - 0) as [|k|k] eqn:Hk; [|lia|].
  - assert (d = 53) as Hd53 by lia. rewrite Hd53 in Hd.
    rewrite binary_round_aux_exact by lia.
    exists p, 0. split; [done|]. split; [lia|]. split; [lia|]. simpl. lia.
  - pose proof (iter_xO p k) as Hiter.
    assert (Z.pos k = 53 - d) as Hk' by lia. rewrite Hk' in Hiter.
    assert (2 ^ (d - 1) * 2 ^ (53 - d) = 2 ^ 52) as Hlo.
    { rewrite <-Z.pow_add_r by lia. f_equal. lia. }
    assert (2 ^ d * 2 ^ (53 - d) = 2 ^ 53) as Hhi.
    { rewrite <-Z.pow_add_r by lia. f_equal. lia. }
    assert (0 < 2 ^ (53 - d)) by (apply Z.pow_pos_nonneg; lia).
    rewrite binary_round_aux_exact by nia.
    eexists _, (d - 53). split; [reflexivity|].
    split; [nia|]. split; [lia|].
    rewrite Hiter. f_equal. f_equal. lia.
Qed.

(** The quotient and the rest of a division locate the fraction. *)
Lemma new_location_located a b :
  0 ≤ a → 0 < b →
  located
    (SpecFloat.shr_record_of_loc (a `div` b)
       (SpecFloat.new_location b (a `mod` b)))
    a b.
Proof.
  intros Ha Hb.
  pose proof (Z.div_mod a b ltac:(lia)) as Hdiv.
  pose proof (Z.mod_pos_bound a b Hb) as Hmod.
  assert (0 ≤ a `div` b) as Hq by (apply Z.div_pos; lia).
  set (q := a `div` b) in *. set (r := a `mod` b) in *.
  assert (a - q * b = r) as Hrest by lia.
  clearbody q r.
  assert (∀ l, SpecFloat.shr_m (SpecFloat.shr_record_of_loc q l) = q) as Hm.
  { by intros [|[]]. }
  unfold located. rewrite Hm, Hrest.
  split; [done|]. split; [done|]. split; [lia|].
  unfold SpecFloat.new_location.
  destruct (Z.even b) eqn:Heven.
  - unfold SpecFloat.new_location_even.
    destruct (Z.eqb_spec r 0) as [Hr|Hr]; simpl.
    + split; (split; [done|]); lia.
    + destruct (Z.compare_spec (2 * r) b); simpl;
        split; split; try done; lia.
  - unfold SpecFloat.new_location_odd.
    assert (2 * r ≠ b) as Hodd.
    { intros <-. by rewrite Z.even_mul in Heven. }
    destruct (Z.eqb_spec r 0) as [Hr|Hr]; simpl.
    + split; (split; [done|]); lia.
    + destruct (Z.compare_spec (2 * r + 1) b); simpl;
        split; split; try done; lia.
Qed.

(** The quotient of two numbers with mantissas of 53 digits, in the range
    of the normal numbers: it has a mantissa of 53 digits and is away from
    the exact quotient [m1 * 2^53 / m2], in units of [2^(e1 - e2 - 53)], by
    at most [2^-53] of it. *)
Lemma divide_normal m1 e1 m2 e2 :
  2 ^ 52 ≤ Z.pos m1 < 2 ^ 53 → 2 ^ 52 ≤ Z.pos m2 < 2 ^ 53 →
  -900 ≤ e1 - e2 ≤ 900 →
  ∃ m e,
    Js.divide (SpecFloat.S754_finite false m1 e1) (SpecFloat.S754_finite false m2 e2)
    = SpecFloat.S754_finite false m e
    ∧ 2 ^ 52 ≤ Z.pos m < 2 ^ 53
    ∧ e1 - e2 - 53 ≤ e ≤ e1 - e2 - 51
    ∧ - (Z.pos m1 * 2 ^ 53)
      ≤ 2 ^ 53 * (Z.pos m * 2 ^ (e - (e1 - e2 - 53)) * Z.pos m2 - Z.pos m1 * 2 ^ 53)
      ≤ Z.pos m1 * 2 ^ 53.
Proof.
  intros H1 H2 He.
  unfold Js.divide, SpecFloat.SFdiv, SpecFloat.SFdiv_core_binary.
  rewrite (Zdigits2_unique (Z.pos m1) 53), (Zdigits2_unique (Z.pos m2) 53) by lia.
  replace (Z.min (SpecFloat.fexp Js.prec Js.emax (53 + e1 - (53 + e2))) (e1 - e2))
    with (e1 - e2 - 53).
  2:{ unfold SpecFloat.fexp, SpecFloat.emin, Js.prec, Js.emax. lia. }
  replace (e1 - e2 - (e1 - e2 - 53)) with 53 by lia.
  rewrite Z.shiftl_mul_pow2 by lia.
  set (a := Z.pos m1 * 2 ^ 53).
  unfold Z.div_eucl at 1. fold (Z.div_eucl a (Z.pos m2)).
  pose proof (new_location_located a (Z.pos m2) ltac:(lia) ltac:(lia)) as Hloc.
  unfold Z.div, Z.modulo in Hloc.
  destruct (Z.div_eucl a (Z.pos m2)) as [q r] eqn:Hqr.
  assert (q = a `div` Z.pos m2) as Hq by (unfold Z.div; by rewrite Hqr).
  assert (2 ^ 52 ≤ q < 2 ^ 54) as Hq'.
  { rewrite Hq. unfold a. split.
    - apply Z.div_le_lower_bound; lia.
    - apply Z.div_lt_upper_bound; lia. }
  pose proof (Zdigits2_bounds q ltac:(lia)) as Hd.
  set (d := SpecFloat.Zdigits2 q) in *.
  assert (53 ≤ d ≤ 54) as Hd'.
  { split.
    - destruct (Z.le_gt_cases 53 d) as [|Hlt]; [done|].
      assert (2 ^ d ≤ 2 ^ 52) by (apply Z.pow_le_mono_r; lia). lia.
    - destruct (Z.le_gt_cases d 54) as [|Hgt]; [done|].
      assert (2 ^ 54 ≤ 2 ^ (d - 1)) by (apply Z.pow_le_mono_r; lia). lia. }
  destruct (binary_round_aux_normal q (e1 - e2 - 53) (SpecFloat.new_location (Z.pos m2) r)
              a (Z.pos m2))
    as (m & e & Heq & Hm & He' & Herr); [lia|fold d; lia|fold d; lia|done|].
  fold d in He'.
  exists m, e. split; [done|]. split; [done|]. split; [lia|done].
Qed.

(** The product of two numbers with mantissas of 53 digits, in the range
    of the normal numbers. *)
Lemma multiply_normal m1 e1 m2 e2 :
  2 ^ 52 ≤ Z.pos m1 < 2 ^ 53 → 2 ^ 52 ≤ Z.pos m2 < 2 ^ 53 →
  -900 ≤ e1 + e2 ≤ 900 →
  ∃ m e,
    Js.multiply (SpecFloat.S754_finite false m1 e1) (SpecFloat.S754_finite false m2 e2)
    = SpecFloat.S754_finite false m e
    ∧ 2 ^ 52 ≤ Z.pos m < 2 ^ 53
    ∧ e1 + e2 + 52 ≤ e ≤ e1 + e2 + 54
    ∧ - (Z.pos m1 * Z.pos m2)
      ≤ 2 ^ 53 * (Z.pos m * 2 ^ (e - (e1 + e2)) - Z.pos m1 * Z.pos m2)
      ≤ Z.pos m1 * Z.pos m2.
Proof.
  intros H1 H2 He.
  unfold Js.multiply, SpecFloat.SFmul. simpl xorb.
  set (a := Z.pos m1 * Z.pos m2).
  change (Z.pos (m1 * m2)) with a.
  assert (2 ^ 104 ≤ a < 2 ^ 106) as Ha by (unfold a; nia).
  pose proof (Zdigits2_bounds a ltac:(lia)) as Hd.
  set (d := SpecFloat.Zdigits2 a) in *.
  assert (105 ≤ d ≤ 106) as Hd'.
  { split.
    - destruct (Z.le_gt_cases 105 d) as [|Hlt]; [done|].
      assert (2 ^ d ≤ 2 ^ 104) by (apply Z.pow_le_mono_r; lia). lia.
    - destruct (Z.le_gt_cases d 106) as [|Hgt]; [done|].
      assert (2 ^ 106 ≤ 2 ^ (d - 1)) by (apply Z.pow_le_mono_r; lia). lia. }
  destruct (binary_round_aux_normal a (e1 + e2) SpecFloat.loc_Exact a 1)
    as (m & e & Heq & Hm & He' & Herr); [lia|fold d; lia|fold d; lia| |].
  { unfold located. simpl. split_and!; try lia; (split; [done|lia]). }
  fold d in He'.
  exists m, e. split; [done|]. split; [done|]. split; [lia|].
  by rewrite Z.mul_1_r in Herr.
Qed.

Lemma Qpower_2_pos e : (0 < 2 ^ e)%Q.
Proof. by apply Qpower_0_lt. Qed.

Lemma Qpower_2_split e ex :
  ex ≤ e → (2 ^ e == inject_Z (2 ^ (e - ex)) * 2 ^ ex)%Q.
Proof.
  intros He. rewrite Zpower_Qpower by lia.
  rewrite <-Qpower_plus by done. by replace (e - ex + ex) with e by lia.
Qed.

#[local] Instance within_proper : Proper (Qeq ==> Qeq ==> Qeq ==> iff) within.
Proof.
  intros ε ε' Hε X X' HX v v' Hv. unfold within. by rewrite Hε, HX, Hv.
Qed.

(** From the integers to the rationals: a result [M], in units of [T],
    that is away from the fraction [a / b] by at most [2^-53] of it. *)
Lemma within_scaled (M a b : Z) (T X v : Q) :
  0 < b → 0 ≤ a → (0 < T)%Q →
  - a ≤ 2 ^ 53 * (M * b - a) ≤ a →
  (v == inject_Z M * T)%Q →
  (X == inject_Z a / inject_Z b * T)%Q →
  within (1 # 2 ^ 53) X v.
Proof.
  intros Hb Ha HT [Hlo Hhi] Hv HX. unfold within. rewrite Hv, HX.
  assert (0 < inject_Z b)%Q as HB.
  { change 0%Q with (inject_Z 0). by rewrite <-Zlt_Qlt. }
  assert (0 <= inject_Z a)%Q as HA.
  { change 0%Q with (inject_Z 0). by rewrite <-Zle_Qle. }
  rewrite Zle_Qle in Hlo, Hhi.
  unfold Z.sub in Hhi, Hlo.
  rewrite ?inject_Z_opp, ?inject_Z_mult, ?inject_Z_plus, ?inject_Z_opp,
    ?inject_Z_mult in Hlo, Hhi.
  set (A := inject_Z a) in *. set (B := inject_Z b) in *.
  set (N := inject_Z M) in *.
  assert (inject_Z (2 ^ 53) == 9007199254740992)%Q as H53 by reflexivity.
  rewrite H53 in Hlo, Hhi.
  set (u := (1 # 2 ^ 53)%Q).
  assert (9007199254740992 * u == 1)%Q as Hu by reflexivity.
  assert (0 < u)%Q as Hu' by reflexivity.
  clearbody u.
  set (Y := (A / B)%Q).
  assert (A == Y * B)%Q as HY by (unfold Y; field; lra).
  rewrite HY in Hlo, Hhi.
  assert (- Y <= 9007199254740992 * (N - Y))%Q as Hlo' by nra.
  assert (9007199254740992 * (N - Y) <= Y)%Q as Hhi' by nra.
  assert (Y * (1 - u) <= N)%Q as Hlo'' by nra.
  assert (N <= Y * (1 + u))%Q as Hhi'' by nra.
  split; nra.
Qed.

Lemma ofZ_value n :
  0 < n < 2 ^ 53 →
  ∃ m e, Js.ofZ n = SpecFloat.S754_finite false m e
         ∧ 2 ^ 52 ≤ Z.pos m < 2 ^ 53 ∧ -52 ≤ e ≤ 0
         ∧ (inject_Z (Z.pos m) * 2 ^ e == inject_Z n)%Q.
Proof.
  intros Hn. destruct (ofZ_exact n Hn) as (m & e & Heq & Hm & He & Hval).
  exists m, e. split; [done|]. split; [done|]. split; [done|].
  rewrite Hval, inject_Z_mult.
  pose proof (Qpower_2_split 0 e ltac:(lia)) as Hsplit.
  rewrite Z.sub_0_l in Hsplit. rewrite <-Qmult_assoc, <-Hsplit.
  change (2 ^ 0)%Q with 1%Q. ring.
Qed.

(** Two roundings in a row, the second on a hundred times the first
    result. *)
Lemma within_twice (X q p : Q) :
  (0 <= X)%Q →
  within (1 # 2 ^ 53) X q → within (1 # 2 ^ 53) (q * 100) p →
  within rounding (X * 100) p.
Proof.
  unfold within. intros HX [Hq1 Hq2] [Hp1 Hp2].
  set (u := (1 # 2 ^ 53)%Q) in *.
  assert (rounding == 2 * u + u * u)%Q as -> by reflexivity.
  assert (0 < u)%Q as Hu by reflexivity.
  assert (u < 1)%Q as Hu' by reflexivity.
  clearbody u.
  assert (0 <= q)%Q as Hq by nra.
  split.
  - assert (X * (1 - u) * 100 * (1 - u) <= p)%Q by nra. nra.
  - assert (p <= X * (1 + u) * 100 * (1 + u))%Q by nra. nra.
Qed.

(** [count / total * 100] in double precision, for counts below [2^53]:
    the division is rounded, and the product of its result by 100 is
    rounded; the number is finite and positive, and it is away from the
    exact share by at most [2^-52 + 2^-106] of it. *)
Lemma percent_within (count total : nat) :
  (0 < count)%nat → (0 < total)%nat →
  Z.of_nat count < 2 ^ 53 → Z.of_nat total < 2 ^ 53 →
  (∃ m e, MoodTracker.percent count total = SpecFloat.S754_finite false m e)
  ∧ within rounding (share count total) (value (MoodTracker.percent count total)).
Proof.
  intros Hc Ht Hc' Ht'.
  destruct (ofZ_value (Z.of_nat count)) as (mc & ec & Hcv & Hmc & Hec & Hcq); [lia|].
  destruct (ofZ_value (Z.of_nat total)) as (mt & et & Htv & Hmt & Het & Htq); [lia|].
  destruct (ofZ_value 100) as (mh & eh & Hhv & Hmh & Heh & Hhq); [lia|].
  destruct (divide_normal mc ec mt et) as (mq & eq & Hdiv & Hmq & Heq & Hqerr);
    [done|done|lia|].
  destruct (multiply_normal mq eq mh eh) as (mp & ep & Hmul & Hmp & Hep & Hperr);
    [done|done|lia|].
  assert (MoodTracker.percent count total = SpecFloat.S754_finite false mp ep) as Hpercent.
  { unfold MoodTracker.percent. apply Nat.ltb_lt in Ht as ->.
    by rewrite Hcv, Htv, Hhv, Hdiv, Hmul. }
  rewrite Hpercent. split; [by eexists _, _|].
  unfold share. rewrite <-Hcq, <-Htq. simpl value.
  assert (0 < inject_Z (Z.pos mc))%Q as Hmc0 by reflexivity.
  assert (0 < inject_Z (Z.pos mt))%Q as Hmt0 by reflexivity.
  pose proof (Qpower_2_pos ec) as Hpc. pose proof (Qpower_2_pos et) as Hpt.
  apply (within_twice _ (inject_Z (Z.pos mq) * 2 ^ eq)%Q).
  - apply Qle_shift_div_l; [nra|]. nra.
  - apply (within_scaled (Z.pos mq * 2 ^ (eq - (ec - et - 53)))
             (Z.pos mc * 2 ^ 53) (Z.pos mt) (2 ^ (ec - et - 53))%Q);
      [lia|lia|apply Qpower_2_pos|done| |].
    + rewrite inject_Z_mult, <-Qmult_assoc.
      by rewrite <-(Qpower_2_split eq (ec - et - 53)) by lia.
    + rewrite inject_Z_mult.
      assert (2 ^ (ec - et - 53) == 2 ^ ec / (2 ^ et * inject_Z (2 ^ 53)))%Q as ->.
      { rewrite (Zpower_Qpower 2 53) by lia.
        replace (ec - et - 53) with (ec - (et + 53)) by lia.
        rewrite Qpower_minus, Qpower_plus by done. reflexivity. }
      assert (0 < inject_Z (2 ^ 53))%Q by reflexivity.
      field. split; [lra|]. split; lra.
  - rewrite <-Hhq.
    apply (within_scaled (Z.pos mp * 2 ^ (ep - (eq + eh)))
             (Z.pos mq * Z.pos mh) 1 (2 ^ (eq + eh))%Q);
      [lia|lia|apply Qpower_2_pos|by rewrite Z.mul_1_r| |].
    + rewrite inject_Z_mult, <-Qmult_assoc.
      by rewrite <-(Qpower_2_split ep (eq + eh)) by lia.
    + rewrite inject_Z_mult, Qpower_plus by done.
      change (inject_Z 1) with 1%Q. field.
Qed.

Lemma sumQ_within ε (X v : Mood * nat → Q) (t : list (Mood * nat)) :
  (∀ e, e ∈ t → within ε (X e) (v e)) →
  within ε (sumQ (X <$> t)) (sumQ (v <$> t)).
Proof.
  induction t as [|e t IH]; intros Hall; csimpl.
  - unfold within. lra.
  - assert (within ε (X e) (v e)) as [He1 He2] by (apply Hall; by left).
    destruct IH as [IH1 IH2]; [intros e' He'; apply Hall; by right|].
    unfold within. split; nra.
Qed.

Lemma sumQ_share (t : list (Mood * nat)) (total : nat) :
  (0 < total)%nat →
  (sumQ ((λ e, share e.2 total) <$> t)
   == inject_Z (Z.of_nat (sum_list t.*2)) / inject_Z (Z.of_nat total) * 100)%Q.
Proof.
  intros Htotal. unfold share.
  assert (¬ (inject_Z (Z.of_nat total) == 0)%Q) as Hnz.
  { change 0%Q with (inject_Z 0). rewrite inject_Z_injective. lia. }
  induction t as [|[m c] t IH]; csimpl.
  - field. exact Hnz.
  - rewrite IH. rewrite Nat2Z.inj_add, inject_Z_plus. field. exact Hnz.
Qed.

(** ** The histogram of the moods *)

(** C5, as stated, fails: of 100 moods 7 are happy, and the record's
    percentage is not [7 / 100 * 100 = 7]: the page divides and multiplies
    in double precision, [7 / 100] is rounded and its product by 100 is
    [7.000000000000001], that is [7 + 2^-50]; with the 93 of the other
    mood the percentages add up to [100 + 2^-50]. *)
Lemma calculateMoodStats_seven_of_a_hundred :
  let moods := replicate 7 happy ++ replicate 93 sad in
  let stats := MoodTracker.calculateMoodStats moods in
  stats
  = [{| MoodTracker.mood := sad; MoodTracker.count := 93;
        MoodTracker.percentage :=
          SpecFloat.S754_finite false 6544293208522752 (-46) |};
     {| MoodTracker.mood := happy; MoodTracker.count := 7;
        MoodTracker.percentage :=
          SpecFloat.S754_finite false 7881299347898369 (-50) |}]
  ∧ (share 7 100 == 7)%Q
  ∧ (value (SpecFloat.S754_finite false 7881299347898369 (-50))
     == 7 + (1 # 2 ^ 50))%Q
  ∧ ¬ (value (SpecFloat.S754_finite false 7881299347898369 (-50))
       == share 7 100)%Q
  ∧ (sumQ (value ∘ MoodTracker.percentage <$> stats) == 100 + (1 # 2 ^ 50))%Q.
Proof. by vm_compute. Qed.

(** C5, amended. For every sequence of moods (of fewer than [2^53], as
    every array is), [calculateMoodStats] returns one record per mood that
    occurs, holding the mood's number of occurrences and the share
    [count / total * 100] as the page computes it in double precision: the
    quotient rounded to the nearest double, and its product by 100 rounded
    again.  That number is finite and positive and lies within
    [2^-52 + 2^-106] of the exact share, relatively.  The records are
    sorted by count descending, and of two records with the same count the
    one whose mood is encountered first in the input comes first; the
    percentages sum to 100 within the same bound when the input is not
    empty, and the result is empty when the input is. *)
Theorem calculateMoodStats_histogram (moods : list Mood) :
  Z.of_nat (length moods) < 2 ^ 53 →
  let stats := MoodTracker.calculateMoodStats moods in
  let total := length moods in
  NoDup (MoodTracker.mood <$> stats)
  ∧ (∀ m, m ∈ MoodTracker.mood <$> stats ↔ m ∈ moods)
  ∧ (∀ r, r ∈ stats →
       MoodTracker.count r = occurrences (MoodTracker.mood r) moods
       ∧ MoodTracker.percentage r
         = Js.multiply
             (Js.divide (Js.ofZ (Z.of_nat (MoodTracker.count r)))
                (Js.ofZ (Z.of_nat total)))
             (Js.ofZ 100)
       ∧ (∃ m e, MoodTracker.percentage r = SpecFloat.S754_finite false m e)
       ∧ within rounding (share (MoodTracker.count r) total)
           (value (MoodTracker.percentage r)))
  ∧ StronglySorted
      (λ a b, (MoodTracker.count b < MoodTracker.count a)%nat
              ∨ (MoodTracker.count a = MoodTracker.count b
                 ∧ (first_index (MoodTracker.mood a) moods
                    < first_index (MoodTracker.mood b) moods)%nat))
      stats
  ∧ (moods ≠ [] →
       within rounding 100 (sumQ (value ∘ MoodTracker.percentage <$> stats)))
  ∧ MoodTracker.calculateMoodStats [] = [].
Proof.
  intros Hlength stats total.
  pose proof (calculateMoodStats_perm moods) as Hperm. fold stats total in Hperm.
  destruct (tally_spec moods) as (Hnd & Hcount & Hcover & Hsorted).
  set (mk := λ e : Mood * nat,
         {| MoodTracker.mood := e.1; MoodTracker.count := e.2;
            MoodTracker.percentage := MoodTracker.percent e.2 total |}) in *.
  assert ((MoodTracker.mood <$> stats) ≡ₚ (MoodTracker.tally moods).*1) as Hmoods.
  { rewrite Hperm, <-list_fmap_compose. done. }
  assert (∀ m c, (m, c) ∈ MoodTracker.tally moods →
            (0 < total)%nat
            ∧ (∃ mp ep, MoodTracker.percent c total
                        = SpecFloat.S754_finite false mp ep)
            ∧ within rounding (share c total)
                (value (MoodTracker.percent c total))) as Hpercent.
  { intros m c Hin. destruct (Hcount _ _ Hin) as [Hc Hm].
    pose proof (occurrences_pos m moods Hm) as Hpos.
    pose proof (occurrences_le m moods) as Hle. fold total in Hle.
    assert (0 < total)%nat as Htotal by lia.
    split; [done|]. apply percent_within; lia. }
  split_and!.
  - by rewrite Hmoods.
  - intros m. rewrite Hmoods. split; [|apply Hcover].
    intros ([m' c] & -> & Hin)%list_elem_of_fmap. by apply Hcount in Hin as [_ ?].
  - intros r. rewrite Hperm. intros ([m c] & -> & Hin)%list_elem_of_fmap.
    destruct (Hcount _ _ Hin) as [Hc Hm].
    destruct (Hpercent _ _ Hin) as (Htotal & Hfinite & Hwithin). simpl.
    split; [done|]. split; [|done].
    unfold MoodTracker.percent. by apply Nat.ltb_lt in Htotal as ->.
  - unfold stats, MoodTracker.calculateMoodStats.
    eapply StronglySorted_impl_elem_of; last first.
    + apply (sort_stable _
               (λ a b, (first_index (MoodTracker.mood a) moods
                        < first_index (MoodTracker.mood b) moods)%nat)).
      * intros a b. lia.
      * intros a b c. lia.
      * apply (StronglySorted_fmap _
                 (λ a b, (first_index a.1 moods < first_index b.1 moods)%nat));
          [|exact Hsorted].
        by intros [m1 c1] [m2 c2].
    + intros a b _ _ [Hlt|[Heq Hfirst]]; [left; lia|right; split; [lia|done]].
  - intros Hne.
    assert (0 < total)%nat as Htotal.
    { subst total. destruct moods; [done|simpl; lia]. }
    rewrite (sumQ_perm _ _ (fmap_Permutation _ _ _ Hperm)).
    rewrite <-list_fmap_compose.
    assert (100 == sumQ ((λ e, share e.2 total) <$> MoodTracker.tally moods))%Q
      as ->.
    { rewrite (sumQ_share _ _ Htotal), tally_sum. fold total.
      field. change 0%Q with (inject_Z 0). rewrite inject_Z_injective. lia. }
    apply sumQ_within. intros [m c] Hin. by apply (Hpercent m c).
  - reflexivity.
Qed.

(** Of 100 moods, 7 happy ones and 93 sad ones. *)
Lemma calculateMoodStats_histogram_witness :
  let moods := replicate 7 happy ++ replicate 93 sad in
  let stats := MoodTracker.calculateMoodStats moods in
  (∀ r, r ∈ stats →
     MoodTracker.count r = occurrences (MoodTracker.mood r) moods
     ∧ MoodTracker.percentage r
       = Js.multiply
           (Js.divide (Js.ofZ (Z.of_nat (MoodTracker.count r)))
              (Js.ofZ (Z.of_nat (length moods))))
           (Js.ofZ 100)
     ∧ (∃ m e, MoodTracker.percentage r = SpecFloat.S754_finite false m e)
     ∧ within rounding (share (MoodTracker.count r) (length moods))
         (value (MoodTracker.percentage r)))
  ∧ within rounding 100 (sumQ (value ∘ MoodTracker.percentage <$> stats)).
Proof.
  intros moods stats.
  destruct (calculateMoodStats_histogram moods) as (_ & _ & Hr & _ & Hsum & _);
    [by vm_compute|].
  split; [exact Hr|]. by apply Hsum.
Defined.

(** C10. Every record of the histogram has a count of at least 1, a mood
    that does not occur in the input has no record, and the counts add up
    to the length of the input. *)
Theorem calculateMoodStats_counts (moods : list Mood) :
  let stats := MoodTracker.calculateMoodStats moods in
  Forall (λ r, (1 ≤ MoodTracker.count r)%nat) stats
  ∧ (∀ m, m ∉ moods → m ∉ MoodTracker.mood <$> stats)
  ∧ sum_list_with MoodTracker.count stats = length moods.
Proof.
  intros stats.
  pose proof (calculateMoodStats_perm moods) as Hperm. fold stats in Hperm.
  destruct (tally_spec moods) as (Hnd & Hcount & Hcover & Hsorted).
  split_and!.
  - apply Forall_forall. intros r. rewrite Hperm.
    intros ([m c] & -> & Hin)%list_elem_of_fmap. simpl.
    destruct (Hcount _ _ Hin) as [-> Hm]. by apply occurrences_pos.
  - intros m Hm. rewrite Hperm, <-list_fmap_compose.
    intros ([m' c] & -> & Hin)%list_elem_of_fmap. apply Hm.
    by apply Hcount in Hin as [_ ?].
  - rewrite Hperm. etrans; [|apply tally_sum].
    generalize (length moods) (MoodTracker.tally moods). intros total t.
    induction t as [|[m c] t IH]; csimpl; [done|]. by rewrite IH.
Qed.

(** ** Dates *)

Lemma DayFromYear_succ y :
  Js.DayFromYear (y + 1) = Js.DayFromYear y + Js.DaysInYear y.
Proof.
  unfold Js.DayFromYear, Js.DaysInYear, Js.isLeapYear.
  destruct (Z.eqb_spec (y `mod` 4) 0), (Z.eqb_spec (y `mod` 100) 0),
    (Z.eqb_spec (y `mod` 400) 0); simpl;
    Z.div_mod_to_equations; lia.
Qed.

(** Moving a date one month back moves it back by the length of the
    previous month. *)
Lemma MakeDay_previous_month (f : Js.LocalFields) :
  0 ≤ Js.month f ≤ 11 →
  Js.MakeDay (Js.year f) (Js.month f - 1) (Js.date f) =
  Js.MakeDay (Js.year f) (Js.month f) (Js.date f)
  - Js.DaysInMonth (previousMonth f).1 (previousMonth f).2.
Proof.
  destruct f as [y m d t]. simpl. intros Hm. unfold previousMonth. simpl.
  assert (m = 0 ∨ m = 1 ∨ m = 2 ∨ m = 3 ∨ m = 4 ∨ m = 5 ∨ m = 6 ∨ m = 7
          ∨ m = 8 ∨ m = 9 ∨ m = 10 ∨ m = 11) as Hcases by lia.
  unfold Js.MakeDay.
  destruct Hcases as [->|Hcases].
  { change ((0 - 1) `div` 12) with (-1). change ((0 - 1) `mod` 12) with 11.
    change (0 `div` 12) with 0. change (0 `mod` 12) with 0.
    replace (y + 0) with ((y + -1) + 1) by lia.
    rewrite DayFromYear_succ. replace (y + -1 + 1) with y by lia.
    replace (y - 1) with (y + -1) by lia.
    unfold Js.DayWithinYearOfMonth, Js.DaysInMonth, Js.DaysInYear. simpl.
    destruct (Js.isLeapYear (y + -1)), (Js.isLeapYear y); lia. }
  repeat (destruct Hcases as [->|Hcases]); try subst m;
    unfold Js.DayWithinYearOfMonth, Js.DaysInMonth; simpl;
    rewrite ?Z.add_0_r; destruct (Js.isLeapYear y); lia.
Qed.

Lemma Day_UTC tz f :
  Js.Day (Js.UTC tz f) =
  Js.MakeDay (Js.year f) (Js.month f) (Js.date f)
  + (Js.timeInDay f - tz) `div` Js.msPerDay.
Proof.
  unfold Js.Day, Js.UTC, Js.MakeDate.
  rewrite <-Z.add_sub_assoc, Z.add_comm, Z.div_add by done. lia.
Qed.

(** The date moved one month back keeps its wall-clock time. *)
Lemma LocalTime_previous_month (today : Js.LocalFields) :
  0 ≤ Js.month today ≤ 11 →
  Js.LocalTime (Js.setMonth (Js.month today - 1) today) =
  Js.LocalTime today
  - Js.DaysInMonth (previousMonth today).1 (previousMonth today).2 * Js.msPerDay.
Proof.
  intros Hm. unfold Js.LocalTime, Js.MakeDate. simpl.
  rewrite MakeDay_previous_month by done. lia.
Qed.

(** The UTC day of the moved date, from the one of today: the offsets of
    the two dates enter through the UTC days on which the wall-clock time
    falls. *)
Lemma oneMonthAgoDay_back zone tz (today : Js.LocalFields) :
  0 ≤ Js.month today ≤ 11 →
  let back := Js.DaysInMonth (previousMonth today).1 (previousMonth today).2 in
  MemoryLane.oneMonthAgoDay zone today =
  Js.Day (Js.UTC tz today) - back
  + dayShift (Js.timeInDay today) tz
      (zone (Js.LocalTime today - back * Js.msPerDay)).
Proof.
  intros Hm back. unfold MemoryLane.oneMonthAgoDay, Js.TimeValue, dayShift.
  rewrite LocalTime_previous_month by done. fold back.
  rewrite !Day_UTC. simpl.
  rewrite MakeDay_previous_month by done. fold back. lia.
Qed.

Lemma dayShift_same t z : dayShift t z z = 0.
Proof. unfold dayShift. lia. Qed.

Lemma dayShift_later t z z' :
  z - Js.msPerDay ≤ z' ≤ z → 0 ≤ dayShift t z z' ≤ 1.
Proof.
  unfold dayShift, Js.msPerDay. intros Hz.
  Z.div_mod_to_equations. lia.
Qed.

Lemma dayShift_earlier t z z' :
  z ≤ z' ≤ z + Js.msPerDay → -1 ≤ dayShift t z z' ≤ 0.
Proof.
  unfold dayShift, Js.msPerDay. intros Hz.
  Z.div_mod_to_equations. lia.
Qed.

Lemma DaysInMonth_bounds y m : 28 ≤ Js.DaysInMonth y m ≤ 31.
Proof.
  unfold Js.DaysInMonth.
  destruct (m =? 1), (Js.isLeapYear y),
    ((m =? 3) || (m =? 5) || (m =? 8) || (m =? 10)); lia.
Qed.

(** ** Requests *)

Lemma await_down {S A} v rel
    (run : Z → Db.Database → Db.PgError + (Db.Database * A)) w (s : S) :
  network_up w = false →
  await v rel run w s = (send v rel w, s, Returned (inl Db.FetchFailed)).
Proof. intros Hnet. unfold await, request. by rewrite Hnet. Qed.

Lemma await_undefined {S A} v rel
    (run : Z → Db.Database → Db.PgError + (Db.Database * A)) w (s : S) :
  network_up w = true → rel ∉ Db.relations →
  await v rel run w s = (send v rel w, s, Returned (inl Db.UndefinedTable)).
Proof.
  intros Hnet Hrel. unfold await, request. rewrite Hnet. simpl.
  by rewrite bool_decide_eq_false_2.
Qed.

Lemma await_up {S A} v rel
    (run : Z → Db.Database → Db.PgError + (Db.Database * A)) w (s : S) :
  network_up w = true → rel ∈ Db.relations →
  await v rel run w s =
  match run (clock w) (db w) with
  | inl error => (send v rel w, s, Returned (inl error))
  | inr (d, data) => (with_db d (send v rel w), s, Returned (inr data))
  end.
Proof.
  intros Hnet Hrel. unfold await, request. rewrite Hnet. simpl.
  by rewrite bool_decide_eq_true_2.
Qed.

Lemma relation_posts : "posts" ∈ Db.relations.
Proof. unfold Db.relations. set_solver. Qed.

Lemma relation_reactions : "reactions" ∈ Db.relations.
Proof. unfold Db.relations. set_solver. Qed.

Lemma relation_photos : "photos" ∈ Db.relations.
Proof. unfold Db.relations. set_solver. Qed.

Lemma relation_playlist : "playlist" ∈ Db.relations.
Proof. unfold Db.relations. set_solver. Qed.

Lemma relation_quotes : "quotes" ∈ Db.relations.
Proof. unfold Db.relations. set_solver. Qed.

Lemma relation_chat_messages : "chat_messages" ∈ Db.relations.
Proof. unfold Db.relations. set_solver. Qed.

(** The relation the Diary page names is not one of the schema. *)
Lemma relation_daily_diary : Diary.table ∉ Db.relations.
Proof.
  unfold Diary.table, Db.relations. rewrite !not_elem_of_cons.
  split_and!; [done..|apply not_elem_of_nil].
Qed.

Lemma loadPosts_down auth w s :
  network_up w = false →
  Timeline.loadPosts auth w s =
  (log_error "Error loading posts:" (send SELECT "posts" w),
   Timeline.setLoading false s, Returned ()).
Proof.
  intros Hnet.
  unfold Timeline.loadPosts, Timeline.loadPostsWhen, finally, try_catch, bind, get.
  by rewrite Hnet.
Qed.

(** ** MemoryLane *)

Lemma loadMemories_fetch auth u w s :
  user auth = Some u → network_up w = true →
  MemoryLane.loadMemories auth w s =
  (send SELECT "posts" w,
   MemoryLane.setLoading false
     (MemoryLane.setMemories
        (Db.limit (Db.row_limit (MemoryLane.query (MemoryLane.filter s) auth (zone w) (now w)))
           (Db.order false Post.created_at
              (Db.select (Db.post_visible (db w) (user auth))
                 (Db.post_matches
                    (MemoryLane.query (MemoryLane.filter s) auth (zone w) (now w)))
                 (Db.posts (db w)))))
        s),
   Returned ()).
Proof.
  intros Hu Hnet. unfold MemoryLane.loadMemories. rewrite Hu.
  unfold finally, try_catch, bind, get, new_Date, LocalTZA. simpl.
  rewrite await_up by (done || apply relation_posts).
  unfold Db.select_posts. simpl. by destruct w.
Qed.

(** C8, as stated, fails: on 15 March 2025 the month filter asks for the
    posts of 15 February, which lies 28 days back, not 30. *)
Lemma loadMemories_month_window_28_days_back :
  let today := Example.noon_15_march_2025 in
  let q := MemoryLane.query MemoryLane.month Example.as_alice (λ _, 0) today in
  Js.valid_fields today
  ∧ Db.created_gte q = Some (MemoryLane.startOfDay (Js.Day (Js.UTC 0 today) - 28))
  ∧ Db.created_lte q = Some (MemoryLane.lastSecondOfDay (Js.Day (Js.UTC 0 today) - 28))
  ∧ Db.created_gte q ≠ Some (MemoryLane.startOfDay (Js.Day (Js.UTC 0 today) - 30))
  ∧ MemoryLane.memories
      (state_after (MemoryLane.loadMemories Example.as_alice) Example.world
         (Example.memoryLane MemoryLane.month))
    = [Example.post 11 2 "thaw" 1739620800000].
Proof. by vm_compute. Qed.

(** C8, amended. The month filter of Memory Lane fetches the posts of a
    single day: the UTC day of the instant reached by moving the current
    local date one calendar month back at the same wall-clock time.  The
    local date moves back by the length of the previous month ([back], 28
    to 31 days); the UTC day moves back as far when the zone's offset at
    the moved date is today's, and otherwise by [shift] days less, which
    is 0 or 1 where the offset was lower then (daylight saving began in
    between) and 0 or -1 where it was higher: 27 to 32 days in all.  The
    fetch keeps the visible posts created from that day's 00:00:00 to its
    23:59:59, both read in UTC. *)
Theorem loadMemories_month_window auth u w s :
  user auth = Some u → network_up w = true →
  MemoryLane.filter s = MemoryLane.month →
  Js.valid_fields (now w) →
  let back := Js.DaysInMonth (previousMonth (now w)).1 (previousMonth (now w)).2 in
  let before := zone w (Js.LocalTime (now w) - back * Js.msPerDay) in
  let shift := dayShift (Js.timeInDay (now w)) (tza w) before in
  let day := Js.Day (clock w) - back + shift in
  28 ≤ back ≤ 31
  ∧ (before = tza w → shift = 0)
  ∧ (tza w - Js.msPerDay ≤ before ≤ tza w → 0 ≤ shift ≤ 1)
  ∧ (tza w ≤ before ≤ tza w + Js.msPerDay → -1 ≤ shift ≤ 0)
  ∧ MemoryLane.startOfDay day = day * Js.msPerDay
  ∧ MemoryLane.lastSecondOfDay day = day * Js.msPerDay + 86399000
  ∧ ∀ p, p ∈ MemoryLane.memories (state_after (MemoryLane.loadMemories auth) w s) ↔
         p ∈ Db.posts (db w)
         ∧ Db.post_visible (db w) (user auth) p
         ∧ Db.owner_matches (MemoryLane.ownerFilter auth) (Post.user_id p)
         ∧ MemoryLane.startOfDay day ≤ Post.created_at p
           ≤ MemoryLane.lastSecondOfDay day.
Proof.
  intros Hu Hnet Hf Hvalid back before shift day.
  assert (0 ≤ Js.month (now w) ≤ 11) as Hm.
  { apply Is_true_eq_true in Hvalid. unfold Js.valid_fields in Hvalid.
    rewrite !andb_true_iff, !Z.leb_le in Hvalid. lia. }
  split; [apply DaysInMonth_bounds|].
  split; [intros Hsame; subst shift; rewrite Hsame; apply dayShift_same|].
  split; [apply dayShift_later|].
  split; [apply dayShift_earlier|].
  split; [unfold MemoryLane.startOfDay, Js.MakeDate; lia|].
  split; [unfold MemoryLane.lastSecondOfDay, Js.MakeDate; lia|].
  intros p. unfold state_after.
  rewrite (loadMemories_fetch auth u) by done. simpl. rewrite Hf. simpl.
  unfold Db.order. rewrite sort_elem_of. unfold Db.select.
  rewrite list_elem_of_filter. unfold Db.post_matches. simpl.
  rewrite (oneMonthAgoDay_back (zone w) (tza w)) by done.
  fold back. fold before. fold shift. fold (clock w). fold day.
  rewrite !andb_True, !Is_true_true, !Z.leb_le. tauto.
Qed.

(** In New York on 15 March 2025 at 19:30 the month filter asks for the
    posts of 16 February (the day 20135), 27 days before the UTC date. *)
Lemma loadMemories_month_window_witness :
  let w := Example.newYork in
  let back := Js.DaysInMonth (previousMonth (now w)).1 (previousMonth (now w)).2 in
  let before := zone w (Js.LocalTime (now w) - back * Js.msPerDay) in
  let shift := dayShift (Js.timeInDay (now w)) (tza w) before in
  let day := Js.Day (clock w) - back + shift in
  (back = 28 ∧ before = -18000000 ∧ shift = 1 ∧ Js.Day (clock w) = 20162
   ∧ day = 20135)
  ∧ 28 ≤ back ≤ 31
  ∧ (before = tza w → shift = 0)
  ∧ (tza w - Js.msPerDay ≤ before ≤ tza w → 0 ≤ shift ≤ 1)
  ∧ (tza w ≤ before ≤ tza w + Js.msPerDay → -1 ≤ shift ≤ 0)
  ∧ MemoryLane.startOfDay day = day * Js.msPerDay
  ∧ MemoryLane.lastSecondOfDay day = day * Js.msPerDay + 86399000
  ∧ ∀ p, p ∈ MemoryLane.memories
               (state_after (MemoryLane.loadMemories Example.as_alice) w
                  (Example.memoryLane MemoryLane.month)) ↔
         p ∈ Db.posts (db w)
         ∧ Db.post_visible (db w) (user Example.as_alice) p
         ∧ Db.owner_matches (MemoryLane.ownerFilter Example.as_alice) (Post.user_id p)
         ∧ MemoryLane.startOfDay day ≤ Post.created_at p
           ≤ MemoryLane.lastSecondOfDay day.
Proof.
  split; [by vm_compute|].
  apply (loadMemories_month_window Example.as_alice 1%nat Example.newYork
           (Example.memoryLane MemoryLane.month));
    [reflexivity|reflexivity|reflexivity|vm_compute; exact I].
Defined.

(** ** Blank texts *)

Lemma trimStart_whitespace s :
  Forall (λ c, Js.isWhiteSpace c) s → Js.trimStart s = [].
Proof.
  induction 1 as [|c s Hc _ IH]; simpl; [done|].
  by rewrite (Is_true_eq_true _ Hc).
Qed.

(** A text of white space only (the empty text too) is blank. *)
Lemma blank_whitespace s : Forall (λ c, Js.isWhiteSpace c) s → blank s = true.
Proof.
  intros Hs. unfold blank, Js.trim, Js.trimEnd.
  by rewrite (trimStart_whitespace s Hs).
Qed.

(** ** Creating with a blank text *)

(** C7, as stated, fails: submitting a post of three spaces reports
    nothing.  The handler returns normally, writes nothing to the console,
    leaves the form as it was and sends no request; no row is inserted. *)
Lemma handleSubmitPost_blank_reports_nothing :
  let s := Example.timeline Timeline.all "   " in
  let w := Example.world in
  outcome_of (Timeline.handleSubmitPost Example.as_alice) w s = Returned ()
  ∧ console (world_after (Timeline.handleSubmitPost Example.as_alice) w s) = console w
  ∧ state_after (Timeline.handleSubmitPost Example.as_alice) w s = s
  ∧ requests (world_after (Timeline.handleSubmitPost Example.as_alice) w s) = requests w
  ∧ db (world_after (Timeline.handleSubmitPost Example.as_alice) w s) = db w.
Proof. by vm_compute. Qed.

(** C7, amended. For every create handler (post content, song title and
    url, photo url, quote text, chat message text), a call whose required
    text is blank or of white space only is a silent no-op: it returns
    normally with the world and the page unchanged, so no row is inserted,
    no request is sent and no error is reported. *)
Theorem create_blank_is_silent_noop auth w
    (post : Timeline.State) (song : Playlist.State) (photo : Photos.State)
    (quote : Quotes.State) (chat : Chat.State) :
  Forall (λ c, Js.isWhiteSpace c) (Timeline.newPost post) →
  Forall (λ c, Js.isWhiteSpace c) (Playlist.songTitle song)
    ∨ Forall (λ c, Js.isWhiteSpace c) (Playlist.songUrl song) →
  Forall (λ c, Js.isWhiteSpace c) (Photos.photoUrl photo) →
  Forall (λ c, Js.isWhiteSpace c) (Quotes.quoteText quote) →
  Forall (λ c, Js.isWhiteSpace c) (Chat.newMessage chat) →
  Timeline.handleSubmitPost auth w post = (w, post, Returned ())
  ∧ Playlist.handleAddSong auth w song = (w, song, Returned ())
  ∧ Photos.handleAddPhoto auth w photo = (w, photo, Returned ())
  ∧ Quotes.handleAddQuote auth w quote = (w, quote, Returned ())
  ∧ Chat.handleSendMessage auth w chat = (w, chat, Returned ()).
Proof.
  intros Hpost Hsong Hphoto Hquote Hchat.
  apply blank_whitespace in Hpost, Hphoto, Hquote, Hchat.
  assert (blank (Playlist.songTitle song) || blank (Playlist.songUrl song) = true)
    as Hsong'.
  { destruct Hsong as [->%blank_whitespace| ->%blank_whitespace];
      [done|apply orb_true_r]. }
  unfold Timeline.handleSubmitPost, Playlist.handleAddSong,
    Photos.handleAddPhoto, Quotes.handleAddQuote, Chat.handleSendMessage,
    bind, get, ret.
  rewrite Hpost, Hsong', Hphoto, Hquote, Hchat.
  by destruct (user auth).
Qed.

Lemma create_blank_is_silent_noop_witness :
  let w := Example.world in
  let auth := Example.as_alice in
  Timeline.handleSubmitPost auth w (Example.timeline Timeline.all "   ")
    = (w, Example.timeline Timeline.all "   ", Returned ())
  ∧ Playlist.handleAddSong auth w (Example.playlistPage "Song" " ")
    = (w, Example.playlistPage "Song" " ", Returned ())
  ∧ Photos.handleAddPhoto auth w (Example.photosPage "")
    = (w, Example.photosPage "", Returned ())
  ∧ Quotes.handleAddQuote auth w (Example.quotesPage "  ")
    = (w, Example.quotesPage "  ", Returned ())
  ∧ Chat.handleSendMessage auth w (Example.chatPage " ")
    = (w, Example.chatPage " ", Returned ()).
Proof.
  apply (create_blank_is_silent_noop Example.as_alice Example.world
           (Example.timeline Timeline.all "   ") (Example.playlistPage "Song" " ")
           (Example.photosPage "") (Example.quotesPage "  ")
           (Example.chatPage " "));
    [|right|..]; vm_compute; repeat constructor.
Defined.

(** ** Deleting what another user owns *)

(** C9. A delete call by a caller who is not the owner of the row (a photo,
    a song) is a silent no-op at the guard: whatever the page holds and
    whichever row the call names, when the owner's id it is given is not
    the caller's (or nobody is signed in) the handler returns normally with
    the world and the page unchanged, so no error is raised or logged, no
    request is sent, and every row is still there.  Were the DELETE sent all
    the same, the policies "Users can delete own photos" and "Users can
    delete own playlist items" would leave a row of another user in place. *)
Theorem delete_by_non_owner_is_noop auth w :
  (∀ (sp : Photos.State) (photoId photoUserId : uuid),
     user auth ≠ Some photoUserId →
     Photos.handleDeletePhoto auth photoId photoUserId w sp = (w, sp, Returned ())
     ∧ Db.photos (db (world_after
                        (Photos.handleDeletePhoto auth photoId photoUserId) w sp))
       = Db.photos (db w))
  ∧ (∀ (ss : Playlist.State) (songId songUserId : uuid),
       user auth ≠ Some songUserId →
       Playlist.handleDeleteSong auth songId songUserId w ss = (w, ss, Returned ())
       ∧ Db.playlist (db (world_after
                            (Playlist.handleDeleteSong auth songId songUserId) w ss))
         = Db.playlist (db w))
  ∧ (∀ (photoId : uuid) (photo : Photo.t),
       photo ∈ Db.photos (db w) →
       user auth ≠ Some (Photo.user_id photo) →
       ∃ d, Db.delete_photo (user auth) photoId (db w) = inr (d, ())
            ∧ photo ∈ Db.photos d)
  ∧ (∀ (songId : uuid) (song : PlaylistItem.t),
       song ∈ Db.playlist (db w) →
       user auth ≠ Some (PlaylistItem.user_id song) →
       ∃ d, Db.delete_song (user auth) songId (db w) = inr (d, ())
            ∧ song ∈ Db.playlist d).
Proof.
  split_and!.
  - intros sp photoId photoUserId Hp.
    unfold world_after, Photos.handleDeletePhoto.
    by rewrite decide_False by done.
  - intros ss songId songUserId Hs.
    unfold world_after, Playlist.handleDeleteSong.
    by rewrite decide_False by done.
  - intros photoId photo Hin Hp. eexists. split; [reflexivity|].
    simpl. unfold Db.delete. apply list_elem_of_filter. split; [|done].
    unfold Db.targeted, Db.photo_own, Db.authenticated, Db.own.
    destruct (user auth) as [u|]; simpl.
    + rewrite (bool_decide_eq_false_2 (Photo.user_id photo = u)) by congruence.
      by rewrite andb_false_r.
    + done.
  - intros songId song Hin Hs. eexists. split; [reflexivity|].
    simpl. unfold Db.delete. apply list_elem_of_filter. split; [|done].
    unfold Db.targeted, Db.song_own, Db.authenticated, Db.own.
    destruct (user auth) as [u|]; simpl.
    + rewrite (bool_decide_eq_false_2 (PlaylistItem.user_id song = u)) by congruence.
      by rewrite andb_false_r.
    + done.
Qed.

Lemma delete_by_non_owner_is_noop_witness :
  let auth := Example.as_alice in
  let w := Example.world in
  let sp := Example.photosPage "" in
  let ss := Example.playlistPage "" "" in
  Photos.handleDeletePhoto auth 20%nat 2%nat w sp = (w, sp, Returned ())
  ∧ (∃ photo, Photo.id photo = 20%nat ∧ Photo.user_id photo = 2%nat
       ∧ photo ∈ Db.photos (db (world_after
                     (Photos.handleDeletePhoto auth 20%nat 2%nat) w sp)))
  ∧ Playlist.handleDeleteSong auth 30%nat 2%nat w ss = (w, ss, Returned ())
  ∧ (∃ song, PlaylistItem.id song = 30%nat ∧ PlaylistItem.user_id song = 2%nat
       ∧ song ∈ Db.playlist (db (world_after
                     (Playlist.handleDeleteSong auth 30%nat 2%nat) w ss))).
Proof.
  destruct (delete_by_non_owner_is_noop Example.as_alice Example.world)
    as (Hphotos & Hsongs & _ & _).
  destruct (Hphotos (Example.photosPage "") 20%nat 2%nat) as [H1 H2];
    [discriminate|].
  destruct (Hsongs (Example.playlistPage "" "") 30%nat 2%nat) as [H3 H4];
    [discriminate|].
  split; [exact H1|]. split.
  { exists {| Photo.id := 20; Photo.user_id := 2;
              Photo.photo_url := Js.of_ascii "https://example.org/b.jpg";
              Photo.caption := None; Photo.uploaded_at := 1741953600000 |}.
    rewrite H2. split; [reflexivity|]. split; [reflexivity|].
    apply list_elem_of_singleton. reflexivity. }
  split; [exact H3|].
  exists {| PlaylistItem.id := 30; PlaylistItem.user_id := 2;
            PlaylistItem.song_title := Js.of_ascii "Song";
            PlaylistItem.song_url := Js.of_ascii "https://example.org/s";
            PlaylistItem.added_at := 1741953600000 |}.
  rewrite H4. split; [reflexivity|]. split; [reflexivity|].
  apply list_elem_of_singleton. reflexivity.
Defined.

(** ** A fetch that fails *)




(** ** Quotes *)

(** The insert policy of [quotes] admits a row only for the caller's
    partner. *)
Lemma insert_quote_policy session now owner text d d' :
  Db.insert_quote session now owner text d = inr (d', ()) →
  ∃ uid, session = Some uid ∧ owner ∈ Db.partner_ids d uid.
Proof.
  unfold Db.insert_quote, Db.checked, Db.quote_insert_check, Db.authenticated.
  destruct session as [uid|]; [|done]. unfold Db.of_partner.
  destruct (decide (owner ∈ Db.partner_ids d uid)) as [Hin|Hnot].
  - intros _. by exists uid.
  - by rewrite bool_decide_eq_false_2.
Qed.

(** [handleAddQuote] submits the caller's own id as [user_id]: for a caller
    who is not their own partner the backend refuses the row, and no quote
    is stored. *)
Lemma handleAddQuote_stores_nothing auth u w s :
  user auth = Some u → u ∉ Db.partner_ids (db w) u →
  db (world_after (Quotes.handleAddQuote auth) w s) = db w.
Proof.
  intros Hu Hnot. unfold world_after, Quotes.handleAddQuote, bind, get. simpl.
  rewrite Hu. destruct (blank (Quotes.quoteText s)); [done|].
  unfold finally, try_catch, bind, modify. simpl.
  destruct (network_up w) eqn:Hnet.
  - rewrite await_up by (done || apply relation_quotes). simpl.
    unfold Db.insert_quote, Db.checked, Db.quote_insert_check, Db.of_partner. simpl.
    by rewrite bool_decide_eq_false_2.
  - by rewrite await_down.
Qed.

(** C1, at the failing input: Alice, whose partner is Bob, adds the quote
    "xo".  The page submits the row with Alice's own id; the policy
    "Users can create quotes for partner" refuses it (it admits Bob's id),
    the error is logged, and no quote is stored. *)
Lemma handleAddQuote_submits_own_id :
  let w := Example.world in
  let s := Example.quotesPage "xo" in
  let w' := world_after (Quotes.handleAddQuote Example.as_alice) w s in
  requests w' = [{| verb := INSERT; relation := "quotes" |}]
  ∧ console w' = ["Error adding quote:"]
  ∧ Db.quotes (db w') = []
  ∧ Db.insert_quote (Some 1%nat) (clock w) 1%nat (Js.of_ascii "xo") (db w)
    = inl Db.RlsViolation
  ∧ Db.insert_quote (Some 1%nat) (clock w) 2%nat (Js.of_ascii "xo") (db w)
    = inr (Db.with_quotes (db w)
             [{| Quote.id := 1; Quote.user_id := 2;
                 Quote.quote_text := Js.of_ascii "xo";
                 Quote.is_read := false; Quote.created_at := clock w |}],
           ()).
Proof. by vm_compute. Qed.

(** ** The timeline's owner filter *)

Lemma ownerFilter_theirs_without_partner auth :
  partnerProfile auth = None →
  Timeline.ownerFilter Timeline.theirs auth = Db.NoOwnerFilter.
Proof. intros Hp. unfold Timeline.ownerFilter. rewrite Hp. by destruct (user auth). Qed.

(** C2, at the failing input: Carol has no partner and one post.  With the
    filter 'theirs' the fetch names no owner at all, and her timeline shows
    her own post.  (The Diary page, in the same situation, asks for the
    caller's own rows by id.) *)
Lemma loadPosts_theirs_without_partner :
  let s := Example.timeline Timeline.theirs "" in
  Timeline.ownerFilter Timeline.theirs Example.as_carol = Db.NoOwnerFilter
  ∧ Timeline.posts (state_after (Timeline.loadPosts Example.as_carol) Example.world s)
    = [Example.post 13 3 "alone" 1741953600000]
  ∧ outcome_of (Timeline.loadPosts Example.as_carol) Example.world s = Returned ()
  ∧ Diary.ownerFilter Example.as_carol = Db.OwnerEq 3.
Proof. by vm_compute. Qed.

(** ** The diary *)

(** C4, on the code: every query of the Diary page names the relation
    [daily_diary], which the schema does not have (it creates
    [daily_diaries]); so saving never changes the backend's rows, whatever
    the caller, the world and the form hold. *)
Lemma handleSave_stores_nothing auth w s :
  db (world_after (Diary.handleSave auth) w s) = db w.
Proof.
  unfold world_after, Diary.handleSave, Diary.handleSaveTo, bind, get. simpl.
  destruct (user auth) as [u|] eqn:Hu; [|done].
  destruct (blank (Diary.content s)); [done|].
  unfold finally, try_catch, bind, modify, Diary.today. simpl.
  destruct (network_up w) eqn:Hnet.
  - destruct (Diary.todayEntry s);
      by rewrite await_undefined by (done || apply relation_daily_diary).
  - destruct (Diary.todayEntry s); by rewrite await_down.
Qed.

(** Alice saves her diary twice: both requests fail, and no entry exists
    afterwards. *)
Lemma handleSave_twice_no_entry :
  let s := Example.diaryPage "dear diary" in
  let w1 := world_after (Diary.handleSave Example.as_alice) Example.world s in
  let s1 := state_after (Diary.handleSave Example.as_alice) Example.world s in
  let w2 := world_after (Diary.handleSave Example.as_alice) w1 s1 in
  Db.daily_diaries (db w2) = []
  ∧ requests w2 = [{| verb := INSERT; relation := "daily_diary" |};
                   {| verb := INSERT; relation := "daily_diary" |}]
  ∧ console w2 = ["Error saving diary:"; "Error saving diary:"].
Proof. by vm_compute. Qed.

(** ** The timeline's reactions *)

Lemma loadPosts_up auth w s :
  network_up w = true →
  Timeline.loadPosts auth w s =
  (send SELECT "reactions" (send SELECT "posts" w), loaded auth (db w) s,
   Returned ()).
Proof.
  intros Hnet.
  unfold Timeline.loadPosts, Timeline.loadPostsWhen, finally, try_catch, bind, get.
  rewrite Hnet. unfold request.
  rewrite bool_decide_eq_true_2 by apply relation_posts.
  unfold Db.select_posts, throw_if_error, ret, modify. simpl.
  rewrite ?(bool_decide_eq_true_2 _ relation_reactions).
  unfold Db.select_reactions. simpl. by destruct w.
Qed.

(** The handler alone, up to its return: the one statement has been sent,
    the page is as it was, and the reload is what is left running. *)
Lemma handleReaction_started auth c p k w s :
  user auth = Some c →
  ∃ w1, Timeline.handleReaction auth p k w s
        = (w1, s, Returned (Timeline.loadPosts auth))
        ∧ network_up w1 = network_up w ∧ now w1 = now w ∧ tza w1 = tza w
        ∧ console w1 = console w
        ∧ db w1 = if network_up w
                  then reactionStatement (user auth) (clock w)
                         (Timeline.existingReaction s p c) p c k (db w)
                  else db w.
Proof.
  intros Hu. unfold reactionStatement.
  unfold Timeline.handleReaction, bind, get, try_catch. simpl. rewrite Hu.
  destruct (network_up w) eqn:Hnet.
  - destruct (Timeline.existingReaction s p c) as [e|];
      [destruct (decide (Reaction.reaction_type e = k))|];
      unfold bind, ret;
      rewrite await_up by (done || apply relation_reactions).
    + unfold Db.delete_reaction. eexists. split; [reflexivity|]. done.
    + destruct (Db.update_reaction (Some c) (Reaction.id e) k (db w))
        as [err|[d' []]]; eexists; (split; [reflexivity|]); done.
    + destruct (Db.insert_reaction (Some c) (clock w) p c k (db w))
        as [err|[d' []]]; eexists; (split; [reflexivity|]); done.
  - destruct (Timeline.existingReaction s p c) as [e|];
      [destruct (decide (Reaction.reaction_type e = k))|];
      unfold bind, ret; rewrite await_down by done;
      eexists; (split; [reflexivity|]); done.
Qed.

Lemma handleReaction_up auth c p k w s :
  user auth = Some c → network_up w = true →
  let d' := reactionStatement (user auth) (clock w)
              (Timeline.existingReaction s p c) p c k (db w) in
  let run := settled (Timeline.handleReaction auth p k) in
  let w' := world_after run w s in
  db w' = d' ∧ network_up w' = true ∧ now w' = now w ∧ tza w' = tza w
  ∧ console w' = console w
  ∧ state_after run w s = loaded auth d' s
  ∧ outcome_of run w s = Returned ().
Proof.
  intros Hu Hnet d' run. subst run d'.
  destruct (handleReaction_started auth c p k w s Hu)
    as (w1 & Heq & Hnet1 & Hnow1 & Htza1 & Hconsole1 & Hdb1).
  rewrite Hnet in Hnet1, Hdb1.
  unfold world_after, state_after, outcome_of, settled, bind.
  rewrite Heq, loadPosts_up by done. simpl. by rewrite Hdb1.
Qed.

Lemma reactionsByPost_lookup l p :
  Timeline.reactionsByPost l !! p =
  match filter (λ r, Reaction.post_id r = p) l with
  | [] => None
  | rs => Some rs
  end.
Proof.
  unfold Timeline.reactionsByPost.
  induction l as [|r l IH] using rev_ind; [done|].
  rewrite foldl_snoc, filter_app, filter_cons, filter_nil.
  destruct (decide (Reaction.post_id r = p)) as [->|Hne].
  - rewrite lookup_insert_eq, IH.
    by destruct (filter _ l).
  - rewrite lookup_insert_ne, IH, app_nil_r by done. done.
Qed.

Lemma existingReaction_reactionsByPost s l p c :
  Timeline.reactions s = Timeline.reactionsByPost l →
  Timeline.existingReaction s p c =
  head (filter (λ r, Reaction.user_id r = c)
          (filter (λ r, Reaction.post_id r = p) l)).
Proof.
  intros Hs. unfold Timeline.existingReaction.
  rewrite Hs, reactionsByPost_lookup.
  by destruct (filter (λ r, Reaction.post_id r = p) l).
Qed.

(** A post on the page is one the caller may see. *)
Lemma loadedPosts_visible auth f d p :
  p ∈ Post.id <$> loadedPosts auth f d →
  p ∈ Post.id <$> filter (λ x, Db.post_visible d (user auth) x) (Db.posts d).
Proof.
  intros (x & -> & Hx)%list_elem_of_fmap. apply list_elem_of_fmap_2.
  unfold loadedPosts, Db.order, Db.select in Hx.
  rewrite sort_elem_of, list_elem_of_filter in Hx. destruct Hx as [Hv Hx].
  apply list_elem_of_filter. split; [|done].
  by apply andb_True in Hv as [? _].
Qed.

(** What [handleReaction] finds on a current page is the caller's reaction
    on the post, if the backend holds one. *)
Lemma existingReaction_current auth c p w s :
  user auth = Some c → current auth w s →
  p ∈ Post.id <$> Timeline.posts s →
  Timeline.existingReaction s p c = head (reactionsOf p c (db w)).
Proof.
  intros Hu Hcur Hp. unfold current in Hcur.
  assert (Timeline.posts s = loadedPosts auth (Timeline.filter s) (db w)) as Hposts.
  { by rewrite <-Hcur at 1. }
  assert (Timeline.reactions s =
          Timeline.reactionsByPost
            (loadedReactions auth (Post.id <$> Timeline.posts s) (db w))) as Hrs.
  { rewrite <-Hcur at 1. simpl. by rewrite <-Hposts. }
  rewrite (existingReaction_reactionsByPost _ _ _ _ Hrs).
  unfold loadedReactions, Db.select, reactionsOf.
  rewrite !list_filter_filter. f_equal. apply list_filter_iff.
  intros r. unfold Db.reaction_key. split.
  - intros [[Hc Hpost] _]. by rewrite Hc, Hpost.
  - intros [= Hpost Hc]. split; [done|].
    apply andb_True. split; apply bool_decide_pack; rewrite Hpost; [|done].
    rewrite Hposts in Hp. by apply loadedPosts_visible in Hp.
Qed.

Lemma filter_none {A} (P : A → Prop) `{∀ x, Decision (P x)} (l : list A) :
  (∀ x, x ∈ l → ¬ P x) → filter P l = [].
Proof.
  induction l as [|x l IH]; [done|]. intros Hl.
  rewrite filter_cons, decide_False by (apply Hl; by left).
  apply IH. intros y Hy. apply Hl. by right.
Qed.

Lemma NoDup_fmap_same {A B} (f : A → B) (l : list A) x y :
  NoDup (f <$> l) → x ∈ l → y ∈ l → f x = f y → x = y.
Proof.
  induction l as [|z l IH]; csimpl; [by intros _ ?%elem_of_nil|].
  intros [Hz Hl]%NoDup_cons [->|Hx]%elem_of_cons [->|Hy]%elem_of_cons Hf.
  - done.
  - destruct Hz. rewrite Hf. by apply list_elem_of_fmap_2.
  - destruct Hz. rewrite <-Hf. by apply list_elem_of_fmap_2.
  - by apply IH.
Qed.

Lemma NoDup_fmap_filter {A B} (f : A → B) (P : A → Prop)
    `{∀ x, Decision (P x)} (l : list A) :
  NoDup (f <$> l) → NoDup (f <$> filter P l).
Proof.
  induction l as [|z l IH]; csimpl; [done|].
  intros [Hz Hl]%NoDup_cons. rewrite filter_cons.
  destruct (decide (P z)); csimpl; [|by apply IH].
  apply NoDup_cons. split; [|by apply IH].
  intros (y & Hy & [_ Hin]%list_elem_of_filter)%list_elem_of_fmap.
  apply Hz. rewrite Hy. by apply list_elem_of_fmap_2.
Qed.

Lemma filter_fmap_key {A K} `{EqDecision K} (key : A → K) (g : A → A) x
    (l : list A) :
  (∀ r, key (g r) = key r) →
  filter (λ r, key r = x) (g <$> l) = g <$> filter (λ r, key r = x) l.
Proof.
  intros Hg. induction l as [|r l IH]; csimpl; [done|].
  rewrite !filter_cons, Hg. destruct (decide (key r = x)); csimpl; by rewrite IH.
Qed.

Lemma gen_random_uuid_fresh used : Db.gen_random_uuid used ∉ used.
Proof.
  unfold Db.gen_random_uuid. intros Hin%max_list_elem_of_le. lia.
Qed.

(** The caller's reactions on a post are at most one. *)
Lemma reactionsOf_unique p c d e :
  NoDup (Db.reaction_key <$> Db.reactions d) →
  head (reactionsOf p c d) = Some e → reactionsOf p c d = [e].
Proof.
  intros Hnd He. unfold reactionsOf in *.
  destruct (filter _ (Db.reactions d)) as [|e' [|e'' l]] eqn:Hf; simplify_eq/=;
    [done|].
  assert (e ∈ e :: e'' :: l) as H1 by (by left).
  assert (e'' ∈ e :: e'' :: l) as H2 by (right; by left).
  rewrite <-Hf in H1, H2. apply list_elem_of_filter in H1 as [K1 H1], H2 as [K2 H2].
  exfalso. apply (NoDup_fmap_filter Db.reaction_key (λ r, Db.reaction_key r = (p, c)))
    in Hnd. rewrite Hf in Hnd. csimpl in Hnd.
  apply NoDup_cons in Hnd as [Hnd _]. apply Hnd. rewrite K1, K2. by left.
Qed.

(** The one statement of a toggle, on rows that satisfy the constraints:
    it leaves of the caller's reactions on the post what [toggled] says,
    keeps the constraints, and touches no other table. *)
Lemma reactionStatement_spec c p k now d :
  c ∈ Profile.id <$> Db.profiles d →
  p ∈ Post.id <$> filter (λ x, Db.post_visible d (Some c) x) (Db.posts d) →
  NoDup (Reaction.id <$> Db.reactions d) →
  NoDup (Db.reaction_key <$> Db.reactions d) →
  let d' := reactionStatement (Some c) now (head (reactionsOf p c d)) p c k d in
  Db.profiles d' = Db.profiles d
  ∧ Db.posts d' = Db.posts d
  ∧ NoDup (Reaction.id <$> Db.reactions d')
  ∧ NoDup (Db.reaction_key <$> Db.reactions d')
  ∧ reactionsOf p c d' =
    match reactionsOf p c d with
    | [] =>
        [{| Reaction.id := Db.gen_random_uuid (Reaction.id <$> Db.reactions d);
            Reaction.post_id := p; Reaction.user_id := c;
            Reaction.reaction_type := k; Reaction.created_at := now |}]
    | e :: _ =>
        if decide (Reaction.reaction_type e = k) then []
        else [Db.set_reaction_type k e]
    end.
Proof.
  intros Hprofile Hvisible Hids Hkeys. unfold reactionStatement.
  destruct (head (reactionsOf p c d)) as [e|] eqn:Hhead.
  - (* the caller has a reaction [e] on the post *)
    pose proof (reactionsOf_unique p c d e Hkeys Hhead) as Hone. rewrite Hone.
    assert (e ∈ reactionsOf p c d) as He by (rewrite Hone; by left).
    apply list_elem_of_filter in He as [Hkey He].
    injection Hkey as Hpost Huser.
    assert (∀ r, r ∈ Db.reactions d →
              Db.targeted (Db.reaction_visible d (Some c)) (Db.reaction_own (Some c))
                (λ r, bool_decide (Reaction.id r = Reaction.id e)) r = true
              ↔ r = e) as Htarget.
    { intros r Hr. unfold Db.targeted, Db.reaction_visible, Db.reaction_own. simpl.
      unfold Db.own. rewrite !andb_true_iff, !bool_decide_eq_true. split.
      - intros [_ Hid]. by apply (NoDup_fmap_same Reaction.id (Db.reactions d)).
      - intros ->. by rewrite Hpost, Huser. }
    destruct (decide (Reaction.reaction_type e = k)) as [Hk|Hk].
    + (* of the same kind: delete *)
      simpl. split_and!; [done|done|by apply NoDup_fmap_filter..|].
      unfold reactionsOf. simpl. unfold Db.delete. apply filter_none.
      intros r [Hnot Hr]%list_elem_of_filter Hr'.
      assert (r = e) as ->.
      { apply (NoDup_fmap_same Db.reaction_key (Db.reactions d)); [done..|].
        rewrite Hr'. unfold Db.reaction_key. by rewrite Hpost, Huser. }
      apply negb_True in Hnot. apply Hnot, Is_true_true. by apply Htarget.
    + (* of another kind: update in place *)
      unfold Db.update_reaction, Db.update.
      assert (forallb
                (λ r, if Db.targeted (Db.reaction_visible d (Some c))
                           (Db.reaction_own (Some c))
                           (λ r0, bool_decide (Reaction.id r0 = Reaction.id e)) r
                      then Db.reaction_own (Some c) (Db.set_reaction_type k r)
                      else true)
                (Db.reactions d) = true) as ->.
      { apply Is_true_eq_true, forallb_True, Forall_forall. intros r Hr.
        destruct (Db.targeted _ _ _ r) eqn:Ht; [|done].
        apply (Htarget r Hr) in Ht as ->. unfold Db.reaction_own. simpl.
        unfold Db.own. by rewrite Huser, bool_decide_eq_true_2. }
      simpl. rewrite <-!list_fmap_compose.
      assert (∀ r, Db.reaction_key
                     (if Db.targeted (Db.reaction_visible d (Some c))
                           (Db.reaction_own (Some c))
                           (λ r0, bool_decide (Reaction.id r0 = Reaction.id e)) r
                      then Db.set_reaction_type k r else r) = Db.reaction_key r)
        as Hsame.
      { intros r. by destruct (Db.targeted _ _ _ r). }
      split_and!; [done|done| | |].
      * erewrite list_fmap_ext; [exact Hids|].
        intros _ r _. simpl. by destruct (Db.targeted _ _ _ r).
      * erewrite list_fmap_ext; [exact Hkeys|]. intros _ r _. apply Hsame.
      * unfold reactionsOf. simpl.
        rewrite (filter_fmap_key Db.reaction_key) by apply Hsame.
        fold (reactionsOf p c d). rewrite Hone. csimpl.
        assert (e ∈ Db.reactions d) as Hin by done.
        by rewrite (proj2 (Htarget e Hin) eq_refl).
  - (* the caller has no reaction on the post: insert *)
    assert (reactionsOf p c d = []) as Hnone.
    { by destruct (reactionsOf p c d). }
    rewrite Hnone.
    assert ((p, c) ∉ Db.reaction_key <$> Db.reactions d) as Hfree.
    { intros (r & Hr & Hin)%list_elem_of_fmap.
      assert (r ∈ reactionsOf p c d) as Hr'.
      { apply list_elem_of_filter. by split. }
      rewrite Hnone in Hr'. by apply elem_of_nil in Hr'. }
    unfold Db.insert_reaction, Db.checked, Db.has_post, Db.has_profile. simpl.
    unfold Db.own.
    assert (p ∈ Post.id <$> Db.posts d) as Hpost.
    { apply list_elem_of_fmap in Hvisible as (x & -> & [_ Hx]%list_elem_of_filter).
      by apply list_elem_of_fmap_2. }
    rewrite !bool_decide_eq_true_2 by done. simpl.
    split_and!; [done|done| | |].
    + rewrite fmap_app. apply NoDup_app. split_and!; [done| |apply NoDup_singleton].
      intros x Hx ->%list_elem_of_singleton. by apply gen_random_uuid_fresh in Hx.
    + rewrite fmap_app. apply NoDup_app. split_and!; [done| |apply NoDup_singleton].
      intros x Hx ->%list_elem_of_singleton. done.
    + unfold reactionsOf in *. simpl. rewrite filter_app, Hnone. simpl.
      rewrite filter_cons, decide_True by done. done.
Qed.

Lemma loadedPosts_same_rows auth f d d' :
  Db.profiles d' = Db.profiles d → Db.posts d' = Db.posts d →
  loadedPosts auth f d' = loadedPosts auth f d.
Proof.
  intros Hprofiles Hposts.
  unfold loadedPosts, Db.post_visible, Db.own_or_partner, Db.of_partner,
    Db.partner_ids.
  by rewrite Hprofiles, Hposts.
Qed.

(** One toggle on a current page: the page is current again, and the
    caller's reactions on the post are what [toggled] says. *)
Lemma toggle_step auth c p k ws :
  on_page auth c p ws →
  on_page auth c p (step (settled (Timeline.handleReaction auth p k)) ws)
  ∧ reactionsOf p c (db (step (settled (Timeline.handleReaction auth p k)) ws).1)
    = toggled p c k ws.1
  ∧ (settled (Timeline.handleReaction auth p k) ws.1 ws.2).2 = Returned ().
Proof.
  destruct ws as [w s]. unfold on_page, step. simpl.
  intros (Hu & Hnet & Hprofile & Hids & Hkeys & Hcur & Hp).
  destruct (handleReaction_up auth c p k w s Hu Hnet)
    as (Hdb & Hnet' & _ & _ & _ & Hstate & Hout).
  unfold world_after, state_after, outcome_of in *.
  rewrite Hu, (existingReaction_current auth c p w s Hu Hcur Hp) in Hdb, Hstate.
  assert (p ∈ Post.id <$> filter (λ x, Db.post_visible (db w) (Some c) x)
                             (Db.posts (db w))) as Hvisible.
  { rewrite <-Hu. apply (loadedPosts_visible auth (Timeline.filter s)).
    unfold current in Hcur. rewrite <-Hcur in Hp. exact Hp. }
  destruct (reactionStatement_spec c p k (clock w) (db w)
              Hprofile Hvisible Hids Hkeys)
    as (Hprofiles' & Hposts' & Hids' & Hkeys' & Hmine).
  rewrite Hstate, Hdb. split_and!; try done.
  - by rewrite Hprofiles'.
  - unfold current. rewrite Hdb. reflexivity.
  - simpl. rewrite (loadedPosts_same_rows auth _ (db w)) by done.
    unfold current in Hcur. rewrite <-Hcur in Hp. exact Hp.
Qed.

(** Whatever reaction the page holds for the caller, the statement that
    [handleReaction] sends keeps UNIQUE(post_id, user_id): a delete leaves
    fewer rows, an update keeps every row's post and user, and an insert of
    a second row for a post and a user is refused. *)
Lemma reactionStatement_keys session now existing p c k d :
  NoDup (Db.reaction_key <$> Db.reactions d) →
  NoDup (Db.reaction_key <$>
           Db.reactions (reactionStatement session now existing p c k d)).
Proof.
  intros Hkeys. unfold reactionStatement.
  destruct existing as [e|];
    [destruct (decide (Reaction.reaction_type e = k))|].
  - simpl. by apply NoDup_fmap_filter.
  - unfold Db.update_reaction, Db.update.
    destruct (forallb _ (Db.reactions d)); [|done].
    simpl. rewrite <-list_fmap_compose.
    erewrite list_fmap_ext; [exact Hkeys|].
    intros _ r _. simpl. by destruct (Db.targeted _ _ _ r).
  - unfold Db.insert_reaction, Db.checked.
    destruct (negb (Db.authenticated session (Db.own c))); [done|].
    destruct (negb (Db.has_post d p && Db.has_profile d c)); [done|].
    destruct (decide ((p, c) ∉ Db.reaction_key <$> Db.reactions d)) as [Hnew|Hold].
    + rewrite bool_decide_eq_true_2 by done. simpl.
      rewrite fmap_app. apply NoDup_app. split; [done|].
      split; [|apply NoDup_singleton].
      intros key Hkey ->%list_elem_of_singleton. done.
    + by rewrite bool_decide_eq_false_2.
Qed.

(** C3, as stated, fails: [handleReaction] decides on the reactions the
    page holds, and it starts the reload of the timeline and returns
    without awaiting it.  Called twice in a row from the no-reaction state,
    the second call still finds no reaction on the page and sends a second
    INSERT, which the UNIQUE constraint refuses: one reaction is left, not
    none, also once both reloads have settled.  (With the reload settled
    in between, the second call deletes the reaction.)  Likewise on a page
    that has not loaded while the backend holds the caller's reaction of
    the kind: the call does not delete it. *)
Lemma handleReaction_twice_in_a_row :
  let auth := Example.as_alice in
  let page := step (Timeline.loadPosts auth)
                (Example.world, Example.timeline Timeline.all "") in
  let call := Timeline.handleReaction auth 10%nat Reaction.love in
  let mine (ws : World * Timeline.State) := reactionsOf 10 1 (db ws.1) in
  let twice := step call (step call page) in
  let at_rest := step (Timeline.loadPosts auth) (step (Timeline.loadPosts auth) twice) in
  let stale := ((step (settled call) page).1, Example.timeline Timeline.all "") in
  mine page = []
  ∧ outcome_of call page.1 page.2 = Returned (Timeline.loadPosts auth)
  ∧ (step call page).2 = page.2
  ∧ (Reaction.reaction_type <$> mine twice) = [Reaction.love]
  ∧ console twice.1 = []
  ∧ (Reaction.reaction_type <$> mine at_rest) = [Reaction.love]
  ∧ mine (step (settled call) (step (settled call) page)) = []
  ∧ (Reaction.reaction_type <$> mine stale) = [Reaction.love]
  ∧ mine (step (settled call) stale) = mine stale.
Proof. split_and!; try reflexivity; by vm_compute. Qed.

(** C3, amended. [handleReaction p k] decides on the reactions the page
    holds, sends its one statement, starts the reload of the timeline and
    returns without awaiting it.  For a signed-in user [c] with a profile,
    a backend in reach whose reactions satisfy the table's constraints, and
    a timeline that shows post [p] and holds what the backend has (as it
    does once a load has settled): the call creates a reaction of kind [k]
    when [c] has none on [p], deletes [c]'s reaction when it has kind [k],
    and updates it in place to [k] when it has another kind; when the call
    returns the rows are changed so, the page is as it was and the reload
    is what is left running.  From no reaction, two toggles of the same
    kind, each made once the reload of the one before has settled, end
    with none and a third with exactly one of that kind.  And whatever the
    page holds and whichever post and kind the call names, there is at most
    one reaction per (post, user) after it as before. *)
Theorem handleReaction_toggle auth c p k w s :
  user auth = Some c →
  network_up w = true →
  c ∈ Profile.id <$> Db.profiles (db w) →
  NoDup (Reaction.id <$> Db.reactions (db w)) →
  NoDup (Db.reaction_key <$> Db.reactions (db w)) →
  current auth w s →
  p ∈ Post.id <$> Timeline.posts s →
  let page := (w, s) in
  let toggle := step (settled (Timeline.handleReaction auth p k)) in
  let mine (ws : World * Timeline.State) := reactionsOf p c (db ws.1) in
  (mine page = [] →
     ∃ r, mine (toggle page) = [r]
          ∧ Reaction.post_id r = p ∧ Reaction.user_id r = c
          ∧ Reaction.reaction_type r = k)
  ∧ (∀ r, mine page = [r] → Reaction.reaction_type r = k →
       mine (toggle page) = [])
  ∧ (∀ r, mine page = [r] → Reaction.reaction_type r ≠ k →
       mine (toggle page) = [Db.set_reaction_type k r])
  ∧ (length (mine page) ≤ 1)%nat
  ∧ (length (mine (toggle page)) ≤ 1)%nat
  ∧ NoDup (Db.reaction_key <$> Db.reactions (db (toggle page).1))
  ∧ (mine page = [] →
       mine (toggle (toggle page)) = []
       ∧ ∃ r, mine (toggle (toggle (toggle page))) = [r]
              ∧ Reaction.reaction_type r = k)
  ∧ (∃ w1, Timeline.handleReaction auth p k w s
           = (w1, s, Returned (Timeline.loadPosts auth))
           ∧ db w1 = db (toggle page).1
           ∧ toggle page = step (Timeline.loadPosts auth) (w1, s))
  ∧ (∀ auth' p' k' s',
       NoDup (Db.reaction_key <$>
                Db.reactions
                  (db (step (Timeline.handleReaction auth' p' k') (w, s')).1))).
Proof.
  intros Hu Hnet Hprofile Hids Hkeys Hcur Hp page toggle mine.
  assert (on_page auth c p page) as H0 by done.
  destruct (toggle_step auth c p k page H0) as (H1 & Hmine1 & _).
  destruct (toggle_step auth c p k _ H1) as (H2 & Hmine2 & _).
  destruct (toggle_step auth c p k _ H2) as (H3 & Hmine3 & _).
  unfold toggled in Hmine1, Hmine2, Hmine3. subst toggle mine.
  cbn beta.
  assert (length (reactionsOf p c (db page.1)) ≤ 1)%nat as Hbefore.
  { destruct (head (reactionsOf p c (db page.1))) as [e|] eqn:Hhead.
    - by rewrite (reactionsOf_unique p c (db page.1) e Hkeys Hhead).
    - destruct (reactionsOf p c (db page.1)); [simpl; lia|done]. }
  split_and!.
  - intros Hnone. rewrite Hnone in Hmine1. eauto.
  - intros r Hr Hk. rewrite Hr in Hmine1. by rewrite decide_True in Hmine1.
  - intros r Hr Hk. rewrite Hr in Hmine1. by rewrite decide_False in Hmine1.
  - exact Hbefore.
  - rewrite Hmine1. destruct (reactionsOf p c (db page.1)) as [|e ?]; [simpl; lia|].
    destruct (decide (Reaction.reaction_type e = k)); simpl; lia.
  - by destruct H1 as (_ & _ & _ & _ & ? & _).
  - intros Hnone. rewrite Hnone in Hmine1. rewrite Hmine1 in Hmine2.
    rewrite decide_True in Hmine2 by done. split; [done|].
    rewrite Hmine2 in Hmine3. eauto.
  - destruct (handleReaction_started auth c p k w s Hu)
      as (w1 & Heq & Hnet1 & _ & _ & _ & Hdb1).
    exists w1. split; [done|].
    unfold step, settled, bind, page. simpl. rewrite Heq.
    rewrite loadPosts_up by congruence. done.
  - intros auth' p' k' s'. unfold step. simpl.
    destruct (user auth') as [c'|] eqn:Hu'.
    + destruct (handleReaction_started auth' c' p' k' w s' Hu')
        as (w1 & Heq & _ & _ & _ & _ & Hdb1).
      rewrite Heq. simpl. rewrite Hdb1.
      destruct (network_up w); [|done]. by apply reactionStatement_keys.
    + unfold Timeline.handleReaction, bind, get. simpl. by rewrite Hu'.
Qed.

Lemma handleReaction_toggle_witness :
  let auth := Example.as_alice in
  let k := Reaction.love in
  let page := step (Timeline.loadPosts auth)
                (Example.world, Example.timeline Timeline.all "") in
  let toggle := step (settled (Timeline.handleReaction auth 10%nat k)) in
  let mine (ws : World * Timeline.State) := reactionsOf 10 1 (db ws.1) in
  (mine page = [] →
     ∃ r, mine (toggle page) = [r]
          ∧ Reaction.post_id r = 10%nat ∧ Reaction.user_id r = 1%nat
          ∧ Reaction.reaction_type r = k)
  ∧ (∀ r, mine page = [r] → Reaction.reaction_type r = k →
       mine (toggle page) = [])
  ∧ (∀ r, mine page = [r] → Reaction.reaction_type r ≠ k →
       mine (toggle page) = [Db.set_reaction_type k r])
  ∧ (length (mine page) ≤ 1)%nat
  ∧ (length (mine (toggle page)) ≤ 1)%nat
  ∧ NoDup (Db.reaction_key <$> Db.reactions (db (toggle page).1))
  ∧ (mine page = [] →
       mine (toggle (toggle page)) = []
       ∧ ∃ r, mine (toggle (toggle (toggle page))) = [r]
              ∧ Reaction.reaction_type r = k)
  ∧ (∃ w1, Timeline.handleReaction auth 10%nat k page.1 page.2
           = (w1, page.2, Returned (Timeline.loadPosts auth))
           ∧ db w1 = db (toggle page).1
           ∧ toggle page = step (Timeline.loadPosts auth) (w1, page.2))
  ∧ (∀ auth' p' k' s',
       NoDup (Db.reaction_key <$>
                Db.reactions
                  (db (step (Timeline.handleReaction auth' p' k') (page.1, s')).1))).
Proof.
  intros auth k page.
  apply (handleReaction_toggle auth 1%nat 10%nat k page.1 page.2).
  - reflexivity.
  - reflexivity.
  - vm_compute. by left.
  - vm_compute. constructor.
  - vm_compute. constructor.
  - reflexivity.
  - vm_compute. do 2 right. by left.
Defined.

(** Alice reacts to Bob's post with love, then with a smile, then with a
    smile again, each time on the page as reloaded: one love, then one
    smile (the same row), then none. *)
Lemma handleReaction_love_smile_smile :
  let auth := Example.as_alice in
  let s0 := loaded auth (db Example.world) (Example.timeline Timeline.all "") in
  let ws1 := step (settled (Timeline.handleReaction auth 10%nat Reaction.love))
               (Example.world, s0) in
  let ws2 := step (settled (Timeline.handleReaction auth 10%nat Reaction.smile)) ws1 in
  let ws3 := step (settled (Timeline.handleReaction auth 10%nat Reaction.smile)) ws2 in
  (Reaction.reaction_type <$> Db.reactions (db ws1.1)) = [Reaction.love]
  ∧ (Reaction.reaction_type <$> Db.reactions (db ws2.1)) = [Reaction.smile]
  ∧ (Reaction.id <$> Db.reactions (db ws2.1)) = (Reaction.id <$> Db.reactions (db ws1.1))
  ∧ Db.reactions (db ws3.1) = [].
Proof. by vm_compute. Qed.

(** ** The diary, had its queries named the schema's relation *)

Lemma relation_daily_diaries : "daily_diaries" ∈ Db.relations.
Proof. unfold Db.relations. set_solver. Qed.

Lemma entriesOf_unique u day d e :
  NoDup (Db.diary_key <$> Db.daily_diaries d) →
  head (entriesOf u day d) = Some e → entriesOf u day d = [e].
Proof.
  intros Hnd He. unfold entriesOf in *.
  destruct (filter _ (Db.daily_diaries d)) as [|e' [|e'' l]] eqn:Hf; simplify_eq/=;
    [done|].
  assert (e ∈ e :: e'' :: l) as H1 by (by left).
  assert (e'' ∈ e :: e'' :: l) as H2 by (right; by left).
  rewrite <-Hf in H1, H2. apply list_elem_of_filter in H1 as [K1 H1], H2 as [K2 H2].
  exfalso. apply (NoDup_fmap_filter Db.diary_key (λ r, Db.diary_key r = (u, day)))
    in Hnd. rewrite Hf in Hnd. csimpl in Hnd.
  apply NoDup_cons in Hnd as [Hnd _]. apply Hnd. rewrite K1, K2. by left.
Qed.

(** The query for today's entry resolves to the caller's entry of the day,
    if there is one. *)
Lemma select_diary_of_day_own u day d :
  NoDup (Db.diary_key <$> Db.daily_diaries d) →
  Db.select_diary_of_day (Some u) u day d = inr (d, head (entriesOf u day d)).
Proof.
  intros Hnd. unfold Db.select_diary_of_day, Db.select.
  assert (filter
            (λ r, Db.diary_visible d (Some u) r
                  && (bool_decide (DailyDiary.user_id r = u)
                      && bool_decide (DailyDiary.date r = day)))
            (Db.daily_diaries d) = entriesOf u day d) as ->.
  { apply list_filter_iff. intros r.
    unfold Db.diary_key, Db.diary_visible, Db.own_or_partner, Db.own. simpl.
    rewrite !andb_True, orb_True, !bool_decide_spec. split.
    - intros (_ & -> & ->). done.
    - intros [= -> ->]. auto. }
  destruct (head (entriesOf u day d)) as [e|] eqn:Hhead.
  - by rewrite (entriesOf_unique u day d e Hnd Hhead).
  - by destruct (entriesOf u day d).
Qed.

Lemma loadDiaryEntriesFrom_up auth u w s :
  user auth = Some u → network_up w = true →
  NoDup (Db.diary_key <$> Db.daily_diaries (db w)) →
  ∃ rows,
    Diary.loadDiaryEntriesFrom "daily_diaries" auth w s =
    (send SELECT "daily_diaries" (send SELECT "daily_diaries" w),
     Diary.setLoading false
       (Diary.setEntries rows
          (Diary.setTodayEntry (head (entriesOf u (Js.Day (clock w)) (db w))) s)),
     Returned ()).
Proof.
  intros Hu Hnet Hnd. unfold Diary.loadDiaryEntriesFrom. rewrite Hu.
  unfold finally, try_catch, bind, Diary.today. simpl.
  rewrite await_up by (done || apply relation_daily_diaries).
  rewrite select_diary_of_day_own by done. unfold modify. simpl.
  rewrite await_up by (done || apply relation_daily_diaries).
  unfold Db.select_diaries. simpl. eexists. by destruct w.
Qed.

(** The one statement of a save, on rows that satisfy the constraints: it
    succeeds, leaves the form's text and mood as the caller's one entry of
    the day, and keeps the constraints. *)
Lemma save_statement_spec u day c m now d :
  u ∈ Profile.id <$> Db.profiles d →
  NoDup (DailyDiary.id <$> Db.daily_diaries d) →
  NoDup (Db.diary_key <$> Db.daily_diaries d) →
  ∃ d' e,
    match head (entriesOf u day d) with
    | Some entry => Db.update_diary (Some u) (DailyDiary.id entry) c m d
    | None => Db.insert_diary (Some u) now u day c m d
    end = inr (d', ())
    ∧ Db.profiles d' = Db.profiles d
    ∧ NoDup (DailyDiary.id <$> Db.daily_diaries d')
    ∧ NoDup (Db.diary_key <$> Db.daily_diaries d')
    ∧ entriesOf u day d' = [e]
    ∧ DailyDiary.content e = c ∧ DailyDiary.mood e = m.
Proof.
  intros Hprofile Hids Hkeys.
  destruct (head (entriesOf u day d)) as [e|] eqn:Hhead.
  - (* today's entry exists: update it *)
    pose proof (entriesOf_unique u day d e Hkeys Hhead) as Hone.
    assert (e ∈ entriesOf u day d) as He by (rewrite Hone; by left).
    apply list_elem_of_filter in He as [Hkey He].
    injection Hkey as Huser Hdate.
    assert (∀ r, r ∈ Db.daily_diaries d →
              Db.targeted (Db.diary_visible d (Some u)) (Db.diary_own (Some u))
                (λ r, bool_decide (DailyDiary.id r = DailyDiary.id e)) r = true
              ↔ r = e) as Htarget.
    { intros r Hr. unfold Db.targeted, Db.diary_visible, Db.diary_own,
        Db.own_or_partner. simpl. unfold Db.own.
      rewrite !andb_true_iff, orb_true_iff, !bool_decide_eq_true. split.
      - intros [_ Hid]. by apply (NoDup_fmap_same DailyDiary.id (Db.daily_diaries d)).
      - intros ->. auto. }
    assert (∀ r, Db.diary_key
                   (if Db.targeted (Db.diary_visible d (Some u))
                         (Db.diary_own (Some u))
                         (λ r0, bool_decide (DailyDiary.id r0 = DailyDiary.id e)) r
                    then Db.set_diary c m r else r) = Db.diary_key r) as Hsame.
    { intros r. by destruct (Db.targeted _ _ _ r). }
    unfold Db.update_diary, Db.update.
    assert (forallb
              (λ r, if Db.targeted (Db.diary_visible d (Some u))
                         (Db.diary_own (Some u))
                         (λ r0, bool_decide (DailyDiary.id r0 = DailyDiary.id e)) r
                    then Db.diary_own (Some u) (Db.set_diary c m r)
                    else true)
              (Db.daily_diaries d) = true) as ->.
    { apply Is_true_eq_true, forallb_True, Forall_forall. intros r Hr.
      destruct (Db.targeted _ _ _ r) eqn:Ht; [|done].
      apply (Htarget r Hr) in Ht as ->. unfold Db.diary_own. simpl.
      unfold Db.own. by rewrite Huser, bool_decide_eq_true_2. }
    eexists _, (Db.set_diary c m e). split; [reflexivity|]. simpl.
    rewrite <-!list_fmap_compose. split_and!; [done| | | |done|done].
    + erewrite list_fmap_ext; [exact Hids|].
      intros _ r _. simpl. by destruct (Db.targeted _ _ _ r).
    + erewrite list_fmap_ext; [exact Hkeys|]. intros _ r _. apply Hsame.
    + unfold entriesOf. simpl.
      rewrite (filter_fmap_key Db.diary_key) by apply Hsame.
      fold (entriesOf u day d). rewrite Hone. csimpl.
      by rewrite (proj2 (Htarget e He) eq_refl).
  - (* no entry for today: insert one *)
    assert (entriesOf u day d = []) as Hnone.
    { by destruct (entriesOf u day d). }
    assert ((u, day) ∉ Db.diary_key <$> Db.daily_diaries d) as Hfree.
    { intros (r & Hr & Hin)%list_elem_of_fmap.
      assert (r ∈ entriesOf u day d) as Hr'.
      { apply list_elem_of_filter. by split. }
      rewrite Hnone in Hr'. by apply elem_of_nil in Hr'. }
    unfold Db.insert_diary, Db.checked, Db.has_profile. simpl. unfold Db.own.
    rewrite !bool_decide_eq_true_2 by done. simpl.
    eexists _,
      {| DailyDiary.id := Db.gen_random_uuid (DailyDiary.id <$> Db.daily_diaries d);
         DailyDiary.user_id := u; DailyDiary.date := day;
         DailyDiary.content := c; DailyDiary.mood := m;
         DailyDiary.created_at := now |}.
    split; [reflexivity|]. simpl. split_and!; [done| | | |done|done].
    + rewrite fmap_app. apply NoDup_app. split_and!; [done| |apply NoDup_singleton].
      intros x Hx ->%list_elem_of_singleton. by apply gen_random_uuid_fresh in Hx.
    + rewrite fmap_app. apply NoDup_app. split_and!; [done| |apply NoDup_singleton].
      intros x Hx ->%list_elem_of_singleton. done.
    + unfold entriesOf in *. simpl. rewrite filter_app, Hnone. simpl.
      by rewrite filter_cons, decide_True.
Qed.

(** Saving on a ready page stores the form as the caller's one entry of the
    day, and leaves the page ready. *)
Lemma handleSaveTo_step auth u c m ws :
  diary_ready auth u ws → blank c = false →
  let ws' := step (Diary.handleSaveTo "daily_diaries" auth)
               (ws.1, Diary.setSelectedMood m (Diary.setContent c ws.2)) in
  diary_ready auth u ws'
  ∧ clock ws'.1 = clock ws.1
  ∧ ∃ e, entriesOf u (Js.Day (clock ws.1)) (db ws'.1) = [e]
         ∧ DailyDiary.content e = c ∧ DailyDiary.mood e = m.
Proof.
  destruct ws as [w s]. unfold diary_ready, step. simpl.
  intros (Hu & Hnet & Hprofile & Hids & Hkeys & Htoday) Hc.
  set (day := Js.Day (clock w)) in *.
  destruct (save_statement_spec u day c m (clock w) (db w) Hprofile Hids Hkeys)
    as (d' & e & Hstatement & Hprofiles' & Hids' & Hkeys' & Hentries & He).
  unfold Diary.handleSaveTo, bind, get. simpl. rewrite Hu, Hc.
  unfold finally, try_catch, bind, modify, Diary.today. simpl.
  rewrite Htoday.
  assert (∀ (s1 : Diary.State),
            ∃ s2,
              (match head (entriesOf u day (db w)) with
               | Some entry =>
                   bind (await UPDATE "daily_diaries"
                           (λ _, Db.update_diary (Some u) (DailyDiary.id entry) c m))
                     (λ r, throw_if_error r)
               | None =>
                   bind (await INSERT "daily_diaries"
                           (λ now, Db.insert_diary (Some u) now u (Js.Day (clock w)) c m))
                     (λ r, throw_if_error r)
               end) w s1
              = (with_db d' s2, s1, Returned ())
              ∧ network_up s2 = true ∧ now s2 = now w ∧ tza s2 = tza w)
    as Hrun.
  { intros s1. fold day. unfold bind.
    destruct (head (entriesOf u day (db w))) as [entry|].
    - rewrite await_up by (done || apply relation_daily_diaries).
      rewrite Hstatement. simpl. eexists. split; [reflexivity|done].
    - rewrite await_up by (done || apply relation_daily_diaries).
      rewrite Hstatement. simpl. eexists. split; [reflexivity|done]. }
  unfold bind in Hrun.
  match goal with
  | |- context [match head _ with Some _ => _ | None => _ end ?w0 ?s1] =>
      destruct (Hrun s1) as (w1 & Hrun1 & Hnet1 & Hnow1 & Htza1)
  end.
  rewrite Hrun1. simpl.
  assert (clock (with_db d' w1) = clock w) as Hclock.
  { unfold clock. simpl. by rewrite Hnow1, Htza1. }
  match goal with
  | |- context [Diary.loadDiaryEntriesFrom _ _ ?w2 ?s2] =>
      destruct (loadDiaryEntriesFrom_up auth u w2 s2) as (rows & ->);
        [done|done|done|]
  end.
  simpl. rewrite !Hclock. fold day. unfold clock. simpl. rewrite Hnow1, Htza1.
  fold (clock w). fold day. rewrite Hentries.
  split_and!; try done; [by rewrite Hprofiles'|by exists e].
Qed.

Lemma savesTo_ready auth u inputs ws :
  diary_ready auth u ws →
  Forall (λ i : Js.JsString * Mood, blank i.1 = false) inputs →
  diary_ready auth u (savesTo "daily_diaries" auth inputs ws)
  ∧ clock (savesTo "daily_diaries" auth inputs ws).1 = clock ws.1.
Proof.
  intros Hready Hinputs. revert ws Hready.
  induction Hinputs as [|[c m] inputs Hc _ IH]; intros ws Hready; [done|].
  destruct (handleSaveTo_step auth u c m ws Hready Hc) as (Hready' & Hclock & _).
  destruct (IH _ Hready') as [Hready'' Hclock']. split; [exact Hready''|].
  etrans; [exact Hclock'|exact Hclock].
Qed.

(** Had the page named the relation [daily_diaries]: after the page has
    loaded, any sequence of saves of non-blank texts, ending with the
    text [c] and the mood [m], leaves exactly one entry for the caller and
    the day, holding [c] and [m]. *)
Lemma handleSaveTo_daily_diaries_upsert auth u w s inputs c m :
  user auth = Some u →
  network_up w = true →
  u ∈ Profile.id <$> Db.profiles (db w) →
  NoDup (DailyDiary.id <$> Db.daily_diaries (db w)) →
  NoDup (Db.diary_key <$> Db.daily_diaries (db w)) →
  Forall (λ i : Js.JsString * Mood, blank i.1 = false) (inputs ++ [(c, m)]) →
  let page := step (Diary.loadDiaryEntriesFrom "daily_diaries" auth) (w, s) in
  ∃ e, entriesOf u (Js.Day (clock w))
         (db (savesTo "daily_diaries" auth (inputs ++ [(c, m)]) page).1) = [e]
       ∧ DailyDiary.content e = c ∧ DailyDiary.mood e = m.
Proof.
  intros Hu Hnet Hprofile Hids Hkeys Hinputs page.
  apply Forall_app in Hinputs as [Hinputs [Hc _]%Forall_cons].
  assert (diary_ready auth u page ∧ clock page.1 = clock w) as [Hready Hclock].
  { unfold page, step. simpl.
    destruct (loadDiaryEntriesFrom_up auth u w s Hu Hnet Hkeys) as (rows & ->).
    unfold diary_ready. simpl. done. }
  destruct (savesTo_ready auth u inputs page Hready Hinputs) as [Hready' Hclock'].
  destruct (handleSaveTo_step auth u c m _ Hready' Hc) as (_ & _ & e & He).
  rewrite Hclock', Hclock in He. exists e.
  unfold savesTo. rewrite foldl_snoc. exact He.
Qed.

(** Alice, on a page that names [daily_diaries], saves "dear" and then
    "dear diary": one entry, with the second text. *)
Lemma handleSaveTo_daily_diaries_twice :
  let page := step (Diary.loadDiaryEntriesFrom "daily_diaries" Example.as_alice)
                (Example.world, Example.diaryPage "") in
  DailyDiary.content <$>
    Db.daily_diaries
      (db (savesTo "daily_diaries" Example.as_alice
             [(Js.of_ascii "dear", happy); (Js.of_ascii "dear diary", tired)]
             page).1)
  = [Js.of_ascii "dear diary"].
Proof. by vm_compute. Qed.

(** ** The delete policies behind the guard *)

Lemma loadPhotos_db auth w s : db (world_after (Photos.loadPhotos auth) w s) = db w.
Proof.
  unfold world_after, Photos.loadPhotos, finally, try_catch, bind.
  destruct (network_up w) eqn:Hnet.
  - rewrite await_up by (done || apply relation_photos). by destruct w.
  - by rewrite await_down.
Qed.

(** Whatever owner id [handleDeletePhoto] is called with, the policy
    "Users can delete own photos" keeps a photo of another user in place. *)
Lemma handleDeletePhoto_keeps_others auth w s photoId photoUserId photo :
  photo ∈ Db.photos (db w) →
  user auth ≠ Some (Photo.user_id photo) →
  photo ∈ Db.photos
            (db (world_after (Photos.handleDeletePhoto auth photoId photoUserId) w s)).
Proof.
  intros Hin Hother. unfold world_after, Photos.handleDeletePhoto.
  destruct (decide (user auth = Some photoUserId)) as [Hu|]; [|done].
  unfold try_catch, bind.
  destruct (network_up w) eqn:Hnet; [|by rewrite await_down].
  rewrite await_up by (done || apply relation_photos).
  unfold Db.delete_photo, throw_if_error, ret. simpl.
  pose proof (loadPhotos_db auth
                (with_db (Db.with_photos (db w)
                            (Db.delete (Db.photo_visible (db w) (user auth))
                               (Db.photo_own (user auth))
                               (λ r, bool_decide (Photo.id r = photoId))
                               (Db.photos (db w))))
                   (send DELETE "photos" w)) s) as Hload.
  unfold world_after in Hload.
  destruct (Photos.loadPhotos auth _ s) as [[w' s'] [[]|e]]; simpl in *;
    rewrite Hload; simpl; unfold Db.delete; apply list_elem_of_filter;
    (split; [|done]); apply negb_True; unfold Db.targeted, Db.photo_own;
    rewrite !andb_True; intros [[_ Hown] _]; apply Hother;
    destruct (user auth) as [uid|]; [|done| |done];
    by apply bool_decide_unpack in Hown as ->.
Qed.

(** ** What holds of the owner filter and of the quotes' policy *)

(** For a user whose partner's profile is loaded, the timeline's filter
    names the caller, the partner, or both. *)
Lemma ownerFilter_linked auth u p :
  user auth = Some u → partnerProfile auth = Some p →
  Timeline.ownerFilter Timeline.mine auth = Db.OwnerEq u
  ∧ Timeline.ownerFilter Timeline.theirs auth = Db.OwnerEq (Profile.id p)
  ∧ Timeline.ownerFilter Timeline.all auth = Db.OwnerIn [u; Profile.id p].
Proof. intros Hu Hp. unfold Timeline.ownerFilter. by rewrite Hu, Hp. Qed.

(** A user whose profile names the user's own id as partner does get a
    quote stored, and the row carries the creator's id. *)
Lemma handleAddQuote_self_linked :
  let dana := {| Profile.id := 4; Profile.name := Js.of_ascii "Dana";
                 Profile.partner_id := Some 4%nat; Profile.created_at := 0 |} in
  let w := with_db (Db.with_quotes
                      {| Db.profiles := [dana]; Db.posts := []; Db.reactions := [];
                         Db.photos := []; Db.playlist := [];
                         Db.daily_diaries := []; Db.quotes := [];
                         Db.chat_messages := [] |} [])
             Example.world in
  let auth := {| user := Some 4%nat; profile := Some dana; partnerProfile := Some dana |} in
  Quote.user_id <$>
    Db.quotes (db (world_after (Quotes.handleAddQuote auth) w (Example.quotesPage "xo")))
  = [4%nat].
Proof. by vm_compute. Qed.

(** * The pages' other functions *)

(** ** The guard of the forms *)

Lemma trimStart_nil s :
  Js.trimStart s = [] → Forall (λ c, Js.isWhiteSpace c) s.
Proof.
  induction s as [|c s IH]; simpl; [constructor|].
  destruct (Js.isWhiteSpace c) eqn:Hc; [|done].
  intros Hs. constructor; [by rewrite Hc|by apply IH].
Qed.

Lemma trimStart_head s c l :
  Js.trimStart s = c :: l → Js.isWhiteSpace c = false.
Proof.
  induction s as [|x s IH]; simpl; [done|].
  destruct (Js.isWhiteSpace x) eqn:Hx; [done|]. by intros [= <- _].
Qed.

(** X1. The guard [!text.trim()] of the forms holds exactly of the texts
    that consist of white space only (the empty text among them): a text
    with one other character anywhere passes it. *)
Theorem blank_iff_whitespace (s : Js.JsString) :
  blank s = true ↔ Forall (λ c, Js.isWhiteSpace c) s.
Proof.
  split; [|apply blank_whitespace].
  unfold blank, Js.trim, Js.trimEnd. intros Hs.
  destruct (reverse (Js.trimStart (reverse (Js.trimStart s)))) as [|c l] eqn:Hr;
    [|done].
  apply (f_equal reverse) in Hr. rewrite reverse_involutive in Hr.
  apply trimStart_nil in Hr. rewrite Forall_reverse in Hr.
  apply trimStart_nil.
  destruct (Js.trimStart s) as [|c l] eqn:Ht; [done|].
  apply trimStart_head in Ht. apply Forall_cons in Hr as [Hc _].
  by rewrite Ht in Hc.
Qed.

(** ** Ages and dates on the page *)

(** X2. [formatTimestamp] prints the age of a post in whole days once it is
    a day old (the days being the age divided by 86400000 ms, rounded
    down), in whole hours from one hour on, and 'Just now' below an hour,
    which a timestamp in the future falls under too. *)
Theorem formatTimestamp_spec (now timestamp : Z) :
  let diff := now - timestamp in
  Timeline.formatTimestamp now timestamp =
    if Js.msPerDay <=? diff
    then Js.toString (diff `div` Js.msPerDay) ++ Js.of_ascii "d ago"
    else if 3600000 <=? diff
    then Js.toString (diff `div` 3600000) ++ Js.of_ascii "h ago"
    else Js.of_ascii "Just now".
Proof.
  intros diff. unfold Timeline.formatTimestamp. fold diff.
  change (1000 * 60 * 60) with 3600000. unfold Js.msPerDay.
  assert ((diff `div` 3600000) `div` 24 = diff `div` 86400000) as ->.
  { by rewrite Z.div_div. }
  destruct (Z.leb_spec 86400000 diff) as [Hd|Hd].
  - assert ((0 <? diff `div` 86400000) = true) as ->; [|done].
    apply Z.ltb_lt. Z.div_mod_to_equations. lia.
  - assert ((0 <? diff `div` 86400000) = false) as ->.
    { apply Z.ltb_ge. Z.div_mod_to_equations. lia. }
    destruct (Z.leb_spec 3600000 diff) as [Hh|Hh].
    + assert ((0 <? diff `div` 3600000) = true) as ->; [|done].
      apply Z.ltb_lt. Z.div_mod_to_equations. lia.
    + assert ((0 <? diff `div` 3600000) = false) as ->; [|done].
      apply Z.ltb_ge. Z.div_mod_to_equations. lia.
Qed.

(** X3. [getTimeAgo] prints the age of a memory by its whole days: in
    years of 365 days from 365 days on, in months of 30 days from 30 days
    on, in days from one day on, and 'Today' below one day (and for a
    timestamp in the future); the unit is in the plural from two on. *)
Theorem getTimeAgo_spec (now timestamp : Z) :
  let days := (now - timestamp) `div` Js.msPerDay in
  let plural (b : bool) := if b then Js.of_ascii "s" else [] in
  MemoryLane.getTimeAgo now timestamp =
    if 365 <=? days
    then Js.toString (days `div` 365) ++ Js.of_ascii " year"
         ++ plural (730 <=? days) ++ Js.of_ascii " ago"
    else if 30 <=? days
    then Js.toString (days `div` 30) ++ Js.of_ascii " month"
         ++ plural (60 <=? days) ++ Js.of_ascii " ago"
    else if 1 <=? days
    then Js.toString days ++ Js.of_ascii " day"
         ++ plural (2 <=? days) ++ Js.of_ascii " ago"
    else Js.of_ascii "Today".
Proof.
  intros days plural. unfold MemoryLane.getTimeAgo.
  change (1000 * 60 * 60 * 24) with Js.msPerDay. fold days.
  unfold MemoryLane.ago.
  assert (∀ a b : Z, (a <? b) = (a + 1 <=? b)) as Hlt.
  { intros a b. destruct (Z.ltb_spec a b), (Z.leb_spec (a + 1) b); lia. }
  destruct (Z.leb_spec 365 days) as [Hy|Hy].
  - assert ((0 <? days `div` 365) = true) as ->.
    { apply Z.ltb_lt. Z.div_mod_to_equations. lia. }
    assert ((1 <? days `div` 365) = (730 <=? days)) as ->; [|done].
    destruct (Z.ltb_spec 1 (days `div` 365)), (Z.leb_spec 730 days);
      try done; Z.div_mod_to_equations; lia.
  - assert ((0 <? days `div` 365) = false) as ->.
    { apply Z.ltb_ge. Z.div_mod_to_equations. lia. }
    destruct (Z.leb_spec 30 days) as [Hm|Hm].
    + assert ((0 <? days `div` 30) = true) as ->.
      { apply Z.ltb_lt. Z.div_mod_to_equations. lia. }
      assert ((1 <? days `div` 30) = (60 <=? days)) as ->; [|done].
      destruct (Z.ltb_spec 1 (days `div` 30)), (Z.leb_spec 60 days);
        try done; Z.div_mod_to_equations; lia.
    + assert ((0 <? days `div` 30) = false) as ->.
      { apply Z.ltb_ge. Z.div_mod_to_equations. lia. }
      rewrite (Hlt 0 days), (Hlt 1 days). done.
Qed.

(** X4. A memory that is 360 to 364 days old is '12 months ago': the months
    of [getTimeAgo] count up to twelve before the first year is reached. *)
Theorem getTimeAgo_twelve_months (now timestamp : Z) :
  360 * Js.msPerDay ≤ now - timestamp < 365 * Js.msPerDay →
  MemoryLane.getTimeAgo now timestamp = Js.of_ascii "12 months ago".
Proof.
  intros Hage. unfold MemoryLane.getTimeAgo.
  change (1000 * 60 * 60 * 24) with Js.msPerDay.
  set (days := (now - timestamp) `div` Js.msPerDay).
  assert (360 ≤ days < 365) as Hdays.
  { subst days. unfold Js.msPerDay in *. Z.div_mod_to_equations. lia. }
  assert (days `div` 365 = 0) as -> by (Z.div_mod_to_equations; lia).
  assert (days `div` 30 = 12) as -> by (Z.div_mod_to_equations; lia).
  reflexivity.
Qed.

Lemma getTimeAgo_twelve_months_witness :
  MemoryLane.getTimeAgo (362 * Js.msPerDay + 5) 0 = Js.of_ascii "12 months ago".
Proof.
  apply (getTimeAgo_twelve_months (362 * Js.msPerDay + 5) 0).
  unfold Js.msPerDay. lia.
Defined.



(** ** The reactions of the timeline, by post *)

(** X6. [reactionsByPost] files every fetched reaction under its post: the
    array under a post's id holds the reactions on that post, all of them
    and in the order fetched; a post without a reaction has no key. *)
Theorem reactionsByPost_groups (reactionsData : list Reaction.t) (postId : uuid) :
  default [] (Timeline.reactionsByPost reactionsData !! postId)
    = filter (λ r, Reaction.post_id r = postId) reactionsData
  ∧ (Timeline.reactionsByPost reactionsData !! postId = None
     ↔ postId ∉ Reaction.post_id <$> reactionsData)
  ∧ Timeline.reactionsByPost reactionsData !! postId ≠ Some [].
Proof.
  rewrite reactionsByPost_lookup.
  destruct (filter (λ r, Reaction.post_id r = postId) reactionsData)
    as [|r rs] eqn:Hf.
  - split_and!; [done| |done]. split; [|done]. intros _.
    intros (r & Hr & Hin)%list_elem_of_fmap.
    assert (r ∈ filter (λ r, Reaction.post_id r = postId) reactionsData) as Hr'.
    { by apply list_elem_of_filter. }
    rewrite Hf in Hr'. by apply elem_of_nil in Hr'.
  - split_and!; [done| |done]. split; [done|]. intros Hnot. exfalso. apply Hnot.
    assert (r ∈ filter (λ r, Reaction.post_id r = postId) reactionsData) as Hr.
    { rewrite Hf. by left. }
    apply list_elem_of_filter in Hr as [<- Hr]. by apply list_elem_of_fmap_2.
Qed.

(** ** What the timeline shows *)

Lemma StronglySorted_any {A} (l : list A) : StronglySorted (λ _ _, True) l.
Proof. induction l; constructor; [done|]. by apply Forall_true. Qed.

(** [.order(col, { ascending })] leaves the rows in the order of [col]. *)
Lemma order_sorted {Row} (ascending : bool) (col : Row → Z) (rows : list Row) :
  StronglySorted (λ a b, if ascending then col a ≤ col b else col b ≤ col a)
    (Db.order ascending col rows).
Proof.
  unfold Db.order.
  eapply StronglySorted_impl_elem_of; last first.
  - apply (sort_stable _ (λ _ _, True)).
    + intros x y. destruct ascending; lia.
    + intros x y z. destruct ascending; lia.
    + apply StronglySorted_any.
  - intros a b _ _. unfold sorted_before. destruct ascending; lia.
Qed.

Lemma order_elem_of {Row} (ascending : bool) (col : Row → Z) (rows : list Row) x :
  x ∈ Db.order ascending col rows ↔ x ∈ rows.
Proof. unfold Db.order. apply sort_elem_of. Qed.

Lemma own_or_partner_spec d owner uid :
  Db.own_or_partner d owner uid = true ↔ owner = uid ∨ owner ∈ Db.partner_ids d uid.
Proof.
  unfold Db.own_or_partner, Db.own, Db.of_partner.
  by rewrite orb_true_iff, !bool_decide_eq_true.
Qed.

(** X7. Whatever filter is set and whatever the page holds of the user's
    partner, the posts on the timeline after a load are rows of the
    backend that the signed-in user or that user's partner (by the
    backend's own profiles) wrote; a page without a session gets none. *)
Theorem loadPosts_shows_the_couple auth w s p :
  network_up w = true →
  p ∈ Timeline.posts (state_after (Timeline.loadPosts auth) w s) →
  p ∈ Db.posts (db w)
  ∧ ∃ u, user auth = Some u
         ∧ (Post.user_id p = u ∨ Post.user_id p ∈ Db.partner_ids (db w) u).
Proof.
  intros Hnet. unfold state_after. rewrite loadPosts_up by done. simpl.
  unfold loadedPosts. rewrite order_elem_of. unfold Db.select.
  rewrite list_elem_of_filter. intros [[Hv _]%andb_True Hin]. split; [done|].
  unfold Db.post_visible, Db.authenticated in Hv.
  destruct (user auth) as [u|]; [|done]. exists u. split; [done|].
  by apply own_or_partner_spec, Is_true_eq_true.
Qed.

Lemma loadPosts_shows_the_couple_witness :
  let p := Example.post 12 2 "spring" 1741953600000 in
  p ∈ Db.posts (db Example.world)
  ∧ ∃ u, user Example.as_alice = Some u
         ∧ (Post.user_id p = u
            ∨ Post.user_id p ∈ Db.partner_ids (db Example.world) u).
Proof.
  apply (loadPosts_shows_the_couple Example.as_alice Example.world
           (Example.timeline Timeline.all ""));
    [reflexivity|vm_compute; by left].
Defined.

(** X8. After a load the timeline holds the posts newest first, and they
    are the rows of the backend that the session may see and that the
    owner filter lets through, each as often as the table holds it. *)
Theorem loadPosts_newest_first auth w s :
  network_up w = true →
  let page := Timeline.posts (state_after (Timeline.loadPosts auth) w s) in
  StronglySorted (λ a b, Post.created_at b ≤ Post.created_at a) page
  ∧ page ≡ₚ
    filter (λ p, Db.post_visible (db w) (user auth) p
                 ∧ Db.owner_matches (Timeline.ownerFilter (Timeline.filter s) auth)
                     (Post.user_id p))
      (Db.posts (db w)).
Proof.
  intros Hnet page. subst page. unfold state_after.
  rewrite loadPosts_up by done. simpl. unfold loadedPosts. split.
  - apply (order_sorted false).
  - unfold Db.order. rewrite sort_perm. unfold Db.select.
    erewrite list_filter_iff; [done|]. intros p. unfold Db.post_matches. simpl.
    rewrite !andb_True, !Is_true_true. tauto.
Qed.

Lemma loadPosts_newest_first_witness :
  let page := Timeline.posts
                (state_after (Timeline.loadPosts Example.as_alice) Example.world
                   (Example.timeline Timeline.all "")) in
  StronglySorted (λ a b, Post.created_at b ≤ Post.created_at a) page
  ∧ page ≡ₚ
    filter (λ p, Db.post_visible (db Example.world) (user Example.as_alice) p
                 ∧ Db.owner_matches
                     (Timeline.ownerFilter Timeline.all Example.as_alice)
                     (Post.user_id p))
      (Db.posts (db Example.world)).
Proof.
  apply (loadPosts_newest_first Example.as_alice Example.world
           (Example.timeline Timeline.all "")).
  reflexivity.
Defined.

(** ** Creating *)

Lemma handleSubmitPost_up auth u w s :
  user auth = Some u → network_up w = true →
  u ∈ Profile.id <$> Db.profiles (db w) →
  blank (Timeline.newPost s) = false →
  Timeline.handleSubmitPost auth w s =
  (with_db
     (Db.with_posts (db w)
        (Db.posts (db w) ++
         [{| Post.id := Db.gen_random_uuid (Post.id <$> Db.posts (db w));
             Post.user_id := u; Post.content := Timeline.newPost s;
             Post.mood := Timeline.selectedMood s;
             Post.image_url := Js.or_null (Timeline.imageUrl s);
             Post.song_link := Js.or_null (Timeline.songLink s);
             Post.is_miss_you := false; Post.created_at := clock w |}]))
     (send INSERT "posts" w),
   Timeline.resetForm s, Returned ()).
Proof.
  intros Hu Hnet Hprofile Hblank.
  unfold Timeline.handleSubmitPost, bind, get. simpl. rewrite Hu, Hblank.
  unfold try_catch, bind.
  rewrite await_up by (done || apply relation_posts).
  unfold Db.insert_post, Db.checked, Db.has_profile, Db.own. simpl.
  by rewrite !bool_decide_eq_true_2.
Qed.

(** X9. A post that is submitted is on the timeline at the next load,
    unless the filter is 'theirs': it carries the caller's id, the text as
    typed (the text is trimmed for the guard only), the mood chosen, and
    the image and song links with an empty link stored as null; its id is
    a new one, and the form is empty afterwards. *)
Theorem handleSubmitPost_then_loadPosts auth u w s :
  user auth = Some u → network_up w = true →
  u ∈ Profile.id <$> Db.profiles (db w) →
  blank (Timeline.newPost s) = false →
  Timeline.filter s ≠ Timeline.theirs →
  let submitted := step (Timeline.handleSubmitPost auth) (w, s) in
  let page := step (Timeline.loadPosts auth) submitted in
  Timeline.newPost submitted.2 = [] ∧ Timeline.imageUrl submitted.2 = []
  ∧ Timeline.songLink submitted.2 = [] ∧ Timeline.showPostForm submitted.2 = false
  ∧ ∃ p, p ∈ Timeline.posts page.2
         ∧ Post.user_id p = u
         ∧ Post.content p = Timeline.newPost s
         ∧ Post.mood p = Timeline.selectedMood s
         ∧ Post.image_url p = Js.or_null (Timeline.imageUrl s)
         ∧ Post.song_link p = Js.or_null (Timeline.songLink s)
         ∧ Post.is_miss_you p = false
         ∧ Post.created_at p = clock w
         ∧ Post.id p ∉ Post.id <$> Db.posts (db w).
Proof.
  intros Hu Hnet Hprofile Hblank Hfilter submitted page.
  subst page submitted. unfold step. simpl.
  rewrite (handleSubmitPost_up auth u) by done. simpl.
  rewrite loadPosts_up by done. simpl.
  split_and!; [done..|]. eexists. split.
  { unfold loadedPosts. rewrite order_elem_of. unfold Db.select.
    apply list_elem_of_filter. split; [|simpl; apply elem_of_app; right; by left].
    apply andb_True. split.
    - unfold Db.post_visible. rewrite Hu. simpl. apply Is_true_true.
      apply own_or_partner_spec. by left.
    - unfold Db.post_matches. simpl. rewrite !andb_True. split_and!; try done.
      unfold Timeline.ownerFilter. rewrite Hu.
      destruct (Timeline.filter s), (partnerProfile auth) as [q|]; simpl;
        try done; apply bool_decide_pack; try done; by left. }
  simpl. split_and!; try done. apply gen_random_uuid_fresh.
Qed.

Lemma handleSubmitPost_then_loadPosts_witness :
  let s := Example.timeline Timeline.all "hello " in
  let submitted := step (Timeline.handleSubmitPost Example.as_alice) (Example.world, s) in
  let page := step (Timeline.loadPosts Example.as_alice) submitted in
  Timeline.newPost submitted.2 = [] ∧ Timeline.imageUrl submitted.2 = []
  ∧ Timeline.songLink submitted.2 = [] ∧ Timeline.showPostForm submitted.2 = false
  ∧ ∃ p, p ∈ Timeline.posts page.2
         ∧ Post.user_id p = 1%nat
         ∧ Post.content p = Timeline.newPost s
         ∧ Post.mood p = Timeline.selectedMood s
         ∧ Post.image_url p = Js.or_null (Timeline.imageUrl s)
         ∧ Post.song_link p = Js.or_null (Timeline.songLink s)
         ∧ Post.is_miss_you p = false
         ∧ Post.created_at p = clock Example.world
         ∧ Post.id p ∉ Post.id <$> Db.posts (db Example.world).
Proof.
  apply (handleSubmitPost_then_loadPosts Example.as_alice 1%nat Example.world
           (Example.timeline Timeline.all "hello "));
    [reflexivity|reflexivity|vm_compute; by left|reflexivity|discriminate].
Defined.

(** X10. A create that does not reach the backend loses nothing of what
    was typed: each form keeps its fields and stays open, the failure is
    written to the console, the saving flag (where the page has one) is
    off again, and the handler returns normally after its one request. *)
Theorem create_offline_keeps_form auth u w
    (post : Timeline.State) (song : Playlist.State) (photo : Photos.State)
    (quote : Quotes.State) (chat : Chat.State) :
  user auth = Some u → network_up w = false →
  blank (Timeline.newPost post) = false →
  blank (Playlist.songTitle song) = false → blank (Playlist.songUrl song) = false →
  blank (Photos.photoUrl photo) = false →
  blank (Quotes.quoteText quote) = false →
  blank (Chat.newMessage chat) = false →
  Timeline.handleSubmitPost auth w post
    = (log_error "Error creating post:" (send INSERT "posts" w), post, Returned ())
  ∧ Playlist.handleAddSong auth w song
    = (log_error "Error adding song:" (send INSERT "playlist" w),
       Playlist.setSaving false song, Returned ())
  ∧ Photos.handleAddPhoto auth w photo
    = (log_error "Error adding photo:" (send INSERT "photos" w),
       Photos.setSaving false photo, Returned ())
  ∧ Quotes.handleAddQuote auth w quote
    = (log_error "Error adding quote:" (send INSERT "quotes" w),
       Quotes.setSaving false quote, Returned ())
  ∧ Chat.handleSendMessage auth w chat
    = (log_error "Error sending message:" (send INSERT "chat_messages" w),
       chat, Returned ()).
Proof.
  intros Hu Hnet Hpost Htitle Hurl Hphoto Hquote Hchat.
  unfold Timeline.handleSubmitPost, Playlist.handleAddSong,
    Photos.handleAddPhoto, Quotes.handleAddQuote, Chat.handleSendMessage,
    bind, get. simpl.
  rewrite Hu, Hpost, Htitle, Hurl, Hphoto, Hquote, Hchat. simpl.
  unfold finally, try_catch, bind, modify. simpl.
  rewrite !await_down by done. done.
Qed.

Lemma create_offline_keeps_form_witness :
  let w := Example.offline in
  let auth := Example.as_alice in
  Timeline.handleSubmitPost auth w (Example.timeline Timeline.all "hi")
    = (log_error "Error creating post:" (send INSERT "posts" w),
       Example.timeline Timeline.all "hi", Returned ())
  ∧ Playlist.handleAddSong auth w (Example.playlistPage "Song" "https://example.org/s")
    = (log_error "Error adding song:" (send INSERT "playlist" w),
       Playlist.setSaving false (Example.playlistPage "Song" "https://example.org/s"),
       Returned ())
  ∧ Photos.handleAddPhoto auth w (Example.photosPage "https://example.org/a.jpg")
    = (log_error "Error adding photo:" (send INSERT "photos" w),
       Photos.setSaving false (Example.photosPage "https://example.org/a.jpg"),
       Returned ())
  ∧ Quotes.handleAddQuote auth w (Example.quotesPage "xo")
    = (log_error "Error adding quote:" (send INSERT "quotes" w),
       Quotes.setSaving false (Example.quotesPage "xo"), Returned ())
  ∧ Chat.handleSendMessage auth w (Example.chatPage "hello")
    = (log_error "Error sending message:" (send INSERT "chat_messages" w),
       Example.chatPage "hello", Returned ()).
Proof.
  apply (create_offline_keeps_form Example.as_alice 1%nat Example.offline);
    reflexivity.
Defined.

(** X11. 'I miss you' needs the user and the loaded profile and nothing of
    the form: it stores one new post in the caller's name whose text is
    the profile's name, ' was missing you at ', the current time as the
    host prints it, and a heart; the post has the mood 'missing', is
    marked [is_miss_you] and has neither image nor song.  The page's state
    is not touched.  Without a loaded profile nothing is sent. *)
Theorem handleMissYou_posts (toLocaleTimeString : Js.LocalFields → Js.JsString)
    auth u me w s :
  user auth = Some u → profile auth = Some me → network_up w = true →
  u ∈ Profile.id <$> Db.profiles (db w) →
  (∃ p, Timeline.handleMissYou toLocaleTimeString auth w s
        = (with_db (Db.with_posts (db w) (Db.posts (db w) ++ [p]))
             (send INSERT "posts" w), s, Returned ())
        ∧ Post.user_id p = u ∧ Post.mood p = missing ∧ Post.is_miss_you p = true
        ∧ Post.image_url p = None ∧ Post.song_link p = None
        ∧ Post.created_at p = clock w
        ∧ Post.content p
          = Profile.name me ++ Js.of_ascii " was missing you at "
            ++ toLocaleTimeString (now w) ++ [32; 10084; 65039]%N
        ∧ Post.id p ∉ Post.id <$> Db.posts (db w))
  ∧ Timeline.handleMissYou toLocaleTimeString
      {| user := user auth; profile := None; partnerProfile := partnerProfile auth |}
      w s = (w, s, Returned ()).
Proof.
  intros Hu Hme Hnet Hprofile. split.
  - unfold Timeline.handleMissYou. rewrite Hu, Hme.
    unfold bind, new_Date, try_catch. simpl. unfold bind.
    rewrite await_up by (done || apply relation_posts).
    unfold Db.insert_post, Db.checked, Db.has_profile, Db.own. simpl.
    rewrite !bool_decide_eq_true_2 by done. simpl.
    eexists. split; [reflexivity|]. simpl. split_and!; try done.
    apply gen_random_uuid_fresh.
  - unfold Timeline.handleMissYou. simpl. by destruct (user auth).
Qed.

Lemma handleMissYou_posts_witness :
  let fmt := λ _ : Js.LocalFields, Js.of_ascii "12:00 PM" in
  let w := Example.world in
  let s := Example.timeline Timeline.all "" in
  (∃ p, Timeline.handleMissYou fmt Example.as_alice w s
        = (with_db (Db.with_posts (db w) (Db.posts (db w) ++ [p]))
             (send INSERT "posts" w), s, Returned ())
        ∧ Post.user_id p = 1%nat ∧ Post.mood p = missing ∧ Post.is_miss_you p = true
        ∧ Post.image_url p = None ∧ Post.song_link p = None
        ∧ Post.created_at p = clock w
        ∧ Post.content p
          = Profile.name Example.alice ++ Js.of_ascii " was missing you at "
            ++ fmt (now w) ++ [32; 10084; 65039]%N
        ∧ Post.id p ∉ Post.id <$> Db.posts (db w))
  ∧ Timeline.handleMissYou fmt
      {| user := user Example.as_alice; profile := None;
         partnerProfile := partnerProfile Example.as_alice |}
      w s = (w, s, Returned ()).
Proof.
  apply (handleMissYou_posts (λ _, Js.of_ascii "12:00 PM") Example.as_alice
           1%nat Example.alice Example.world (Example.timeline Timeline.all ""));
    [reflexivity|reflexivity|reflexivity|vm_compute; by left].
Defined.

(** ** Photos and songs *)

Lemma loadPhotos_up auth w s :
  network_up w = true →
  Photos.loadPhotos auth w s =
  (send SELECT "photos" w,
   Photos.setLoading false
     (Photos.setPhotos
        (Db.order false Photo.uploaded_at
           (Db.select (Db.photo_visible (db w) (user auth)) (λ _, true)
              (Db.photos (db w))))
        s),
   Returned ()).
Proof.
  intros Hnet. unfold Photos.loadPhotos, finally, try_catch, bind.
  rewrite await_up by (done || apply relation_photos).
  unfold Db.select_photos. simpl. by destruct w.
Qed.

(** X12. A photo that is added is on the page when the handler returns:
    the handler stores it in the caller's name, with the url as typed and
    an empty caption as null, under a new id, and loads the page again;
    the page then holds, newest first, the photos of the backend that the
    caller may see, the form is empty and closed and the saving flag off.
    The handler has sent the insert and the one fetch. *)
Theorem handleAddPhoto_shows_photo auth u w s :
  user auth = Some u → network_up w = true →
  u ∈ Profile.id <$> Db.profiles (db w) →
  blank (Photos.photoUrl s) = false →
  let w' := world_after (Photos.handleAddPhoto auth) w s in
  let s' := state_after (Photos.handleAddPhoto auth) w s in
  (∃ p, p ∈ Photos.photos s'
        ∧ Photo.user_id p = u
        ∧ Photo.photo_url p = Photos.photoUrl s
        ∧ Photo.caption p = Js.or_null (Photos.caption s)
        ∧ Photo.uploaded_at p = clock w
        ∧ (Photo.id p ∉ Photo.id <$> Db.photos (db w))
        ∧ Db.photos (db w') = Db.photos (db w) ++ [p])
  ∧ (Photos.photos s'
     ≡ₚ filter (λ p, Db.photo_visible (db w') (user auth) p) (Db.photos (db w')))
  ∧ StronglySorted (λ a b, Photo.uploaded_at b ≤ Photo.uploaded_at a)
      (Photos.photos s')
  ∧ Photos.photoUrl s' = [] ∧ Photos.caption s' = []
  ∧ Photos.showAddForm s' = false ∧ Photos.saving s' = false
  ∧ requests w' = requests w ++ [{| verb := INSERT; relation := "photos" |};
                                 {| verb := SELECT; relation := "photos" |}]
  ∧ console w' = console w.
Proof.
  intros Hu Hnet Hprofile Hblank w' s'. subst w' s'.
  unfold world_after, state_after, Photos.handleAddPhoto, bind, get. simpl.
  rewrite Hu, Hblank. unfold finally, try_catch, bind, modify. simpl.
  rewrite await_up by (done || apply relation_photos).
  unfold Db.insert_photo, Db.checked, Db.has_profile, Db.own. simpl.
  rewrite !bool_decide_eq_true_2 by done. simpl.
  rewrite loadPhotos_up by done. simpl.
  split_and!; try done.
  - exists {| Photo.id := Db.gen_random_uuid (Photo.id <$> Db.photos (db w));
              Photo.user_id := u; Photo.photo_url := Photos.photoUrl s;
              Photo.caption := Js.or_null (Photos.caption s);
              Photo.uploaded_at := clock w |}.
    split.
    { rewrite order_elem_of. unfold Db.select. apply list_elem_of_filter.
      split; [|apply elem_of_app; right; by left].
      apply andb_True. split; [|done]. unfold Db.photo_visible. rewrite Hu. simpl.
      apply Is_true_true, own_or_partner_spec. by left. }
    simpl. split_and!; try done. apply gen_random_uuid_fresh.
  - unfold Db.order. rewrite sort_perm. unfold Db.select.
    erewrite list_filter_iff; [done|]. intros p.
    rewrite andb_true_r. unfold Db.photo_visible. by rewrite Hu.
  - apply (order_sorted false).
  - by rewrite <-app_assoc.
Qed.

Lemma handleAddPhoto_shows_photo_witness :
  let auth := Example.as_alice in
  let w := Example.world in
  let s := Example.photosPage "https://example.org/a.jpg" in
  let w' := world_after (Photos.handleAddPhoto auth) w s in
  let s' := state_after (Photos.handleAddPhoto auth) w s in
  (∃ p, p ∈ Photos.photos s'
        ∧ Photo.user_id p = 1%nat
        ∧ Photo.photo_url p = Photos.photoUrl s
        ∧ Photo.caption p = Js.or_null (Photos.caption s)
        ∧ Photo.uploaded_at p = clock w
        ∧ (Photo.id p ∉ Photo.id <$> Db.photos (db w))
        ∧ Db.photos (db w') = Db.photos (db w) ++ [p])
  ∧ (Photos.photos s'
     ≡ₚ filter (λ p, Db.photo_visible (db w') (user auth) p) (Db.photos (db w')))
  ∧ StronglySorted (λ a b, Photo.uploaded_at b ≤ Photo.uploaded_at a)
      (Photos.photos s')
  ∧ Photos.photoUrl s' = [] ∧ Photos.caption s' = []
  ∧ Photos.showAddForm s' = false ∧ Photos.saving s' = false
  ∧ requests w' = requests w ++ [{| verb := INSERT; relation := "photos" |};
                                 {| verb := SELECT; relation := "photos" |}]
  ∧ console w' = console w.
Proof.
  apply (handleAddPhoto_shows_photo Example.as_alice 1%nat Example.world
           (Example.photosPage "https://example.org/a.jpg"));
    [reflexivity|reflexivity|vm_compute; by left|reflexivity].
Defined.

Lemma targeted_own {Row} (d : Db.Database) (owner : Row → uuid) (id : Row → uuid)
    u x (r : Row) :
  Db.targeted (λ r, Db.authenticated (Some u) (Db.own_or_partner d (owner r)))
    (λ r, Db.authenticated (Some u) (Db.own (owner r)))
    (λ r, bool_decide (id r = x)) r = true
  ↔ id r = x ∧ owner r = u.
Proof.
  unfold Db.targeted. simpl.
  rewrite !andb_true_iff, own_or_partner_spec. unfold Db.own.
  rewrite !bool_decide_eq_true. tauto.
Qed.

(** X13. The owner's delete of a photo takes the photo off the backend and
    off the page (the handler loads the page again); every photo with
    another id stays, and no photo appears that was not there. *)
Theorem handleDeletePhoto_removes auth u w s photo :
  user auth = Some u → network_up w = true →
  Photo.user_id photo = u →
  let run := Photos.handleDeletePhoto auth (Photo.id photo) (Photo.user_id photo) in
  (photo ∉ Db.photos (db (world_after run w s)))
  ∧ (photo ∉ Photos.photos (state_after run w s))
  ∧ (∀ q, q ∈ Db.photos (db w) → Photo.id q ≠ Photo.id photo →
          q ∈ Db.photos (db (world_after run w s)))
  ∧ (∀ q, q ∈ Db.photos (db (world_after run w s)) → q ∈ Db.photos (db w))
  ∧ outcome_of run w s = Returned ().
Proof.
  intros Hu Hnet Howner run. subst run.
  unfold world_after, state_after, outcome_of, Photos.handleDeletePhoto.
  rewrite decide_True by (by rewrite Hu, Howner).
  unfold try_catch, bind.
  rewrite await_up by (done || apply relation_photos).
  unfold Db.delete_photo, throw_if_error, ret. simpl.
  rewrite loadPhotos_up by done. simpl.
  unfold Db.delete, Db.photo_visible, Db.photo_own. rewrite Hu.
  assert (∀ q, q ∈ filter
                      (λ r, negb (Db.targeted
                                    (λ r, Db.authenticated (Some u)
                                            (Db.own_or_partner (db w) (Photo.user_id r)))
                                    (λ r, Db.authenticated (Some u)
                                            (Db.own (Photo.user_id r)))
                                    (λ r, bool_decide (Photo.id r = Photo.id photo)) r))
                      (Db.photos (db w))
               ↔ q ∈ Db.photos (db w)
                 ∧ ¬ (Photo.id q = Photo.id photo ∧ Photo.user_id q = u)) as Hrows.
  { intros q. rewrite list_elem_of_filter, negb_True, Is_true_true.
    rewrite (targeted_own (db w) Photo.user_id Photo.id). tauto. }
  split_and!.
  - rewrite Hrows. tauto.
  - rewrite order_elem_of. unfold Db.select. rewrite list_elem_of_filter.
    simpl. rewrite Hrows. tauto.
  - intros q Hq Hid. apply Hrows. tauto.
  - intros q Hq. apply Hrows in Hq. tauto.
  - done.
Qed.

Lemma handleDeletePhoto_removes_witness :
  let photo := {| Photo.id := 20; Photo.user_id := 2;
                  Photo.photo_url := Js.of_ascii "https://example.org/b.jpg";
                  Photo.caption := None; Photo.uploaded_at := 1741953600000 |} in
  let auth := {| user := Some 2%nat; profile := Some Example.bob;
                 partnerProfile := Some Example.alice |} in
  let run := Photos.handleDeletePhoto auth (Photo.id photo) (Photo.user_id photo) in
  let w := Example.world in
  let s := Example.photosPage "" in
  (photo ∉ Db.photos (db (world_after run w s)))
  ∧ (photo ∉ Photos.photos (state_after run w s))
  ∧ (∀ q, q ∈ Db.photos (db w) → Photo.id q ≠ Photo.id photo →
          q ∈ Db.photos (db (world_after run w s)))
  ∧ (∀ q, q ∈ Db.photos (db (world_after run w s)) → q ∈ Db.photos (db w))
  ∧ outcome_of run w s = Returned ().
Proof.
  intros photo auth.
  apply (handleDeletePhoto_removes auth 2%nat Example.world (Example.photosPage "")
           photo); reflexivity.
Defined.

(** X14. The owner's delete of a song removes from the backend the
    caller's song of that id and nothing else; the handler does not load
    the list again, so the page still holds the song until a change event
    arrives. *)
Theorem handleDeleteSong_removes auth u w s songId :
  user auth = Some u → network_up w = true →
  Playlist.handleDeleteSong auth songId u w s =
  (with_db
     (Db.with_playlist (db w)
        (filter (λ r, ¬ (PlaylistItem.id r = songId ∧ PlaylistItem.user_id r = u))
           (Db.playlist (db w))))
     (send DELETE "playlist" w),
   s, Returned ()).
Proof.
  intros Hu Hnet. unfold Playlist.handleDeleteSong.
  rewrite decide_True by done. unfold try_catch, bind.
  rewrite await_up by (done || apply relation_playlist).
  unfold Db.delete_song, throw_if_error, ret. simpl.
  unfold Db.delete, Db.song_visible, Db.song_own. rewrite Hu.
  do 3 f_equal. f_equal. apply list_filter_iff. intros r.
  rewrite negb_True, Is_true_true.
  by rewrite (targeted_own (db w) PlaylistItem.user_id PlaylistItem.id).
Qed.

Lemma handleDeleteSong_removes_witness :
  let auth := {| user := Some 2%nat; profile := Some Example.bob;
                 partnerProfile := Some Example.alice |} in
  let w := Example.world in
  let s := Example.playlistPage "" "" in
  Playlist.handleDeleteSong auth 30%nat 2%nat w s =
  (with_db
     (Db.with_playlist (db w)
        (filter (λ r, ¬ (PlaylistItem.id r = 30%nat ∧ PlaylistItem.user_id r = 2%nat))
           (Db.playlist (db w))))
     (send DELETE "playlist" w),
   s, Returned ()).
Proof.
  intros auth.
  apply (handleDeleteSong_removes auth 2%nat Example.world
           (Example.playlistPage "" "") 30%nat); reflexivity.
Defined.

(** ** Marking as read *)

Lemma update_checked {Row} (visible permit check q : Row → bool) (f : Row → Row)
    (rows : list Row) :
  (∀ r, r ∈ rows → Db.targeted visible permit q r = true → check (f r) = true) →
  Db.update visible permit check q f rows =
  inr ((λ r, if Db.targeted visible permit q r then f r else r) <$> rows).
Proof.
  intros Hcheck. unfold Db.update.
  assert (forallb (λ r, if Db.targeted visible permit q r then check (f r) else true)
            rows = true) as ->; [|done].
  apply Is_true_eq_true, forallb_True, Forall_forall. intros r Hr.
  destruct (Db.targeted visible permit q r) eqn:Ht; [|done].
  apply Is_true_true. by apply Hcheck.
Qed.

(** A page fetches the rows it may see, and marks as read those of them
    that another user wrote: on a table whose ids are unique the statement
    reaches exactly the unread rows of the caller's partner. *)
Section marking.
Context {Row : Type} (id owner : Row → uuid) (is_read : Row → bool).
Context (set_read : Row → Row) (visible permit : Row → bool).
Context (u : uuid) (partners : list uuid).
Context (ascending : bool) (col : Row → Z) (rows : list Row).

Hypothesis permit_partner : ∀ r, permit r = true ↔ owner r ∈ partners.
Hypothesis permit_visible : ∀ r, permit r = true → visible r = true.
Hypothesis set_read_id : ∀ r, id (set_read r) = id r.
Hypothesis set_read_owner : ∀ r, owner (set_read r) = owner r.
Hypothesis set_read_read : ∀ r, is_read r = true → set_read r = r.
Hypothesis ids_unique : NoDup (id <$> rows).

Lemma marking_targeted r :
  r ∈ rows →
  Db.targeted visible permit
    (λ r, bool_decide
            (id r ∈ unreadOf id owner is_read u
                      (Db.order ascending col (Db.select visible (λ _, true) rows))))
    r = true
  ↔ owner r ∈ partners ∧ owner r ≠ u ∧ is_read r = false.
Proof using permit_partner permit_visible ids_unique.
  intros Hr. unfold Db.targeted, unreadOf.
  rewrite !andb_true_iff, bool_decide_eq_true, permit_partner. split.
  - intros [[_ Hp] (r' & Hid & Hin)%list_elem_of_fmap].
    apply list_elem_of_filter in Hin as [[Hu Hread] Hin].
    rewrite order_elem_of in Hin. unfold Db.select in Hin.
    apply list_elem_of_filter in Hin as [_ Hin].
    assert (r = r') as <- by (by apply (NoDup_fmap_same id rows)).
    done.
  - intros (Hp & Hu & Hread). split_and!; [|done|].
    + by apply permit_visible, permit_partner.
    + apply list_elem_of_fmap. exists r. split; [done|].
      apply list_elem_of_filter. split; [done|].
      rewrite order_elem_of. unfold Db.select.
      apply list_elem_of_filter. split; [|done].
      rewrite andb_true_r. by apply Is_true_true, permit_visible, permit_partner.
Qed.

Lemma marking_rows :
  (λ r, if Db.targeted visible permit
             (λ r, bool_decide
                     (id r ∈ unreadOf id owner is_read u
                               (Db.order ascending col
                                  (Db.select visible (λ _, true) rows))))
             r
        then set_read r else r) <$> rows
  = markRead owner set_read partners u <$> rows.
Proof using permit_partner permit_visible set_read_read ids_unique.
  apply list_fmap_ext. intros i r Hr%list_elem_of_lookup_2.
  pose proof (marking_targeted r Hr) as Ht. unfold markRead. simpl.
  destruct (Db.targeted _ _ _ r).
  - rewrite decide_True; [done|]. destruct Ht as [Ht _]. specialize (Ht eq_refl). tauto.
  - destruct (decide (owner r ∈ partners ∧ owner r ≠ u)) as [[Hp Hu]|]; [|done].
    destruct (is_read r) eqn:Hread; [by rewrite set_read_read|].
    destruct Ht as [_ Ht]. discriminate Ht. done.
Qed.

Lemma marking_update :
  Db.update visible permit permit
    (λ r, bool_decide
            (id r ∈ unreadOf id owner is_read u
                      (Db.order ascending col (Db.select visible (λ _, true) rows))))
    set_read rows
  = inr (markRead owner set_read partners u <$> rows).
Proof using permit_partner permit_visible set_read_owner set_read_read ids_unique.
  rewrite update_checked; [by rewrite marking_rows|].
  intros r Hr Ht. apply marking_targeted in Ht as [Hp _]; [|done].
  apply permit_partner. by rewrite set_read_owner.
Qed.

Lemma marking_none :
  unreadOf id owner is_read u
    (Db.order ascending col (Db.select visible (λ _, true) rows)) = [] →
  markRead owner set_read partners u <$> rows = rows.
Proof using permit_partner permit_visible set_read_read ids_unique.
  intros Hnone. rewrite <-marking_rows. rewrite <-(list_fmap_id rows) at 2.
  apply list_fmap_ext. intros i r Hr%list_elem_of_lookup_2.
  pose proof (marking_targeted r Hr) as Ht. simpl.
  destruct (Db.targeted _ _ _ r) eqn:Htarget; [|done].
  unfold Db.targeted in Htarget. rewrite Hnone in Htarget.
  rewrite bool_decide_eq_false_2 in Htarget by apply not_elem_of_nil.
  by rewrite andb_false_r in Htarget.
Qed.

Lemma marking_ids :
  id <$> (markRead owner set_read partners u <$> rows) = id <$> rows.
Proof using set_read_id.
  rewrite <-list_fmap_compose. apply list_fmap_ext. intros i r _. simpl.
  unfold markRead. destruct (decide _); [apply set_read_id|done].
Qed.

End marking.

Lemma chat_received_spec d u r :
  Db.chat_received d (Some u) r = true
  ↔ ChatMessage.sender_id r ∈ Db.partner_ids d u.
Proof. unfold Db.chat_received, Db.of_partner. simpl. apply bool_decide_eq_true. Qed.

Lemma chat_received_visible d u r :
  Db.chat_received d (Some u) r = true → Db.chat_visible d (Some u) r = true.
Proof.
  unfold Db.chat_received, Db.chat_visible, Db.own_or_partner. simpl.
  intros ->. apply orb_true_r.
Qed.

Lemma set_message_read_read r :
  ChatMessage.is_read r = true → Db.set_message_read r = r.
Proof. destruct r. simpl. by intros ->. Qed.

Lemma relation_chat_messages_up {S A} v
    (run : Z → Db.Database → Db.PgError + (Db.Database * A)) w (s : S) :
  network_up w = true →
  await v "chat_messages" run w s =
  match run (clock w) (db w) with
  | inl error => (send v "chat_messages" w, s, Returned (inl error))
  | inr (d, data) => (with_db d (send v "chat_messages" w), s, Returned (inr data))
  end.
Proof. intros Hnet. apply await_up; [done|apply relation_chat_messages]. Qed.

Lemma with_chat_messages_same d : Db.with_chat_messages d (Db.chat_messages d) = d.
Proof. by destruct d. Qed.

(** One load of the chat, on a table whose ids are unique. *)
Lemma loadMessages_up auth u w s :
  user auth = Some u → network_up w = true →
  NoDup (ChatMessage.id <$> Db.chat_messages (db w)) →
  let data := Db.order true ChatMessage.sent_at
                (Db.select (Db.chat_visible (db w) (Some u)) (λ _, true)
                   (Db.chat_messages (db w))) in
  Chat.loadMessages auth w s =
  (if bool_decide (0 < length (Chat.unreadIds u data))%nat
   then with_db
          (Db.with_chat_messages (db w)
             (receivedRead (db w) u <$> Db.chat_messages (db w)))
          (send UPDATE "chat_messages" (send SELECT "chat_messages" w))
   else send SELECT "chat_messages" w,
   Chat.setLoading false (Chat.setMessages data s), Returned ())
  ∧ receivedRead (db w) u <$> Db.chat_messages (db w)
    = (if bool_decide (0 < length (Chat.unreadIds u data))%nat
       then receivedRead (db w) u <$> Db.chat_messages (db w)
       else Db.chat_messages (db w)).
Proof.
  intros Hu Hnet Hids data.
  pose proof (marking_update ChatMessage.id ChatMessage.sender_id
                ChatMessage.is_read Db.set_message_read
                (Db.chat_visible (db w) (Some u)) (Db.chat_received (db w) (Some u))
                u (Db.partner_ids (db w) u) true ChatMessage.sent_at
                (Db.chat_messages (db w))
                (chat_received_spec (db w) u) (chat_received_visible (db w) u)
                (λ _, eq_refl) set_message_read_read Hids) as Hupdate.
  pose proof (marking_none ChatMessage.id ChatMessage.sender_id
                ChatMessage.is_read Db.set_message_read
                (Db.chat_visible (db w) (Some u)) (Db.chat_received (db w) (Some u))
                u (Db.partner_ids (db w) u) true ChatMessage.sent_at
                (Db.chat_messages (db w))
                (chat_received_spec (db w) u) (chat_received_visible (db w) u)
                set_message_read_read Hids) as Hnone.
  fold data in Hupdate, Hnone.
  change (unreadOf ChatMessage.id ChatMessage.sender_id ChatMessage.is_read u data)
    with (Chat.unreadIds u data) in Hupdate, Hnone.
  fold (receivedRead (db w) u) in Hupdate, Hnone.
  split.
  - unfold Chat.loadMessages, finally, try_catch, bind.
    rewrite relation_chat_messages_up by done.
    unfold Db.select_chat_messages. simpl. rewrite Hu. simpl. fold data.
    destruct (bool_decide (0 < length (Chat.unreadIds u data))%nat) eqn:Hunread.
    + unfold bind. rewrite relation_chat_messages_up by done. simpl.
      unfold Db.mark_messages_read. rewrite Hupdate. simpl. by destruct w.
    + simpl. by destruct w.
  - destruct (bool_decide (0 < length (Chat.unreadIds u data))%nat) eqn:Hunread;
      [done|].
    apply Hnone. apply bool_decide_eq_false in Hunread.
    destruct (Chat.unreadIds u data); [done|simpl in Hunread; lia].
Qed.

(** X15. Loading the chat marks as read, on the backend, the messages that
    the caller's partner sent, and changes nothing else: no other message,
    no text, sender or time of a message, no other table.  The page holds
    the messages of the caller and of the partner, oldest first, as they
    were fetched before the marking. *)
Theorem loadMessages_marks_read auth u w s :
  user auth = Some u → network_up w = true →
  NoDup (ChatMessage.id <$> Db.chat_messages (db w)) →
  let w' := world_after (Chat.loadMessages auth) w s in
  let s' := state_after (Chat.loadMessages auth) w s in
  db w' = Db.with_chat_messages (db w)
            (receivedRead (db w) u <$> Db.chat_messages (db w))
  ∧ (Chat.messages s'
     ≡ₚ filter (λ m, ChatMessage.sender_id m = u
                     ∨ ChatMessage.sender_id m ∈ Db.partner_ids (db w) u)
          (Db.chat_messages (db w)))
  ∧ StronglySorted (λ a b, ChatMessage.sent_at a ≤ ChatMessage.sent_at b)
      (Chat.messages s')
  ∧ Chat.newMessage s' = Chat.newMessage s
  ∧ Chat.loading s' = false
  ∧ console w' = console w.
Proof.
  intros Hu Hnet Hids w' s'. subst w' s'. unfold world_after, state_after.
  destruct (loadMessages_up auth u w s Hu Hnet Hids) as [-> Hrows]. simpl.
  split_and!; try done.
  - rewrite Hrows.
    destruct (bool_decide _); simpl; [done|by rewrite with_chat_messages_same].
  - unfold Db.order. rewrite sort_perm. unfold Db.select.
    erewrite list_filter_iff; [done|]. intros m.
    rewrite andb_true_r. unfold Db.chat_visible. simpl.
    by rewrite Is_true_true, own_or_partner_spec.
  - apply (order_sorted true).
  - by destruct (bool_decide _).
Qed.

Lemma loadMessages_marks_read_witness :
  let auth := Example.as_alice in
  let w := Example.writing in
  let w' := world_after (Chat.loadMessages auth) w Example.chat in
  let s' := state_after (Chat.loadMessages auth) w Example.chat in
  db w' = Db.with_chat_messages (db w)
            (receivedRead (db w) 1%nat <$> Db.chat_messages (db w))
  ∧ (Chat.messages s'
     ≡ₚ filter (λ m, ChatMessage.sender_id m = 1%nat
                     ∨ ChatMessage.sender_id m ∈ Db.partner_ids (db w) 1%nat)
          (Db.chat_messages (db w)))
  ∧ StronglySorted (λ a b, ChatMessage.sent_at a ≤ ChatMessage.sent_at b)
      (Chat.messages s')
  ∧ Chat.newMessage s' = Chat.newMessage Example.chat
  ∧ Chat.loading s' = false
  ∧ console w' = console w.
Proof.
  apply (loadMessages_marks_read Example.as_alice 1%nat Example.writing Example.chat);
    [reflexivity|reflexivity|].
  apply (bool_decide_unpack _). vm_compute. exact I.
Defined.

(** X16. Loading the chat a second time sends the fetch and no update, and
    leaves the backend as the first load left it; the page then shows
    every message of the partner as read. *)
Theorem loadMessages_again auth u w s :
  user auth = Some u → network_up w = true →
  NoDup (ChatMessage.id <$> Db.chat_messages (db w)) →
  let once := step (Chat.loadMessages auth) (w, s) in
  let twice := step (Chat.loadMessages auth) once in
  twice.1 = send SELECT "chat_messages" once.1
  ∧ Forall (λ m, ChatMessage.sender_id m ≠ u → ChatMessage.is_read m = true)
      (Chat.messages twice.2).
Proof.
  intros Hu Hnet Hids once twice. subst twice once. unfold step. simpl.
  destruct (loadMessages_up auth u w s Hu Hnet Hids) as [-> Hrows]. simpl.
  set (w1 := if bool_decide _ then _ else _).
  assert (network_up w1 = true) as Hnet1.
  { subst w1. by destruct (bool_decide _). }
  assert (db w1 = Db.with_chat_messages (db w)
                    (receivedRead (db w) u <$> Db.chat_messages (db w))) as Hdb1.
  { subst w1. rewrite Hrows.
    destruct (bool_decide _); simpl; [done|by rewrite with_chat_messages_same]. }
  assert (NoDup (ChatMessage.id <$> Db.chat_messages (db w1))) as Hids1.
  { rewrite Hdb1. simpl.
    rewrite (marking_ids ChatMessage.id ChatMessage.sender_id Db.set_message_read
               u (Db.partner_ids (db w) u)); done. }
  destruct (loadMessages_up auth u w1 (Chat.setLoading false
              (Chat.setMessages
                 (Db.order true ChatMessage.sent_at
                    (Db.select (Db.chat_visible (db w) (Some u)) (λ _, true)
                       (Db.chat_messages (db w)))) s)) Hu Hnet1 Hids1) as [-> _].
  simpl.
  assert (∀ m, m ∈ Db.chat_messages (db w1) →
               Db.chat_visible (db w1) (Some u) m = true →
               ChatMessage.sender_id m ≠ u → ChatMessage.is_read m = true) as Hread.
  { intros m. rewrite Hdb1. simpl.
    intros (r & -> & Hr)%list_elem_of_fmap Hvisible Hother.
    unfold Db.chat_visible in Hvisible. simpl in Hvisible.
    apply own_or_partner_spec in Hvisible. unfold receivedRead, markRead in *.
    destruct (decide _) as [|Hnot]; [done|].
    exfalso. apply Hnot. unfold Db.partner_ids in *. simpl in Hvisible. tauto. }
  assert (Forall (λ m, ChatMessage.sender_id m ≠ u → ChatMessage.is_read m = true)
            (Db.order true ChatMessage.sent_at
               (Db.select (Db.chat_visible (db w1) (Some u)) (λ _, true)
                  (Db.chat_messages (db w1))))) as Hall.
  { apply Forall_forall. intros m. rewrite order_elem_of. unfold Db.select.
    rewrite list_elem_of_filter, andb_true_r, Is_true_true.
    intros [Hv Hin]. by apply Hread. }
  split; [|exact Hall].
  assert (Chat.unreadIds u
            (Db.order true ChatMessage.sent_at
               (Db.select (Db.chat_visible (db w1) (Some u)) (λ _, true)
                  (Db.chat_messages (db w1)))) = []) as ->; [|done].
  unfold Chat.unreadIds. rewrite filter_none; [done|].
  intros m Hm [Hother Hunread]. rewrite Forall_forall in Hall.
  rewrite (Hall m Hm Hother) in Hunread. done.
Qed.

Lemma loadMessages_again_witness :
  let once := step (Chat.loadMessages Example.as_alice) (Example.writing, Example.chat) in
  let twice := step (Chat.loadMessages Example.as_alice) once in
  twice.1 = send SELECT "chat_messages" once.1
  ∧ Forall (λ m, ChatMessage.sender_id m ≠ 1%nat → ChatMessage.is_read m = true)
      (Chat.messages twice.2).
Proof.
  apply (loadMessages_again Example.as_alice 1%nat Example.writing Example.chat);
    [reflexivity|reflexivity|].
  apply (bool_decide_unpack _). vm_compute. exact I.
Defined.

Lemma quote_visible_spec d u r :
  Db.quote_visible d (Some u) r = true ↔ Quote.user_id r ∈ Db.partner_ids d u.
Proof.
  unfold Db.quote_visible, Db.quote_insert_check, Db.of_partner. simpl.
  apply bool_decide_eq_true.
Qed.

Lemma set_quote_read_read r : Quote.is_read r = true → Db.set_quote_read r = r.
Proof. destruct r. simpl. by intros ->. Qed.

Lemma with_quotes_same d : Db.with_quotes d (Db.quotes d) = d.
Proof. by destruct d. Qed.

(** X17. The Quotes page shows, newest first, the quotes that carry the id
    of the caller's partner, and no quote under any other id; loading it
    marks those quotes as read on the backend (but for a quote of the
    caller's own id, when the caller is the caller's own partner) and
    changes nothing else. *)
Theorem loadQuotes_marks_read auth u w s :
  user auth = Some u → network_up w = true →
  NoDup (Quote.id <$> Db.quotes (db w)) →
  let w' := world_after (Quotes.loadQuotes auth) w s in
  let s' := state_after (Quotes.loadQuotes auth) w s in
  db w' = Db.with_quotes (db w) (quoteRead (db w) u <$> Db.quotes (db w))
  ∧ (Quotes.quotes s'
     ≡ₚ filter (λ q, Quote.user_id q ∈ Db.partner_ids (db w) u) (Db.quotes (db w)))
  ∧ StronglySorted (λ a b, Quote.created_at b ≤ Quote.created_at a)
      (Quotes.quotes s')
  ∧ Quotes.quoteText s' = Quotes.quoteText s
  ∧ Quotes.loading s' = false
  ∧ console w' = console w.
Proof.
  intros Hu Hnet Hids w' s'. subst w' s'.
  set (data := Db.order false Quote.created_at
                 (Db.select (Db.quote_visible (db w) (Some u)) (λ _, true)
                    (Db.quotes (db w)))).
  pose proof (marking_update Quote.id Quote.user_id Quote.is_read Db.set_quote_read
                (Db.quote_visible (db w) (Some u)) (Db.quote_visible (db w) (Some u))
                u (Db.partner_ids (db w) u) false Quote.created_at (Db.quotes (db w))
                (quote_visible_spec (db w) u) (λ _ H, H)
                (λ _, eq_refl) set_quote_read_read Hids) as Hupdate.
  pose proof (marking_none Quote.id Quote.user_id Quote.is_read Db.set_quote_read
                (Db.quote_visible (db w) (Some u)) (Db.quote_visible (db w) (Some u))
                u (Db.partner_ids (db w) u) false Quote.created_at (Db.quotes (db w))
                (quote_visible_spec (db w) u) (λ _ H, H)
                set_quote_read_read Hids) as Hnone.
  fold data in Hupdate, Hnone.
  change (unreadOf Quote.id Quote.user_id Quote.is_read u data)
    with (Quotes.unreadIds u data) in Hupdate, Hnone.
  fold (quoteRead (db w) u) in Hupdate, Hnone.
  assert (Quotes.loadQuotes auth w s =
          (if bool_decide (0 < length (Quotes.unreadIds u data))%nat
           then with_db
                  (Db.with_quotes (db w) (quoteRead (db w) u <$> Db.quotes (db w)))
                  (send UPDATE "quotes" (send SELECT "quotes" w))
           else send SELECT "quotes" w,
           Quotes.setLoading false (Quotes.setQuotes data s), Returned ())) as Hrun.
  { unfold Quotes.loadQuotes, finally, try_catch, bind.
    rewrite await_up by (done || apply relation_quotes).
    unfold Db.select_quotes. simpl. rewrite Hu. simpl. fold data.
    destruct (bool_decide (0 < length (Quotes.unreadIds u data))%nat) eqn:Hunread.
    - unfold bind. rewrite await_up by (done || apply relation_quotes). simpl.
      unfold Db.mark_quotes_read. rewrite Hupdate. simpl. by destruct w.
    - simpl. by destruct w. }
  unfold world_after, state_after. rewrite Hrun. simpl.
  split_and!; try done.
  - destruct (bool_decide (0 < length (Quotes.unreadIds u data))%nat) eqn:Hunread;
      simpl; [done|].
    rewrite Hnone; [by rewrite with_quotes_same|].
    apply bool_decide_eq_false in Hunread.
    destruct (Quotes.unreadIds u data); [done|simpl in Hunread; lia].
  - subst data. unfold Db.order. rewrite sort_perm. unfold Db.select.
    erewrite list_filter_iff; [done|]. intros q.
    by rewrite andb_true_r, Is_true_true, quote_visible_spec.
  - apply (order_sorted false).
  - by destruct (bool_decide _).
Qed.

Lemma loadQuotes_marks_read_witness :
  let auth := Example.as_alice in
  let w := Example.writing in
  let s := Example.quotesPage "" in
  let w' := world_after (Quotes.loadQuotes auth) w s in
  let s' := state_after (Quotes.loadQuotes auth) w s in
  db w' = Db.with_quotes (db w) (quoteRead (db w) 1%nat <$> Db.quotes (db w))
  ∧ (Quotes.quotes s'
     ≡ₚ filter (λ q, Quote.user_id q ∈ Db.partner_ids (db w) 1%nat) (Db.quotes (db w)))
  ∧ StronglySorted (λ a b, Quote.created_at b ≤ Quote.created_at a)
      (Quotes.quotes s')
  ∧ Quotes.quoteText s' = Quotes.quoteText s
  ∧ Quotes.loading s' = false
  ∧ console w' = console w.
Proof.
  apply (loadQuotes_marks_read Example.as_alice 1%nat Example.writing
           (Example.quotesPage ""));
    [reflexivity|reflexivity|].
  apply (bool_decide_unpack _). vm_compute. exact I.
Defined.

(** ** The provider of the session *)

Lemma relation_profiles : "profiles" ∈ Db.relations.
Proof. unfold Db.relations. set_solver. Qed.

(** On a table whose ids are unique, [.eq('id', x).maybeSingle()] resolves
    to the row of that id, if the caller may see it. *)
Lemma select_profile_unique u x d :
  NoDup (Profile.id <$> Db.profiles d) →
  Db.select_profile (Some u) x d =
  inr (d, q ← profileOf d x;
          if decide (u = Profile.id q ∨ Some u = Profile.partner_id q)
          then Some q else None).
Proof.
  intros Hids. unfold Db.select_profile, Db.select, profileOf.
  assert (filter (λ r, Db.profile_visible d (Some u) r && bool_decide (Profile.id r = x))
            (Db.profiles d)
          = filter (λ r, u = Profile.id r ∨ Some u = Profile.partner_id r)
              (filter (λ r, Profile.id r = x) (Db.profiles d))) as ->.
  { rewrite list_filter_filter. apply list_filter_iff. intros r.
    unfold Db.profile_visible. simpl.
    rewrite andb_True, orb_True, !bool_decide_spec. tauto. }
  destruct (filter (λ r, Profile.id r = x) (Db.profiles d)) as [|q [|q' l]] eqn:Hf.
  - done.
  - simpl. rewrite filter_cons, filter_nil. by destruct (decide _).
  - exfalso.
    apply (NoDup_fmap_filter Profile.id (λ r, Profile.id r = x)) in Hids.
    assert (q ∈ q :: q' :: l) as H1 by (by left).
    assert (q' ∈ q :: q' :: l) as H2 by (right; by left).
    rewrite <-Hf in H1, H2.
    apply list_elem_of_filter in H1 as [K1 _], H2 as [K2 _].
    rewrite Hf in Hids. csimpl in Hids.
    apply NoDup_cons in Hids as [Hids _]. apply Hids. rewrite K1, K2. by left.
Qed.

(** X18. [loadProfile] for the session's own user, on profiles with unique
    ids: the profile is the caller's row.  When that row names a partner,
    the partner profile is the partner's row only if that row names the
    caller as its partner in turn (the policy hides it otherwise), and
    null if not; when the caller's row names no partner, the partner
    profile that the provider held before is kept. *)
Theorem loadProfile_partner u w s :
  network_up w = true →
  NoDup (Profile.id <$> Db.profiles (db w)) →
  let run := AuthProvider.loadProfile (Some u) u in
  let s' := state_after run w s in
  AuthProvider.profile s' = profileOf (db w) u
  ∧ AuthProvider.partnerProfile s'
    = match profileOf (db w) u ≫= Profile.partner_id with
      | Some p =>
          q ← profileOf (db w) p;
          if decide (p = u ∨ Profile.partner_id q = Some u) then Some q else None
      | None => AuthProvider.partnerProfile s
      end
  ∧ AuthProvider.loading s' = false
  ∧ db (world_after run w s) = db w
  ∧ console (world_after run w s) = console w
  ∧ outcome_of run w s = Returned ().
Proof.
  intros Hnet Hids run s'. subst run s'.
  unfold world_after, state_after, outcome_of, AuthProvider.loadProfile,
    finally, try_catch, bind.
  rewrite await_up by (done || apply relation_profiles).
  rewrite select_profile_unique by done. simpl.
  assert (∀ x q, profileOf (db w) x = Some q → Profile.id q = x) as Hid.
  { intros x q Hq. unfold profileOf in Hq.
    destruct (filter _ (Db.profiles (db w))) as [|q0 l] eqn:Hf; simplify_eq/=.
    assert (q ∈ q :: l) as Hin by (by left). rewrite <-Hf in Hin.
    by apply list_elem_of_filter in Hin as [? _]. }
  destruct (profileOf (db w) u) as [me|] eqn:Hme; simpl.
  - rewrite decide_True by (left; symmetry; by apply Hid). simpl.
    destruct (Profile.partner_id me) as [p|] eqn:Hp; simpl.
    + unfold bind.
      rewrite await_up by (done || apply relation_profiles). simpl.
      rewrite select_profile_unique by done. simpl.
      split_and!; try done.
      destruct (profileOf (db w) p) as [q|] eqn:Hq; simpl; [|done].
      apply Hid in Hq. rewrite Hq.
      assert ((u = p ∨ Some u = Profile.partner_id q)
              ↔ (p = u ∨ Profile.partner_id q = Some u)) as Hiff.
      { split; (intros [?|?]; [left|right]; done). }
      destruct (decide (u = p ∨ Some u = Profile.partner_id q)),
        (decide (p = u ∨ Profile.partner_id q = Some u)); try done; tauto.
    + done.
  - done.
Qed.

Lemma loadProfile_partner_witness :
  let run := AuthProvider.loadProfile (Some 1%nat) 1%nat in
  let w := Example.world in
  let s := Example.provider in
  let s' := state_after run w s in
  AuthProvider.profile s' = profileOf (db w) 1%nat
  ∧ AuthProvider.partnerProfile s'
    = match profileOf (db w) 1%nat ≫= Profile.partner_id with
      | Some p =>
          q ← profileOf (db w) p;
          if decide (p = 1%nat ∨ Profile.partner_id q = Some 1%nat)
          then Some q else None
      | None => AuthProvider.partnerProfile s
      end
  ∧ AuthProvider.loading s' = false
  ∧ db (world_after run w s) = db w
  ∧ console (world_after run w s) = console w
  ∧ outcome_of run w s = Returned ().
Proof.
  apply (loadProfile_partner 1%nat Example.world Example.provider);
    [reflexivity|].
  apply (bool_decide_unpack _). vm_compute. exact I.
Defined.

(** X19. The profile row of a sign-up is never stored: row-level security
    is on for [profiles] and the schema has no policy for INSERT, so the
    insert that follows a sign-up which yields a user is refused (or does
    not reach the backend) and [signUp] throws that error; the backend's
    rows are as before. *)
Theorem signUpProfile_refused session id name w (s : AuthProvider.State) :
  let run := AuthProvider.signUpProfile session (Some id) name in
  outcome_of run w s
    = Thrown (if network_up w then Db.RlsViolation else Db.FetchFailed)
  ∧ db (world_after run w s) = db w
  ∧ requests (world_after run w s)
    = requests w ++ [{| verb := INSERT; relation := "profiles" |}]
  ∧ state_after run w s = s.
Proof.
  intros run. subst run.
  unfold outcome_of, world_after, state_after, AuthProvider.signUpProfile, bind.
  destruct (network_up w) eqn:Hnet.
  - rewrite await_up by (done || apply relation_profiles). done.
  - rewrite await_down by done. done.
Qed.

(** ** The mood tracker's loader *)

(** The moods that one round of the two queries yields: those of the
    posts; the query for the diary names a relation that the schema does
    not have, and resolves to no data. *)
Lemma allMoods_up auth who since w (s : MoodTrackerPage.State) :
  network_up w = true →
  MoodTrackerPage.allMoods auth who since w s =
  (send SELECT "daily_diary" (send SELECT "posts" w), s,
   Returned
     (Post.mood <$>
        Db.select (Db.post_visible (db w) (user auth))
          (Db.post_matches
             {| Db.owner := Db.OwnerEq who; Db.created_gte := Some since;
                Db.created_lte := None; Db.mood_in := None;
                Db.row_limit := None |})
          (Db.posts (db w)))).
Proof.
  intros Hnet. unfold MoodTrackerPage.allMoods, bind.
  rewrite await_up by (done || apply relation_posts).
  unfold Db.select_post_moods. simpl.
  rewrite await_undefined by (done || apply relation_daily_diary).
  unfold ret. simpl. rewrite app_nil_r. by destruct w.
Qed.

(** The date moved [k] days back keeps its wall-clock time, and its time
    value is read with the offset the zone has then. *)
Lemma setDate_back zone (f : Js.LocalFields) k :
  Js.TimeValue zone (Js.setDate (Js.date f - k) f) =
  Js.LocalTime f - k * Js.msPerDay - zone (Js.LocalTime f - k * Js.msPerDay).
Proof.
  assert (Js.LocalTime (Js.setDate (Js.date f - k) f)
          = Js.LocalTime f - k * Js.msPerDay) as Hlocal.
  { unfold Js.LocalTime, Js.setDate, Js.MakeDate, Js.MakeDay. simpl. lia. }
  unfold Js.TimeValue. rewrite Hlocal. unfold Js.UTC.
  unfold Js.LocalTime in Hlocal. by rewrite Hlocal.
Qed.

(** X20. The mood tracker counts the moods of posts only: the statistics
    of the caller are those of the caller's posts since the instant that
    has the present wall-clock time on the local date 7 or 30 days back
    (read with the offset the zone has then: to the millisecond 7 or 30
    times 24 hours ago when that offset is today's, and as much earlier or
    later as the offsets differ when daylight saving changed in between),
    and those of the partner are those of the partner's posts that the
    caller may see; the moods of diary entries never enter, since the query
    for them names a relation the schema does not have, and the page
    reports no error.  Without a partner the partner's statistics stay as
    they were. *)
Theorem loadMoodData_counts_posts auth u w s :
  user auth = Some u → network_up w = true →
  let days := match MoodTrackerPage.timeRange s with
              | MoodTrackerPage.week => 7
              | MoodTrackerPage.month => 30
              end in
  let before := zone w (Js.LocalTime (now w) - days * Js.msPerDay) in
  let since := clock w - days * Js.msPerDay + (tza w - before) in
  let moodsOf (who : uuid) :=
    Post.mood <$>
      filter (λ p, Db.post_visible (db w) (Some u) p
                   ∧ Post.user_id p = who ∧ since ≤ Post.created_at p)
        (Db.posts (db w)) in
  let w' := world_after (MoodTrackerPage.loadMoodData auth) w s in
  let s' := state_after (MoodTrackerPage.loadMoodData auth) w s in
  MoodTrackerPage.myMoods s' = MoodTracker.calculateMoodStats (moodsOf u)
  ∧ MoodTrackerPage.partnerMoods s'
    = match partnerProfile auth with
      | Some p => MoodTracker.calculateMoodStats (moodsOf (Profile.id p))
      | None => MoodTrackerPage.partnerMoods s
      end
  ∧ MoodTrackerPage.loading s' = false
  ∧ db w' = db w
  ∧ console w' = console w
  ∧ requests w'
    = requests w
      ++ [{| verb := SELECT; relation := "posts" |};
          {| verb := SELECT; relation := "daily_diary" |}]
      ++ match partnerProfile auth with
         | Some _ => [{| verb := SELECT; relation := "posts" |};
                      {| verb := SELECT; relation := "daily_diary" |}]
         | None => []
         end.
Proof.
  intros Hu Hnet days before since moodsOf w' s'. subst w' s'.
  assert (∀ who d,
            Post.mood <$>
              Db.select (Db.post_visible d (user auth))
                (Db.post_matches
                   {| Db.owner := Db.OwnerEq who; Db.created_gte := Some since;
                      Db.created_lte := None; Db.mood_in := None;
                      Db.row_limit := None |})
                (Db.posts d)
            = Post.mood <$>
                filter (λ p, Db.post_visible d (Some u) p
                             ∧ Post.user_id p = who ∧ since ≤ Post.created_at p)
                  (Db.posts d)) as Hmoods.
  { intros who d. f_equal. unfold Db.select. apply list_filter_iff. intros p.
    unfold Db.post_matches. simpl. rewrite Hu.
    rewrite !andb_True, bool_decide_spec, !Is_true_true, Z.leb_le. tauto. }
  unfold world_after, state_after, MoodTrackerPage.loadMoodData. rewrite Hu.
  unfold finally, try_catch, bind, get, new_Date, LocalTZA. simpl.
  assert (Js.TimeValue (zone w)
            (Js.setDate
               (Js.date (now w)
                - match MoodTrackerPage.timeRange s with
                  | MoodTrackerPage.week => 7
                  | MoodTrackerPage.month => 30
                  end) (now w)) = since) as ->.
  { rewrite setDate_back. subst since before days.
    unfold clock, Js.UTC, Js.LocalTime. lia. }
  rewrite allMoods_up by done. simpl. rewrite Hmoods.
  destruct (partnerProfile auth) as [p|]; simpl.
  - unfold bind. rewrite allMoods_up by done. simpl. rewrite Hmoods.
    split_and!; try done. by rewrite <-!app_assoc.
  - split_and!; try done. by rewrite ?app_nil_r, <-?app_assoc.
Qed.

(** In New York on 15 March 2025 at 19:30, daylight saving time, the week
    starts on 8 March at 19:30, standard time: an hour less than 7 times
    24 hours ago. *)
Lemma loadMoodData_counts_posts_witness :
  let auth := Example.as_alice in
  let w := Example.newYork in
  let s := Example.moods MoodTrackerPage.week in
  let since := clock w - 7 * Js.msPerDay + 3600000 in
  let moodsOf (who : uuid) :=
    Post.mood <$>
      filter (λ p, Db.post_visible (db w) (Some 1%nat) p
                   ∧ Post.user_id p = who ∧ since ≤ Post.created_at p)
        (Db.posts (db w)) in
  let w' := world_after (MoodTrackerPage.loadMoodData auth) w s in
  let s' := state_after (MoodTrackerPage.loadMoodData auth) w s in
  MoodTrackerPage.myMoods s' = MoodTracker.calculateMoodStats (moodsOf 1%nat)
  ∧ MoodTrackerPage.partnerMoods s'
    = MoodTracker.calculateMoodStats (moodsOf 2%nat)
  ∧ MoodTrackerPage.loading s' = false
  ∧ db w' = db w
  ∧ console w' = console w
  ∧ requests w'
    = requests w
      ++ [{| verb := SELECT; relation := "posts" |};
          {| verb := SELECT; relation := "daily_diary" |}]
      ++ [{| verb := SELECT; relation := "posts" |};
          {| verb := SELECT; relation := "daily_diary" |}].
Proof.
  apply (loadMoodData_counts_posts Example.as_alice 1%nat Example.newYork
           (Example.moods MoodTrackerPage.week)); reflexivity.
Defined.

(** ** Memory Lane *)

(** X21. With the filter 'happiest' Memory Lane shows at most 20 posts, all
    of a happy, love or excited mood, and with the filter 'all' at most 50
    posts; in both cases they are posts the caller may see, newest first,
    and the newest ones: a post that qualifies and is not shown is not
    newer than any post shown, and when fewer than the limit are shown,
    every post that qualifies is. *)
Theorem loadMemories_newest auth u w s :
  user auth = Some u → network_up w = true →
  MemoryLane.filter s ≠ MemoryLane.month →
  let happiest := match MemoryLane.filter s with
                  | MemoryLane.happiest => true
                  | _ => false
                  end in
  let n := if happiest then 20%nat else 50%nat in
  let wanted (p : Post.t) :=
    p ∈ Db.posts (db w)
    ∧ Db.post_visible (db w) (user auth) p
    ∧ Db.owner_matches (MemoryLane.ownerFilter auth) (Post.user_id p)
    ∧ (happiest → Post.mood p ∈ [happy; love; excited]) in
  let page := MemoryLane.memories (state_after (MemoryLane.loadMemories auth) w s) in
  (length page ≤ n)%nat
  ∧ (∀ p, p ∈ page → wanted p)
  ∧ StronglySorted (λ a b, Post.created_at b ≤ Post.created_at a) page
  ∧ (∀ p q, p ∈ page → wanted q → q ∉ page → Post.created_at q ≤ Post.created_at p)
  ∧ ((length page < n)%nat → ∀ q, wanted q → q ∈ page).
Proof.
  intros Hu Hnet Hfilter happiest n wanted page.
  subst page. unfold state_after. rewrite (loadMemories_fetch auth u) by done.
  simpl.
  set (q := MemoryLane.query (MemoryLane.filter s) auth (zone w) (now w)).
  set (L := Db.order false Post.created_at
              (Db.select (Db.post_visible (db w) (user auth)) (Db.post_matches q)
                 (Db.posts (db w)))).
  assert (Db.row_limit q = Some n) as ->.
  { subst q n happiest. by destruct (MemoryLane.filter s). }
  simpl.
  assert (∀ p, p ∈ L ↔ wanted p) as HL.
  { intros p. subst L wanted. rewrite order_elem_of. unfold Db.select.
    rewrite list_elem_of_filter. unfold Db.post_matches. subst q happiest.
    destruct (MemoryLane.filter s); [|done|]; simpl;
      rewrite !andb_True, ?bool_decide_spec, !Is_true_true; tauto. }
  assert (StronglySorted (λ a b, Post.created_at b ≤ Post.created_at a) L) as Hsorted.
  { apply (order_sorted false). }
  rewrite <-(take_drop n L) in Hsorted.
  split_and!.
  - rewrite length_take. lia.
  - intros p Hp. apply HL. rewrite <-(take_drop n L). apply elem_of_app. by left.
  - by apply StronglySorted_app_1_l in Hsorted.
  - intros p p' Hp Hp' Hnot. apply HL in Hp'.
    rewrite <-(take_drop n L) in Hp'. apply elem_of_app in Hp' as [?|Hdrop]; [done|].
    by apply (StronglySorted_app_1_elem_of _ _ _ p p' Hsorted).
  - intros Hlen p Hp. apply HL in Hp. rewrite length_take in Hlen.
    rewrite take_ge by lia. done.
Qed.

Lemma loadMemories_newest_witness :
  let auth := Example.as_alice in
  let w := Example.world in
  let s := Example.memoryLane MemoryLane.happiest in
  let wanted (p : Post.t) :=
    p ∈ Db.posts (db w)
    ∧ Db.post_visible (db w) (user auth) p
    ∧ Db.owner_matches (MemoryLane.ownerFilter auth) (Post.user_id p)
    ∧ (true → Post.mood p ∈ [happy; love; excited]) in
  let page := MemoryLane.memories (state_after (MemoryLane.loadMemories auth) w s) in
  (length page ≤ 20)%nat
  ∧ (∀ p, p ∈ page → wanted p)
  ∧ StronglySorted (λ a b, Post.created_at b ≤ Post.created_at a) page
  ∧ (∀ p q, p ∈ page → wanted q → q ∉ page → Post.created_at q ≤ Post.created_at p)
  ∧ ((length page < 20)%nat → ∀ q, wanted q → q ∈ page).
Proof.
  apply (loadMemories_newest Example.as_alice 1%nat Example.world
           (Example.memoryLane MemoryLane.happiest));
    [reflexivity|reflexivity|discriminate].
Defined.

(** ** Navigation *)

(** X22. Whatever page id is navigated to, the page shown is never the
    Quotes page; an id that is no entry of the navigation bar shows the
    Timeline; and the seven entries of the bar open seven different
    pages. *)
Theorem renderPage_pages (currentPage : string) :
  App.renderPage currentPage ≠ App.ShowQuotes
  ∧ (currentPage ∉ Layout.navItems.*1 → App.renderPage currentPage = App.ShowTimeline)
  ∧ App.renderPage <$> Layout.navItems.*1
    = [App.ShowTimeline; App.ShowDiary; App.ShowMoodTracker; App.ShowMemoryLane;
       App.ShowPlaylist; App.ShowChat; App.ShowPhotos].
Proof.
  split_and!.
  - unfold App.renderPage.
    repeat (destruct (String.eqb currentPage _); [done|]). done.
  - intros Hnot. unfold App.renderPage.
    repeat match goal with
           | |- context [String.eqb currentPage ?x] =>
               destruct (String.eqb_spec currentPage x) as [->|_];
                 [exfalso; apply Hnot; vm_compute; set_solver|]
           end.
    done.
  - reflexivity.
Qed.

(** ** A message, sent and read *)

Lemma loadMessages_step auth u w s :
  user auth = Some u → network_up w = true →
  NoDup (ChatMessage.id <$> Db.chat_messages (db w)) →
  let ws := step (Chat.loadMessages auth) (w, s) in
  db ws.1 = Db.with_chat_messages (db w)
              (receivedRead (db w) u <$> Db.chat_messages (db w))
  ∧ network_up ws.1 = true
  ∧ Chat.messages ws.2
    = Db.order true ChatMessage.sent_at
        (Db.select (Db.chat_visible (db w) (Some u)) (λ _, true)
           (Db.chat_messages (db w)))
  ∧ NoDup (ChatMessage.id <$> Db.chat_messages (db ws.1)).
Proof.
  intros Hu Hnet Hids ws. subst ws. unfold step. simpl.
  destruct (loadMessages_up auth u w s Hu Hnet Hids) as [-> Hrows]. simpl.
  assert (db (if bool_decide
                   (0 < length
                          (Chat.unreadIds u
                             (Db.order true ChatMessage.sent_at
                                (Db.select (Db.chat_visible (db w) (Some u))
                                   (λ _, true) (Db.chat_messages (db w))))))%nat
              then with_db
                     (Db.with_chat_messages (db w)
                        (receivedRead (db w) u <$> Db.chat_messages (db w)))
                     (send UPDATE "chat_messages" (send SELECT "chat_messages" w))
              else send SELECT "chat_messages" w)
          = Db.with_chat_messages (db w)
              (receivedRead (db w) u <$> Db.chat_messages (db w))) as Hdb.
  { rewrite Hrows.
    destruct (bool_decide _); simpl; [done|by rewrite with_chat_messages_same]. }
  split_and!; [exact Hdb|by destruct (bool_decide _)|done|].
  rewrite Hdb. simpl.
  rewrite (marking_ids ChatMessage.id ChatMessage.sender_id Db.set_message_read
             u (Db.partner_ids (db w) u)); done.
Qed.

Lemma chat_messages_elem_of_loaded u d m :
  m ∈ Db.chat_messages d →
  ChatMessage.sender_id m = u ∨ ChatMessage.sender_id m ∈ Db.partner_ids d u →
  m ∈ Db.order true ChatMessage.sent_at
        (Db.select (Db.chat_visible d (Some u)) (λ _, true) (Db.chat_messages d)).
Proof.
  intros Hin Hv. rewrite order_elem_of. unfold Db.select.
  apply list_elem_of_filter. split; [|done].
  rewrite andb_true_r. unfold Db.chat_visible. simpl.
  by apply Is_true_true, own_or_partner_spec.
Qed.

(** X23. A message that is sent is stored in the sender's name, unread,
    with the text as typed, and the input is cleared.  The sender's own
    load of the chat shows it and leaves it unread; the load of the
    partner (the user whose profile names the sender as partner) shows it
    and marks it as read on the backend. *)
Theorem sent_message_read_by_partner auth auth' a b w s s' :
  user auth = Some a → user auth' = Some b → a ≠ b →
  network_up w = true →
  a ∈ Profile.id <$> Db.profiles (db w) →
  a ∈ Db.partner_ids (db w) b →
  NoDup (ChatMessage.id <$> Db.chat_messages (db w)) →
  blank (Chat.newMessage s) = false →
  let sent := step (Chat.handleSendMessage auth) (w, s) in
  let seen := step (Chat.loadMessages auth) sent in
  let read := step (Chat.loadMessages auth') (seen.1, s') in
  ∃ m, Db.chat_messages (db sent.1) = Db.chat_messages (db w) ++ [m]
       ∧ ChatMessage.sender_id m = a
       ∧ ChatMessage.message m = Chat.newMessage s
       ∧ ChatMessage.is_read m = false
       ∧ ChatMessage.sent_at m = clock w
       ∧ Chat.newMessage sent.2 = []
       ∧ m ∈ Chat.messages seen.2
       ∧ m ∈ Db.chat_messages (db seen.1)
       ∧ m ∈ Chat.messages read.2
       ∧ Db.set_message_read m ∈ Db.chat_messages (db read.1)
       ∧ m ∉ Db.chat_messages (db read.1).
Proof.
  intros Ha Hb Hab Hnet Hprofile Hpartner Hids Hblank sent seen read.
  set (m := {| ChatMessage.id :=
                 Db.gen_random_uuid (ChatMessage.id <$> Db.chat_messages (db w));
               ChatMessage.sender_id := a; ChatMessage.message := Chat.newMessage s;
               ChatMessage.is_read := false; ChatMessage.sent_at := clock w |}).
  assert (sent = (with_db (Db.with_chat_messages (db w)
                             (Db.chat_messages (db w) ++ [m]))
                    (send INSERT "chat_messages" w),
                  Chat.setNewMessage [] s)) as Hsent.
  { subst sent. unfold step, Chat.handleSendMessage, bind, get. simpl.
    rewrite Ha, Hblank. unfold try_catch, bind.
    rewrite relation_chat_messages_up by done.
    unfold Db.insert_chat_message, Db.checked, Db.has_profile, Db.own. simpl.
    by rewrite !bool_decide_eq_true_2. }
  assert (NoDup (ChatMessage.id <$> Db.chat_messages (db sent.1))) as Hids1.
  { rewrite Hsent. simpl. rewrite fmap_app. apply NoDup_app.
    split_and!; [done| |apply NoDup_singleton].
    intros x Hx ->%list_elem_of_singleton. by apply gen_random_uuid_fresh in Hx. }
  assert (network_up sent.1 = true) as Hnet1 by (by rewrite Hsent).
  destruct (loadMessages_step auth a sent.1 sent.2 Ha Hnet1 Hids1)
    as (Hdb2 & Hnet2 & Hpage2 & Hids2).
  replace (sent.1, sent.2) with sent in * by (by destruct sent).
  fold seen in Hdb2, Hnet2, Hpage2, Hids2.
  destruct (loadMessages_step auth' b seen.1 s' Hb Hnet2 Hids2)
    as (Hdb3 & _ & Hpage3 & _).
  fold read in Hdb3, Hpage3.
  assert (m ∈ Db.chat_messages (db sent.1)) as Hm1.
  { rewrite Hsent. simpl. apply elem_of_app. right. by left. }
  assert (m ∈ Db.chat_messages (db seen.1)) as Hm2.
  { rewrite Hdb2. simpl. apply list_elem_of_fmap. exists m. split; [|done].
    unfold receivedRead, markRead. rewrite decide_False; [done|]. simpl. tauto. }
  assert (Db.partner_ids (db seen.1) b = Db.partner_ids (db w) b) as Hpartners.
  { rewrite Hdb2, Hsent. done. }
  exists m. split_and!; try done.
  - by rewrite Hsent.
  - by rewrite Hsent.
  - rewrite Hpage2. apply chat_messages_elem_of_loaded; [done|by left].
  - rewrite Hpage3. apply chat_messages_elem_of_loaded; [done|].
    right. by rewrite Hpartners.
  - rewrite Hdb3. simpl. apply list_elem_of_fmap. exists m. split; [|done].
    unfold receivedRead, markRead. rewrite Hpartners. by rewrite decide_True.
  - rewrite Hdb3. simpl. intros (r & Heq & Hr)%list_elem_of_fmap.
    unfold receivedRead, markRead in Heq. rewrite Hpartners in Heq.
    destruct (decide _) as [|Hnot].
    + by apply (f_equal ChatMessage.is_read) in Heq.
    + subst r. apply Hnot. done.
Qed.

Lemma sent_message_read_by_partner_witness :
  let s := Example.chatPage "miss you" in
  let w := Example.writing in
  let sent := step (Chat.handleSendMessage Example.as_alice) (w, s) in
  let seen := step (Chat.loadMessages Example.as_alice) sent in
  let read := step (Chat.loadMessages Example.as_bob) (seen.1, Example.chat) in
  ∃ m, Db.chat_messages (db sent.1) = Db.chat_messages (db w) ++ [m]
       ∧ ChatMessage.sender_id m = 1%nat
       ∧ ChatMessage.message m = Chat.newMessage s
       ∧ ChatMessage.is_read m = false
       ∧ ChatMessage.sent_at m = clock w
       ∧ Chat.newMessage sent.2 = []
       ∧ m ∈ Chat.messages seen.2
       ∧ m ∈ Db.chat_messages (db seen.1)
       ∧ m ∈ Chat.messages read.2
       ∧ Db.set_message_read m ∈ Db.chat_messages (db read.1)
       ∧ m ∉ Db.chat_messages (db read.1).
Proof.
  apply (sent_message_read_by_partner Example.as_alice Example.as_bob 1%nat 2%nat
           Example.writing (Example.chatPage "miss you") Example.chat);
    [reflexivity|reflexivity|discriminate|reflexivity|vm_compute; by left
    |vm_compute; by left| |reflexivity].
  apply (bool_decide_unpack _). vm_compute. exact I.
Defined.

(** ** The playlist *)

(** X24. A song that is added is in the list at the next load: it is
    stored in the caller's name with the title and the url as typed (they
    are trimmed for the guard only) under a new id; the handler empties
    and closes the form and does not fetch, and the next load holds the
    songs the caller may see, newest first, the new one among them. *)
Theorem handleAddSong_then_loadPlaylist auth u w s :
  user auth = Some u → network_up w = true →
  u ∈ Profile.id <$> Db.profiles (db w) →
  blank (Playlist.songTitle s) = false → blank (Playlist.songUrl s) = false →
  let added := step (Playlist.handleAddSong auth) (w, s) in
  let page := step (Playlist.loadPlaylist auth) added in
  Playlist.songs added.2 = Playlist.songs s
  ∧ Playlist.songTitle added.2 = [] ∧ Playlist.songUrl added.2 = []
  ∧ Playlist.showAddForm added.2 = false ∧ Playlist.saving added.2 = false
  ∧ requests added.1 = requests w ++ [{| verb := INSERT; relation := "playlist" |}]
  ∧ StronglySorted (λ a b, PlaylistItem.added_at b ≤ PlaylistItem.added_at a)
      (Playlist.songs page.2)
  ∧ ∃ song, song ∈ Playlist.songs page.2
            ∧ Db.playlist (db added.1) = Db.playlist (db w) ++ [song]
            ∧ PlaylistItem.user_id song = u
            ∧ PlaylistItem.song_title song = Playlist.songTitle s
            ∧ PlaylistItem.song_url song = Playlist.songUrl s
            ∧ PlaylistItem.added_at song = clock w
            ∧ (PlaylistItem.id song ∉ PlaylistItem.id <$> Db.playlist (db w)).
Proof.
  intros Hu Hnet Hprofile Htitle Hurl added page. subst page added.
  unfold step. simpl.
  unfold Playlist.handleAddSong, bind, get. simpl. rewrite Hu, Htitle, Hurl. simpl.
  unfold finally, try_catch, bind, modify. simpl.
  rewrite await_up by (done || apply relation_playlist).
  unfold Db.insert_song, Db.checked, Db.has_profile, Db.own. simpl.
  rewrite !bool_decide_eq_true_2 by done. simpl.
  unfold Playlist.loadPlaylist, finally, try_catch, bind.
  rewrite await_up by (done || apply relation_playlist).
  unfold Db.select_playlist. simpl.
  split_and!; try done.
  - apply (order_sorted false).
  - eexists {| PlaylistItem.id := _ |}. split.
    { rewrite order_elem_of. unfold Db.select. apply list_elem_of_filter.
      split; [|apply elem_of_app; right; by left].
      rewrite andb_true_r. unfold Db.song_visible. rewrite Hu. simpl.
      apply Is_true_true, own_or_partner_spec. by left. }
    simpl. split_and!; try done. apply gen_random_uuid_fresh.
Qed.

Lemma handleAddSong_then_loadPlaylist_witness :
  let auth := Example.as_alice in
  let w := Example.world in
  let s := Example.playlistPage " Our song" "https://example.org/o" in
  let added := step (Playlist.handleAddSong auth) (w, s) in
  let page := step (Playlist.loadPlaylist auth) added in
  Playlist.songs added.2 = Playlist.songs s
  ∧ Playlist.songTitle added.2 = [] ∧ Playlist.songUrl added.2 = []
  ∧ Playlist.showAddForm added.2 = false ∧ Playlist.saving added.2 = false
  ∧ requests added.1 = requests w ++ [{| verb := INSERT; relation := "playlist" |}]
  ∧ StronglySorted (λ a b, PlaylistItem.added_at b ≤ PlaylistItem.added_at a)
      (Playlist.songs page.2)
  ∧ ∃ song, song ∈ Playlist.songs page.2
            ∧ Db.playlist (db added.1) = Db.playlist (db w) ++ [song]
            ∧ PlaylistItem.user_id song = 1%nat
            ∧ PlaylistItem.song_title song = Playlist.songTitle s
            ∧ PlaylistItem.song_url song = Playlist.songUrl s
            ∧ PlaylistItem.added_at song = clock w
            ∧ (PlaylistItem.id song ∉ PlaylistItem.id <$> Db.playlist (db w)).
Proof.
  apply (handleAddSong_then_loadPlaylist Example.as_alice 1%nat Example.world
           (Example.playlistPage " Our song" "https://example.org/o"));
    [reflexivity|reflexivity|vm_compute; by left|reflexivity|reflexivity].
Defined.

(** ** The reactions under a post, and what a reaction reports *)

(** X25. After a load, the reactions that the timeline holds under a post
    it shows are the reactions that the backend has on that post: all of
    them, each once, in the table's order. *)
Theorem loadPosts_reactions auth w s p :
  network_up w = true →
  let page := state_after (Timeline.loadPosts auth) w s in
  p ∈ Post.id <$> Timeline.posts page →
  default [] (Timeline.reactions page !! p)
  = filter (λ r, Reaction.post_id r = p) (Db.reactions (db w)).
Proof.
  intros Hnet page Hp. subst page. unfold state_after in *.
  rewrite loadPosts_up in * by done. simpl in *.
  rewrite reactionsByPost_lookup.
  assert (filter (λ r, Reaction.post_id r = p)
            (loadedReactions auth
               (Post.id <$> loadedPosts auth (Timeline.filter s) (db w)) (db w))
          = filter (λ r, Reaction.post_id r = p) (Db.reactions (db w))) as ->.
  { unfold loadedReactions, Db.select. rewrite list_filter_filter.
    apply list_filter_iff. intros r. split; [tauto|]. intros Hr. split; [done|].
    unfold Db.reaction_visible.
    rewrite andb_True, !bool_decide_spec, Hr. split; [|done].
    by apply (loadedPosts_visible auth (Timeline.filter s)). }
  by destruct (filter _ (Db.reactions (db w))).
Qed.

Lemma loadPosts_reactions_witness :
  let w := (step (settled (Timeline.handleReaction Example.as_alice 10%nat
                             Reaction.love))
              (Example.world,
               loaded Example.as_alice (db Example.world)
                 (Example.timeline Timeline.all ""))).1 in
  let page := state_after (Timeline.loadPosts Example.as_bob) w
                (Example.timeline Timeline.all "") in
  default [] (Timeline.reactions page !! 10%nat)
  = filter (λ r, Reaction.post_id r = 10%nat) (Db.reactions (db w)).
Proof.
  intros w.
  apply (loadPosts_reactions Example.as_bob w (Example.timeline Timeline.all "")
           10%nat); [reflexivity|].
  vm_compute. do 2 right. by left.
Defined.


(** X26. [handleReaction] never reports a failure of its own: its
    statement may be refused or not reach the backend, the handler goes on
    to start the load of the timeline, and returns normally.  Once that
    load has settled, the console has got no line when the backend is in
    reach, and the one line of the failed load when it is not; 'Error
    handling reaction:' is never written. *)
Theorem handleReaction_never_reports auth postId reactionType w s :
  let run := settled (Timeline.handleReaction auth postId reactionType) in
  outcome_of run w s = Returned ()
  ∧ console (world_after run w s)
    = console w
      ++ match user auth with
         | Some _ => if network_up w then [] else ["Error loading posts:"]
         | None => []
         end
  ∧ Timeline.loading (state_after run w s)
    = match user auth with
      | Some _ => false
      | None => Timeline.loading s
      end.
Proof.
  intros run. subst run.
  unfold outcome_of, world_after, state_after, settled.
  destruct (user auth) as [u|] eqn:Hu.
  - destruct (handleReaction_started auth u postId reactionType w s Hu)
      as (w1 & Heq & Hnet1 & _ & _ & Hconsole1 & _).
    unfold bind. rewrite Heq.
    destruct (network_up w) eqn:Hnet.
    + rewrite loadPosts_up by done. simpl. by rewrite Hconsole1, app_nil_r.
    + rewrite loadPosts_down by done. simpl. by rewrite Hconsole1.
  - unfold Timeline.handleReaction, bind, get. simpl. rewrite Hu. simpl.
    by rewrite app_nil_r.
Qed.

(** ** The histogram and the order of the rows *)

Lemma occurrences_perm `{EqDecision A} (x : A) l k :
  l ≡ₚ k → occurrences x l = occurrences x k.
Proof. unfold occurrences. by intros ->. Qed.

Lemma tally_elem_of moods m c :
  (m, c) ∈ MoodTracker.tally moods ↔ m ∈ moods ∧ c = occurrences m moods.
Proof.
  destruct (tally_spec moods) as (Hnd & Hcount & Hcover & _). split.
  - intros Hin. destruct (Hcount _ _ Hin). done.
  - intros [Hm ->]. apply Hcover in Hm.
    apply list_elem_of_fmap in Hm as ([m' c'] & -> & Hin). simpl.
    by destruct (Hcount _ _ Hin) as [<- _].
Qed.

(** X27. The histogram does not depend on the order in which the moods
    come (the queries of the mood tracker ask for none): the moods in
    another order give the same records, with the same counts and
    percentages; only records of equal count may change places. *)
Theorem calculateMoodStats_order_free (moods moods' : list Mood) :
  moods ≡ₚ moods' →
  MoodTracker.calculateMoodStats moods ≡ₚ MoodTracker.calculateMoodStats moods'.
Proof.
  intros Hperm. rewrite !calculateMoodStats_perm.
  rewrite <-(Permutation_length Hperm).
  apply fmap_Permutation. apply NoDup_Permutation.
  - destruct (tally_spec moods) as (Hnd & _). by apply NoDup_fmap_1 in Hnd.
  - destruct (tally_spec moods') as (Hnd & _). by apply NoDup_fmap_1 in Hnd.
  - intros [m c]. rewrite !tally_elem_of.
    by rewrite (occurrences_perm m _ _ Hperm), Hperm.
Qed.

Lemma calculateMoodStats_order_free_witness :
  MoodTracker.calculateMoodStats [love; happy; sad; happy]
  ≡ₚ MoodTracker.calculateMoodStats [happy; sad; happy; love].
Proof.
  apply (calculateMoodStats_order_free [love; happy; sad; happy]
           [happy; sad; happy; love]).
  apply (Permutation_cons_append [happy; sad; happy] love).
Defined.

(** ** Creating without a profile *)

(** X28. A user without a row in [profiles] (the state in which a sign-up
    leaves a new user, see above) cannot create anything: the post, the
    song, the photo and the message reference the profile, the backend
    refuses the row, and the handler logs the error, stores nothing and
    keeps what was typed. *)
Theorem create_without_profile auth u w
    (post : Timeline.State) (song : Playlist.State) (photo : Photos.State)
    (chat : Chat.State) :
  user auth = Some u → network_up w = true →
  u ∉ Profile.id <$> Db.profiles (db w) →
  blank (Timeline.newPost post) = false →
  blank (Playlist.songTitle song) = false → blank (Playlist.songUrl song) = false →
  blank (Photos.photoUrl photo) = false →
  blank (Chat.newMessage chat) = false →
  Timeline.handleSubmitPost auth w post
    = (log_error "Error creating post:" (send INSERT "posts" w), post, Returned ())
  ∧ Playlist.handleAddSong auth w song
    = (log_error "Error adding song:" (send INSERT "playlist" w),
       Playlist.setSaving false song, Returned ())
  ∧ Photos.handleAddPhoto auth w photo
    = (log_error "Error adding photo:" (send INSERT "photos" w),
       Photos.setSaving false photo, Returned ())
  ∧ Chat.handleSendMessage auth w chat
    = (log_error "Error sending message:" (send INSERT "chat_messages" w),
       chat, Returned ())
  ∧ Db.insert_post (Some u) (clock w) u (Timeline.newPost post)
      (Timeline.selectedMood post) None None false (db w)
    = inl Db.ForeignKeyViolation.
Proof.
  intros Hu Hnet Hprofile Hpost Htitle Hurl Hphoto Hchat.
  unfold Timeline.handleSubmitPost, Playlist.handleAddSong,
    Photos.handleAddPhoto, Chat.handleSendMessage, bind, get. simpl.
  rewrite Hu, Hpost, Htitle, Hurl, Hphoto, Hchat. simpl.
  unfold finally, try_catch, bind, modify. simpl.
  rewrite !await_up
    by (done || apply relation_posts || apply relation_playlist
        || apply relation_photos || apply relation_chat_messages).
  unfold Db.insert_post, Db.insert_song, Db.insert_photo, Db.insert_chat_message,
    Db.checked, Db.has_profile, Db.own. simpl.
  rewrite !bool_decide_eq_true_2 by done.
  rewrite !bool_decide_eq_false_2 by done. done.
Qed.

Lemma create_without_profile_witness :
  let auth := {| user := Some 9%nat; profile := None; partnerProfile := None |} in
  let w := Example.world in
  let post := Example.timeline Timeline.all "hi" in
  let song := Example.playlistPage "Song" "https://example.org/s" in
  let photo := Example.photosPage "https://example.org/a.jpg" in
  let chat := Example.chatPage "hello" in
  Timeline.handleSubmitPost auth w post
    = (log_error "Error creating post:" (send INSERT "posts" w), post, Returned ())
  ∧ Playlist.handleAddSong auth w song
    = (log_error "Error adding song:" (send INSERT "playlist" w),
       Playlist.setSaving false song, Returned ())
  ∧ Photos.handleAddPhoto auth w photo
    = (log_error "Error adding photo:" (send INSERT "photos" w),
       Photos.setSaving false photo, Returned ())
  ∧ Chat.handleSendMessage auth w chat
    = (log_error "Error sending message:" (send INSERT "chat_messages" w),
       chat, Returned ())
  ∧ Db.insert_post (Some 9%nat) (clock w) 9%nat (Timeline.newPost post)
      (Timeline.selectedMood post) None None false (db w)
    = inl Db.ForeignKeyViolation.
Proof.
  intros auth.
  apply (create_without_profile auth 9%nat Example.world);
    [reflexivity|reflexivity| |reflexivity..].
  apply (bool_decide_unpack _). vm_compute. exact I.
Defined.
